(** * keyhole: the simulation runner ([sim/runner.go])

    A shallow embedding of [sim.Runner] and of the operations it performs
    on a MongoDB cluster: construction and topology resolution
    ([NewRunner]), the configuration setters, the phase scheduler
    ([Start]), index creation and shard partition planning
    ([createIndexes], [splitChunks]), [Cleanup], and the shutdown sequence
    ([terminate], [CollectAllStatus]).

    Every call that leaves the process (driver commands, logging, sleeping,
    starting a goroutine) is recorded as an [Event] that carries the answer
    the call received; the answers come from an environment [Env] that may
    depend on everything that happened before. *)

From stdpp Require Import base list strings gmap.
From Stdlib Require Import ZArith Lia Ascii.

Set Warnings "-register-all".
Open Scope Z_scope.

(** ** Go's [int] (64 bits, two's complement) *)

Module GoInt.

Definition minInt : Z := - 2 ^ 63.
Definition maxInt : Z := 2 ^ 63 - 1.

(** Wrap-around of an exact result into the range of [int]. *)
Definition wrap (z : Z) : Z := (z + 2 ^ 63) `mod` 2 ^ 64 - 2 ^ 63.

Definition add (a b : Z) : Z := wrap (a + b).
Definition sub (a b : Z) : Z := wrap (a - b).
Definition mul (a b : Z) : Z := wrap (a * b).
(** Go's integer division truncates toward zero. *)
Definition quot (a b : Z) : Z := wrap (a `quot` b).

Definition inRange (z : Z) : Prop := minInt <= z <= maxInt.

End GoInt.

(** [len] of a slice, as an [int]. *)
Definition len {A : Type} (l : list A) : Z := Z.of_nat (length l).

(** ** Values exchanged with the driver *)

(** Go's [error]: [None] is [nil], [Some msg] an error with that message. *)
Definition error : Type := string.

(** A [bson.M] document: a map from field names to values. Doubles are kept
    as the rational number they denote (a decoded JSON or BSON number is
    finite), which is all that the sign test of [createIndexes] reads. *)
Inductive Bson : Type :=
| BStr (s : string)
| BInt (z : Z)
| BDouble (num : Z) (den : positive)
| BDoc (d : gmap string Bson).

Abbreviation bsonM := (gmap string Bson).

(** Result of decoding one document, or of a call that returns
    [(value, error)]. *)
Inductive result (A : Type) : Type :=
| Ok (a : A)
| Err (e : error).
Arguments Ok {A} a.
Arguments Err {A} e.

(** [connstring.ConnString], the fields the runner reads. [String()]
    returns the original URI. *)
Record ConnString : Type := {
  Original : string;
  Database : string;
  SSLCaFile : string;
  SSLClientCertificateKeyFile : string
}.

(** Modelled from the spec: the type [mdb.ShardDoc] returned by
    [mdb.GetShards] is declared outside [sim/runner.go]; a shard of the
    enumerated shard list is identified by its name and carries the host
    string from which its connection descriptor is derived. *)
Record ShardDoc : Type := {
  shardID : string;
  shardHost : string
}.

(** The transaction template returned by [GetTransactions]: index
    specifications and transactions. One index specification lists its
    fields in the order in which the [range] over the Go map visits them. *)
Record TransactionDoc : Type := {
  Indexes : list (list (string * Bson));
  Transactions : list bsonM
}.

(** ** Constants of package [mdb] *)

Module mdb.

(** Modelled from the spec: the constant [mdb.KeyholeDB] is declared
    outside [sim/runner.go]; the default target database is
    [_KEYHOLE_88800] (so does the comment in [Start] say). *)
Definition KeyholeDB : string := "_KEYHOLE_88800".

(** Modelled from the spec: the constant [mdb.ExamplesCollection] is
    declared outside [sim/runner.go]; the default collection is the
    examples collection. *)
Definition ExamplesCollection : string := "examples".

(** Modelled from the spec: the constant [mdb.Sharded] is declared outside
    [sim/runner.go]; it is the cluster type string of a sharded cluster. *)
Definition Sharded : string := "sharded".

End mdb.

(** ** The runner *)

(** [sim.Runner]. The channel and the mutex carry no data and are left
    out; [client] is the URI the client was opened on ([None] for [nil]). *)
Record Runner : Type := {
  auto : bool;
  client : option string;
  clusterType : string;
  collectionName : string;
  conns : Z;
  connString : ConnString;
  dbName : string;
  drop : bool;
  duration : Z;
  filename : string;
  metrics : gmap string (list bsonM);
  peek : bool;
  simOnly : bool;
  tps : Z;
  txFilename : string;
  uri : string;
  uriList : list string;
  verbose : bool
}.

(** Field updates, [rn.f = v]. *)
Definition set_auto (v : bool) (rn : Runner) : Runner :=
  {| auto := v; client := client rn; clusterType := clusterType rn;
     collectionName := collectionName rn; conns := conns rn;
     connString := connString rn; dbName := dbName rn; drop := drop rn;
     duration := duration rn; filename := filename rn; metrics := metrics rn;
     peek := peek rn; simOnly := simOnly rn; tps := tps rn;
     txFilename := txFilename rn; uri := uri rn; uriList := uriList rn;
     verbose := verbose rn |}.

Definition set_client (v : option string) (rn : Runner) : Runner :=
  {| auto := auto rn; client := v; clusterType := clusterType rn;
     collectionName := collectionName rn; conns := conns rn;
     connString := connString rn; dbName := dbName rn; drop := drop rn;
     duration := duration rn; filename := filename rn; metrics := metrics rn;
     peek := peek rn; simOnly := simOnly rn; tps := tps rn;
     txFilename := txFilename rn; uri := uri rn; uriList := uriList rn;
     verbose := verbose rn |}.

Definition set_clusterType (v : string) (rn : Runner) : Runner :=
  {| auto := auto rn; client := client rn; clusterType := v;
     collectionName := collectionName rn; conns := conns rn;
     connString := connString rn; dbName := dbName rn; drop := drop rn;
     duration := duration rn; filename := filename rn; metrics := metrics rn;
     peek := peek rn; simOnly := simOnly rn; tps := tps rn;
     txFilename := txFilename rn; uri := uri rn; uriList := uriList rn;
     verbose := verbose rn |}.

Definition set_collectionName (v : string) (rn : Runner) : Runner :=
  {| auto := auto rn; client := client rn; clusterType := clusterType rn;
     collectionName := v; conns := conns rn;
     connString := connString rn; dbName := dbName rn; drop := drop rn;
     duration := duration rn; filename := filename rn; metrics := metrics rn;
     peek := peek rn; simOnly := simOnly rn; tps := tps rn;
     txFilename := txFilename rn; uri := uri rn; uriList := uriList rn;
     verbose := verbose rn |}.

Definition set_conns (v : Z) (rn : Runner) : Runner :=
  {| auto := auto rn; client := client rn; clusterType := clusterType rn;
     collectionName := collectionName rn; conns := v;
     connString := connString rn; dbName := dbName rn; drop := drop rn;
     duration := duration rn; filename := filename rn; metrics := metrics rn;
     peek := peek rn; simOnly := simOnly rn; tps := tps rn;
     txFilename := txFilename rn; uri := uri rn; uriList := uriList rn;
     verbose := verbose rn |}.

Definition set_dbName (v : string) (rn : Runner) : Runner :=
  {| auto := auto rn; client := client rn; clusterType := clusterType rn;
     collectionName := collectionName rn; conns := conns rn;
     connString := connString rn; dbName := v; drop := drop rn;
     duration := duration rn; filename := filename rn; metrics := metrics rn;
     peek := peek rn; simOnly := simOnly rn; tps := tps rn;
     txFilename := txFilename rn; uri := uri rn; uriList := uriList rn;
     verbose := verbose rn |}.

Definition set_drop (v : bool) (rn : Runner) : Runner :=
  {| auto := auto rn; client := client rn; clusterType := clusterType rn;
     collectionName := collectionName rn; conns := conns rn;
     connString := connString rn; dbName := dbName rn; drop := v;
     duration := duration rn; filename := filename rn; metrics := metrics rn;
     peek := peek rn; simOnly := simOnly rn; tps := tps rn;
     txFilename := txFilename rn; uri := uri rn; uriList := uriList rn;
     verbose := verbose rn |}.

Definition set_duration (v : Z) (rn : Runner) : Runner :=
  {| auto := auto rn; client := client rn; clusterType := clusterType rn;
     collectionName := collectionName rn; conns := conns rn;
     connString := connString rn; dbName := dbName rn; drop := drop rn;
     duration := v; filename := filename rn; metrics := metrics rn;
     peek := peek rn; simOnly := simOnly rn; tps := tps rn;
     txFilename := txFilename rn; uri := uri rn; uriList := uriList rn;
     verbose := verbose rn |}.

Definition set_filename (v : string) (rn : Runner) : Runner :=
  {| auto := auto rn; client := client rn; clusterType := clusterType rn;
     collectionName := collectionName rn; conns := conns rn;
     connString := connString rn; dbName := dbName rn; drop := drop rn;
     duration := duration rn; filename := v; metrics := metrics rn;
     peek := peek rn; simOnly := simOnly rn; tps := tps rn;
     txFilename := txFilename rn; uri := uri rn; uriList := uriList rn;
     verbose := verbose rn |}.

Definition set_peek (v : bool) (rn : Runner) : Runner :=
  {| auto := auto rn; client := client rn; clusterType := clusterType rn;
     collectionName := collectionName rn; conns := conns rn;
     connString := connString rn; dbName := dbName rn; drop := drop rn;
     duration := duration rn; filename := filename rn; metrics := metrics rn;
     peek := v; simOnly := simOnly rn; tps := tps rn;
     txFilename := txFilename rn; uri := uri rn; uriList := uriList rn;
     verbose := verbose rn |}.

Definition set_simOnly (v : bool) (rn : Runner) : Runner :=
  {| auto := auto rn; client := client rn; clusterType := clusterType rn;
     collectionName := collectionName rn; conns := conns rn;
     connString := connString rn; dbName := dbName rn; drop := drop rn;
     duration := duration rn; filename := filename rn; metrics := metrics rn;
     peek := peek rn; simOnly := v; tps := tps rn;
     txFilename := txFilename rn; uri := uri rn; uriList := uriList rn;
     verbose := verbose rn |}.

Definition set_tps (v : Z) (rn : Runner) : Runner :=
  {| auto := auto rn; client := client rn; clusterType := clusterType rn;
     collectionName := collectionName rn; conns := conns rn;
     connString := connString rn; dbName := dbName rn; drop := drop rn;
     duration := duration rn; filename := filename rn; metrics := metrics rn;
     peek := peek rn; simOnly := simOnly rn; tps := v;
     txFilename := txFilename rn; uri := uri rn; uriList := uriList rn;
     verbose := verbose rn |}.

Definition set_txFilename (v : string) (rn : Runner) : Runner :=
  {| auto := auto rn; client := client rn; clusterType := clusterType rn;
     collectionName := collectionName rn; conns := conns rn;
     connString := connString rn; dbName := dbName rn; drop := drop rn;
     duration := duration rn; filename := filename rn; metrics := metrics rn;
     peek := peek rn; simOnly := simOnly rn; tps := tps rn;
     txFilename := v; uri := uri rn; uriList := uriList rn;
     verbose := verbose rn |}.

Definition set_uri (v : string) (rn : Runner) : Runner :=
  {| auto := auto rn; client := client rn; clusterType := clusterType rn;
     collectionName := collectionName rn; conns := conns rn;
     connString := connString rn; dbName := dbName rn; drop := drop rn;
     duration := duration rn; filename := filename rn; metrics := metrics rn;
     peek := peek rn; simOnly := simOnly rn; tps := tps rn;
     txFilename := txFilename rn; uri := v; uriList := uriList rn;
     verbose := verbose rn |}.

Definition set_uriList (v : list string) (rn : Runner) : Runner :=
  {| auto := auto rn; client := client rn; clusterType := clusterType rn;
     collectionName := collectionName rn; conns := conns rn;
     connString := connString rn; dbName := dbName rn; drop := drop rn;
     duration := duration rn; filename := filename rn; metrics := metrics rn;
     peek := peek rn; simOnly := simOnly rn; tps := tps rn;
     txFilename := txFilename rn; uri := uri rn; uriList := v;
     verbose := verbose rn |}.

Definition set_verbose (v : bool) (rn : Runner) : Runner :=
  {| auto := auto rn; client := client rn; clusterType := clusterType rn;
     collectionName := collectionName rn; conns := conns rn;
     connString := connString rn; dbName := dbName rn; drop := drop rn;
     duration := duration rn; filename := filename rn; metrics := metrics rn;
     peek := peek rn; simOnly := simOnly rn; tps := tps rn;
     txFilename := txFilename rn; uri := uri rn; uriList := uriList rn;
     verbose := v |}.

(** ** Events *)

(** One argument of a logging or printing call. *)
Inductive LogArg : Type :=
| LStr (s : string)
| LInt (z : Z)
| LErr (e : error)
| LVal (v : option Bson).

(** The admin commands that [splitChunks] runs. *)
Inductive Command : Type :=
| enableSharding (db : string)
| shardCollection (ns : string) (key : string)
| split (ns : string) (field : string) (middle : string)
| moveChunk (ns : string) (chunkMin : bsonM) (to : string).

(** The per-node collectors started by [CollectAllStatus]. *)
Inductive CollectorTask : Type :=
| getDBStats (db : string)
| getReplSetGetStatus
| getServerStatus
| getMongoConfig
| collectMetrics.

(** A [go] statement: which function literal or method is started, with
    the arguments evaluated at the [go] statement. *)
Inductive Goroutine : Type :=
| PeekDeadline (x : Z)
| Worker (thread : Z) (simTime : Z)
| Collector (uri : string) (task : CollectorTask).

(** Reasons for a run-time panic. *)
Inductive PanicCause : Type :=
| IndexOutOfRange (index length : Z)
| InterfaceConversion
| NilDereference.

(** An observable call, with the answer it received. *)
Inductive Event : Type :=
| Log (args : list LogArg)
| FmtPrint (args : list LogArg)
| NewMongoClient (uri ca cert : string) (r : option error)
| GetClusterStatsSummary (cluster : string)
| GetShards (r : list ShardDoc * option error)
| FindOne (db coll : string) (filter : bsonM) (r : result bsonM)
| RunCommand (db : string) (cmd : Command) (r : option error)
| Find (db coll : string) (filter : bsonM) (sort : list (string * Z))
       (r : result (list (result bsonM)))
| DropCollection (db coll : string) (r : option error)
| DropDatabase (db : string) (r : option error)
| CreateOne (db coll : string) (keys : list (string * Z)) (r : option error)
| Sleep (nanoseconds : Z)
| ReadString (r : string)
| InitSimDocs
| GetTransactions (file : string) (r : TransactionDoc)
| Go (g : Goroutine)
| PopulateData (r : option error)
| Simulate (simTime : Z) (thread : Z) (r : option error)
| PrintServerStatus (uri : string) (verbose : bool) (r : string * option error)
| Marshal (r : list Byte.byte * option error)
| OutputGzipped (buf : list Byte.byte) (file : string).

(** [time.Millisecond], [time.Second], [time.Minute] in nanoseconds. *)
Definition Millisecond : Z := 1000000.
Definition Second : Z := 1000000000.
Definition Minute : Z := 60000000000.

(** ** The environment *)

(** What the cluster, the operator and the collaborating packages answer.
    Every answer may depend on the whole history of events. The package
    variable [fileTimestamp] is declared outside [sim/runner.go] and is
    part of the environment. *)
Record Env : Type := {
  fileTimestamp : string;
  newMongoClient : list Event -> string -> string -> string -> option error;
  clusterStatsSummary : list Event -> string;
  getShards : list Event -> list ShardDoc * option error;
  getAllShardURIs : list ShardDoc -> ConnString -> list string * option error;
  findOne : list Event -> string -> string -> bsonM -> result bsonM;
  runCommand : list Event -> string -> Command -> option error;
  find : list Event -> string -> string -> bsonM -> list (string * Z) ->
         result (list (result bsonM));
  dropCollection : list Event -> string -> string -> option error;
  dropDatabase : list Event -> string -> option error;
  createOne : list Event -> string -> string -> list (string * Z) -> option error;
  readString : list Event -> string;
  getTransactions : list Event -> string -> TransactionDoc;
  populateData : list Event -> option error;
  simulate : list Event -> Z -> Z -> option error;
  printServerStatus : list Event -> string -> bool -> string * option error;
  jsonMarshal : gmap string (list bsonM) -> list Byte.byte * option error
}.

(** ** Processes *)

(** How a call ends: it returns, the process exits ([os.Exit],
    [log.Fatal]), or it panics. *)
Inductive Outcome (A : Type) : Type :=
| Done (a : A)
| Exit (code : Z)
| Panicked (p : PanicCause).
Arguments Done {A} a.
Arguments Exit {A} code.
Arguments Panicked {A} p.

(** A process reads the history and yields the events it adds and its
    outcome. *)
Definition Proc (A : Type) : Type := list Event -> list Event * Outcome A.

Definition ret {A : Type} (a : A) : Proc A := fun _ => ([], Done a).

Definition bind {A B : Type} (m : Proc A) (k : A -> Proc B) : Proc B :=
  fun h =>
    match m h with
    | (es, Done a) => let (es', o) := k a (h ++ es) in (es ++ es', o)
    | (es, Exit c) => (es, Exit c)
    | (es, Panicked p) => (es, Panicked p)
    end.

Declare Scope proc_scope.
Delimit Scope proc_scope with proc.
Notation "x <- m ;; k" := (bind m (fun x => k))
  (at level 100, m at next level, right associativity) : proc_scope.
Notation "m ;; k" := (bind m (fun _ => k))
  (at level 100, right associativity) : proc_scope.
Open Scope proc_scope.

(** An event whose answer is read from the environment. *)
Definition ask {A : Type} (answer : list Event -> A) (ev : A -> Event) : Proc A :=
  fun h => let a := answer h in ([ev a], Done a).

(** An event without an answer. *)
Definition emit (ev : Event) : Proc unit := fun _ => ([ev], Done tt).

Definition exit {A : Type} (code : Z) : Proc A := fun _ => ([], Exit code).
Definition panic {A : Type} (p : PanicCause) : Proc A := fun _ => ([], Panicked p).

(** [log.Fatal]: print, then [os.Exit(1)]. *)
Definition logFatal {A : Type} (args : list LogArg) : Proc A :=
  emit (Log args) ;; exit 1.

(** [if err != nil { log.Println(err) }] *)
Definition logIfErr (e : option error) : Proc unit :=
  match e with
  | Some msg => emit (Log [LErr msg])
  | None => ret tt
  end.

(** [if err = m; err != nil { return err }], then the rest. *)
Definition orReturn (m : Proc (option error)) (k : Proc (option error))
  : Proc (option error) :=
  e <- m ;;
  match e with
  | Some msg => ret (Some msg)
  | None => k
  end.

(** [v.(string)] on a map entry: panics unless the entry is a string. *)
Definition assertString (v : option Bson) : Proc string :=
  match v with
  | Some (BStr s) => ret s
  | _ => panic InterfaceConversion
  end.

(** [v.(bson.M)] on a map entry. *)
Definition assertDoc (v : option Bson) : Proc bsonM :=
  match v with
  | Some (BDoc d) => ret d
  | _ => panic InterfaceConversion
  end.

(** [s[i]]: panics when [i] is out of range. *)
Definition index {A : Type} (s : list A) (i : Z) : Proc A :=
  if decide (0 <= i < len s) then
    match s !! Z.to_nat i with
    | Some a => ret a
    | None => panic (IndexOutOfRange i (len s))
    end
  else panic (IndexOutOfRange i (len s)).

(** ** The methods of [Runner] *)

(** [strings.Replace(text, "\n", "", -1)] *)
Fixpoint removeNewlines (s : string) : string :=
  match s with
  | EmptyString => EmptyString
  | String c rest =>
      if Ascii.eqb c "010"%char then removeNewlines rest
      else String c (removeNewlines rest)
  end.

(** The 26 letters [shardKeys] of [splitChunks]. *)
Definition shardKeys : list string :=
  ["A"; "B"; "C"; "D"; "E"; "F"; "G"; "H"; "I"; "J"; "K"; "L"; "M";
   "N"; "O"; "P"; "Q"; "R"; "S"; "T"; "U"; "V"; "W"; "X"; "Y"; "Z"].

(** The sign of an index field, as [createIndexes] reads it:
    [-1] for a negative [int] or [float64], [1] otherwise. *)
Definition indexDirection (v : Bson) : Z :=
  match v with
  | BInt z => if z <? 0 then -1 else 1
  | BDouble num _ => if num <? 0 then -1 else 1
  | _ => 1
  end.

Section Methods.

Context (env : Env).

(** [rn.client.Database(...)]: a [nil] client panics on its first use. *)
Definition useClient (rn : Runner) : Proc unit :=
  match client rn with
  | Some _ => ret tt
  | None => panic NilDereference
  end.

(** The driver calls made through [rn.client]. *)
Definition dbFindOne (rn : Runner) (db coll : string) (filter : bsonM) : Proc (result bsonM) :=
  useClient rn ;;
  ask (fun h => findOne env h db coll filter) (FindOne db coll filter).

Definition dbFind (rn : Runner) (db coll : string) (filter : bsonM) (sort : list (string * Z))
  : Proc (result (list (result bsonM))) :=
  useClient rn ;;
  ask (fun h => find env h db coll filter sort) (Find db coll filter sort).

Definition dbRunCommand (rn : Runner) (db : string) (cmd : Command) : Proc (option error) :=
  useClient rn ;;
  ask (fun h => runCommand env h db cmd) (RunCommand db cmd).

Definition dbDropCollection (rn : Runner) (db coll : string) : Proc (option error) :=
  useClient rn ;;
  ask (fun h => dropCollection env h db coll) (DropCollection db coll).

Definition dbDropDatabase (rn : Runner) (db : string) : Proc (option error) :=
  useClient rn ;;
  ask (fun h => dropDatabase env h db) (DropDatabase db).

Definition dbCreateOne (rn : Runner) (keys : list (string * Z)) : Proc (option error) :=
  ask (fun h => createOne env h (dbName rn) (collectionName rn) keys)
      (CreateOne (dbName rn) (collectionName rn) keys).

(** *** Cleanup (lines 323-344) *)

Definition Cleanup (rn : Runner) : Proc (option error) :=
  if peek rn then ret None
  else
    err <- (if negb (simOnly rn) && String.eqb (dbName rn) mdb.KeyholeDB then
              (if String.eqb (collectionName rn) mdb.ExamplesCollection then
                 emit (Log [LStr "dropping collection"; LStr mdb.KeyholeDB;
                            LStr mdb.ExamplesCollection]) ;;
                 e <- dbDropCollection rn mdb.KeyholeDB mdb.ExamplesCollection ;;
                 logIfErr e
               else ret tt) ;;
              emit (Log [LStr "dropping temp database"; LStr mdb.KeyholeDB]) ;;
              e <- dbDropDatabase rn (dbName rn) ;;
              logIfErr e ;;
              ret e
            else ret None) ;;
    emit (Sleep Second) ;;
    ret err.

(** *** terminate (lines 200-231) *)

(** The loop over [rn.uriList]: one final server status per URI. *)
Fixpoint collectFinalStatus (rn : Runner) (uris : list string) (filenames : list string)
  : Proc (list string) :=
  match uris with
  | [] => ret filenames
  | u :: rest =>
      e <- ask (fun h => newMongoClient env h u (SSLCaFile (connString rn))
                           (SSLClientCertificateKeyFile (connString rn)))
               (NewMongoClient u (SSLCaFile (connString rn))
                           (SSLClientCertificateKeyFile (connString rn))) ;;
      match e with
      | Some msg => emit (Log [LErr msg]) ;; collectFinalStatus rn rest filenames
      | None =>
          r <- ask (fun h => printServerStatus env h u (verbose rn))
                   (PrintServerStatus u (verbose rn)) ;;
          match r with
          | (_, Some msg) => emit (Log [LErr msg]) ;; collectFinalStatus rn rest filenames
          | (name, None) => collectFinalStatus rn rest (filenames ++ [name])
          end
      end
  end.

Fixpoint logFilenames (filenames : list string) : Proc unit :=
  match filenames with
  | [] => ret tt
  | name :: rest => emit (Log [LStr "stats written to"; LStr name]) ;; logFilenames rest
  end.

(** The name of the metrics file. *)
Definition perfFilename : string := "keyhole_perf." +:+ fileTimestamp env +:+ ".bson.gz".

Definition terminate (rn : Runner) : Proc Empty_set :=
  Cleanup rn ;;
  filenames <- collectFinalStatus rn (uriList rn) [] ;;
  logFilenames filenames ;;
  r <- ask (fun _ => jsonMarshal env (metrics rn)) Marshal ;;
  (match snd r with
   | Some msg => emit (Log [LStr "marshal error:"; LErr msg])
   | None => ret tt
   end) ;;
  emit (OutputGzipped (fst r) perfFilename) ;;
  emit (Log [LStr "optime written to"; LStr perfFilename]) ;;
  exit 0.


(** *** splitChunks (lines 346-421) *)

(** Lines 370-380: the shards other than the primary. *)
Fixpoint nonPrimaryShards (primary : string) (items : list (result bsonM))
    (shards : list bsonM) : Proc (list bsonM) :=
  match items with
  | [] => ret shards
  | Err msg :: rest => emit (Log [LErr msg]) ;; nonPrimaryShards primary rest shards
  | Ok v :: rest =>
      id <- assertString (v !! "_id") ;;
      if String.eqb primary id then nonPrimaryShards primary rest shards
      else nonPrimaryShards primary rest (shards ++ [v])
  end.

(** Line 383: [divider := 1 + len(shardKeys)/(len(shards)+1)]. *)
Definition divider (shards : list bsonM) : Z :=
  GoInt.add 1 (GoInt.quot (len shardKeys) (GoInt.add (len shards) 1)).

(** The indexes visited by [for i := range s]. *)
Definition indices {A : Type} (s : list A) : list Z :=
  map Z.of_nat (seq 0 (length s)).

(** Line 385: the index of the split boundary of shard [i]. *)
Definition boundary (d i : Z) : Z := GoInt.mul (GoInt.add i 1) d.

(** Lines 384-389: one split per non-primary shard. *)
Fixpoint splitLoop (rn : Runner) (ns : string) (d : Z) (ixs : list Z)
  : Proc (option error) :=
  match ixs with
  | [] => ret None
  | i :: rest =>
      key <- index shardKeys (boundary d i) ;;
      orReturn (dbRunCommand rn "admin" (split ns "email" key))
               (splitLoop rn ns d rest)
  end.

(** Lines 398-418: the walk over the chunks; [i] is the fill pointer. *)
Fixpoint moveLoop (rn : Runner) (ns : string) (shards : list bsonM)
    (chunks : list (result bsonM)) (i : Z) : Proc unit :=
  match chunks with
  | [] => ret tt
  | Err _ :: rest => moveLoop rn ns shards rest i
  | Ok v :: rest =>
      owner <- assertString (v !! "shard") ;;
      target <- index shards i ;;
      targetID <- assertString (target !! "_id") ;;
      if String.eqb owner targetID then moveLoop rn ns shards rest (GoInt.add i 1)
      else
        chunkMin <- assertDoc (v !! "min") ;;
        emit (Log [LStr "moving %v from %v to %v"; LVal (v !! "min");
                   LVal (v !! "shard"); LVal (target !! "_id")]) ;;
        e <- dbRunCommand rn "admin" (moveChunk ns chunkMin targetID) ;;
        match e with
        | Some msg => logFatal [LErr msg]
        | None =>
            if GoInt.add i 1 =? len shards then ret tt
            else moveLoop rn ns shards rest (GoInt.add i 1)
        end
  end.

(** The namespace [rn.dbName + "." + rn.collectionName]. *)
Definition namespace (rn : Runner) : string := dbName rn +:+ "." +:+ collectionName rn.

Definition splitChunks (rn : Runner) : Proc (option error) :=
  let ns := namespace rn in
  r <- dbFindOne rn "config" "databases" {[ "_id" := BStr (dbName rn) ]} ;;
  match r with
  | Err msg => ret (Some msg)
  | Ok result =>
      primary <- assertString (result !! "primary") ;;
      emit (Log [LStr "Sharding collection:"; LStr ns]) ;;
      orReturn (dbRunCommand rn "admin" (enableSharding (dbName rn))) (
      orReturn (dbRunCommand rn "admin" (shardCollection ns "email")) (
        emit (Log [LStr "splitting chunks..."]) ;;
        c <- dbFind rn "config" "shards" ∅ [] ;;
        match c with
        | Err msg => ret (Some msg)
        | Ok items =>
            shards <- nonPrimaryShards primary items [] ;;
            orReturn (splitLoop rn ns (divider shards) (indices shards)) (
              emit (Log [LStr "moving chunks..."]) ;;
              c <- dbFind rn "config" "chunks" {[ "ns" := BStr ns ]} [("_id", -1)] ;;
              match c with
              | Err msg => ret (Some msg)
              | Ok chunks =>
                  moveLoop rn ns shards chunks 0 ;;
                  emit (Sleep (GoInt.mul 1 Second)) ;;
                  ret None
              end)
        end))
  end.

(** *** createIndexes (lines 272-320) *)

(** Lines 294-317: one index per template document; [err] is the value of
    the variable [err] when the loop is reached. *)
Fixpoint createTemplateIndexes (rn : Runner) (docs : list (list (string * Bson)))
    (err : option error) : Proc (option error) :=
  match docs with
  | [] => ret err
  | doc :: rest =>
      orReturn (dbCreateOne rn (map (fun kv => (fst kv, indexDirection (snd kv))) doc))
               (createTemplateIndexes rn rest None)
  end.

Definition createIndexes (rn : Runner) (docs : list (list (string * Bson)))
  : Proc (option error) :=
  useClient rn ;;
  orReturn (dbCreateOne rn [("_search", 1)]) (
    if len docs =? 0 then
      orReturn (dbCreateOne rn [("email", 1)]) (
        err <- (if String.eqb (clusterType rn) mdb.Sharded then
                  e <- splitChunks rn ;;
                  match e with
                  | Some msg => emit (FmtPrint [LErr msg]) ;; ret e
                  | None => ret e
                  end
                else ret None) ;;
        createTemplateIndexes rn docs err)
    else createTemplateIndexes rn docs None).

(** *** Start (lines 147-198) *)

(** Lines 182-195: the body of the goroutine of connection [thread]. *)
Definition worker (rn : Runner) (simTime : Z) (thread : Z) : Proc unit :=
  let simulation : Proc unit :=
    e <- ask (fun h => simulate env h simTime thread) (Simulate simTime thread) ;;
    match e with
    | Some msg => emit (Log [LStr "Thread"; LInt thread; LStr "existing with"; LErr msg])
    | None => ret tt
    end in
  if negb (simOnly rn) && (0 <? duration rn) then
    e <- ask (populateData env) PopulateData ;;
    match e with
    | Some msg => emit (Log [LStr "Thread"; LInt thread; LStr "existing with"; LErr msg])
    | None => emit (Sleep (GoInt.mul 10 Millisecond)) ;; simulation
    end
  else simulation.

(** Lines 181-196: [n] iterations of the loop are left and [i] is the loop
    variable. *)
Fixpoint spawnWorkers (simTime : Z) (n : nat) (i : Z) : Proc unit :=
  match n with
  | O => ret tt
  | S n' => emit (Go (Worker i simTime)) ;; spawnWorkers simTime n' (GoInt.add i 1)
  end.

(** Lines 176-180: the duration of the simulation step. *)
Definition schedule (rn : Runner) (tdoc : TransactionDoc) : Proc Z :=
  let simTime := duration rn in
  if negb (simOnly rn) then
    createIndexes rn (Indexes tdoc) ;;
    ret (GoInt.sub simTime 1)
  else ret simTime.

Definition Start (rn : Runner) : Proc (Runner * option error) :=
  if peek rn then ret (rn, None)
  else
    (if negb (auto rn) then
       emit (FmtPrint [LStr "Begin a load test [y/N]: "]) ;;
       text <- ask (readString env) ReadString ;;
       let text := removeNewlines text in
       if negb (String.eqb text "y") && negb (String.eqb text "Y") then exit 0
       else ret tt
     else ret tt) ;;
    emit (Log [LStr "Duration in minute(s):"; LInt (duration rn)]) ;;
    let rn := if String.eqb (dbName rn) "" || String.eqb (dbName rn) "admin"
                 || String.eqb (dbName rn) "config" || String.eqb (dbName rn) "local"
              then set_dbName mdb.KeyholeDB rn else rn in
    (if drop rn then Cleanup rn ;; ret tt else ret tt) ;;
    emit InitSimDocs ;;
    tdoc <- ask (fun h => getTransactions env h (txFilename rn)) (GetTransactions (txFilename rn)) ;;
    emit (Log [LStr "Total TPS: %d (%d tps/conn * %d conns), duration: %d (mins)";
               LInt (GoInt.mul (tps rn) (conns rn)); LInt (tps rn); LInt (conns rn);
               LInt (duration rn)]) ;;
    simTime <- schedule rn tdoc ;;
    spawnWorkers simTime (Z.to_nat (conns rn)) 0 ;;
    ret (rn, None).

(** *** The setters (lines 83-144) *)

Definition SetCollection (rn : Runner) (name : string) : Runner :=
  if negb (String.eqb name "") then set_collectionName name rn
  else set_collectionName mdb.ExamplesCollection rn.

Definition SetTPS (rn : Runner) (n : Z) : Runner := set_tps n rn.
Definition SetAutoMode (rn : Runner) (mode : bool) : Runner := set_auto mode rn.
Definition SetTemplateFilename (rn : Runner) (name : string) : Runner := set_filename name rn.
Definition SetVerbose (rn : Runner) (mode : bool) : Runner := set_verbose mode rn.
Definition SetSimulationDuration (rn : Runner) (d : Z) : Runner := set_duration d rn.
Definition SetDropFirstMode (rn : Runner) (mode : bool) : Runner := set_drop mode rn.
Definition SetNumberConnections (rn : Runner) (num : Z) : Runner := set_conns num rn.
Definition SetTransactionTemplateFilename (rn : Runner) (name : string) : Runner :=
  set_txFilename name rn.
Definition SetSimOnlyMode (rn : Runner) (mode : bool) : Runner := set_simOnly mode rn.

(** Lines 111-119. The argument [rn.duration] of the function literal is
    evaluated when the [go] statement runs. *)
Definition SetPeekingMode (rn : Runner) (mode : bool) : Proc Runner :=
  let rn := set_peek mode rn in
  (if peek rn then emit (Go (PeekDeadline (duration rn))) else ret tt) ;;
  ret rn.

(** Lines 114-117: the body of the goroutine started by [SetPeekingMode]. *)
Definition peekDeadline (rn : Runner) (x : Z) : Proc Empty_set :=
  emit (Sleep (GoInt.mul x Minute)) ;;
  terminate rn.

(** *** NewRunner (lines 52-81) *)

Definition NewRunner (cs : ConnString) : Proc (option Runner * option error) :=
  let runner :=
    {| auto := false; client := None; clusterType := ""; 
       collectionName := mdb.ExamplesCollection; conns := 0; connString := cs;
       dbName := Database cs; drop := false; duration := 0; filename := "";
       metrics := ∅; peek := false; simOnly := false; tps := 0; txFilename := "";
       uri := ""; uriList := []; verbose := false |} in
  let runner := if String.eqb (dbName runner) "" then set_dbName mdb.KeyholeDB runner
                else runner in
  e <- ask (fun h => newMongoClient env h (Original cs) (SSLCaFile cs)
                       (SSLClientCertificateKeyFile cs))
           (NewMongoClient (Original cs) (SSLCaFile cs) (SSLClientCertificateKeyFile cs)) ;;
  match e with
  | Some msg => ret (Some runner, Some msg)
  | None =>
      let runner := set_client (Some (Original cs)) runner in
      cluster <- ask (clusterStatsSummary env) GetClusterStatsSummary ;;
      let runner := set_clusterType cluster runner in
      if String.eqb (clusterType runner) "" then
        ret (None, Some ("invalid cluster type: " +:+ clusterType runner))
      else
        let runner := set_uriList [Original cs] runner in
        let finish (runner : Runner) : Proc (option Runner * option error) :=
          last <- index (uriList runner) (GoInt.sub (len (uriList runner)) 1) ;;
          ret (Some (set_uri last runner), None) in
        if String.eqb (clusterType runner) mdb.Sharded then
          r <- ask (getShards env) GetShards ;;
          match r with
          | (_, Some msg) => ret (Some runner, Some msg)
          | (shards, None) =>
              let '(uris, e) := getAllShardURIs env shards cs in
              let runner := set_uriList uris runner in
              match e with
              | Some msg => ret (Some runner, Some msg)
              | None => finish runner
              end
          end
        else finish runner
  end.

(** *** CollectAllStatus (lines 234-269) *)

(** Lines 236-252: the collectors of every node; [i] is the loop index. *)
Fixpoint startCollectors (rn : Runner) (uris : list string) (i : Z) : Proc unit :=
  match uris with
  | [] => ret tt
  | u :: rest =>
      e <- ask (fun h => newMongoClient env h u (SSLCaFile (connString rn))
                           (SSLClientCertificateKeyFile (connString rn)))
               (NewMongoClient u (SSLCaFile (connString rn))
                           (SSLClientCertificateKeyFile (connString rn))) ;;
      match e with
      | Some msg => emit (Log [LErr msg]) ;; startCollectors rn rest (GoInt.add i 1)
      | None =>
          emit (Go (Collector u (getDBStats (dbName rn)))) ;;
          emit (Go (Collector u getReplSetGetStatus)) ;;
          emit (Go (Collector u getServerStatus)) ;;
          emit (Go (Collector u getMongoConfig)) ;;
          (if i =? 0 then emit (Go (Collector u collectMetrics)) else ret tt) ;;
          startCollectors rn rest (GoInt.add i 1)
      end
  end.

End Methods.

(** *** Sequences of setter calls *)

Inductive Call : Type :=
| CallSetCollection (name : string)
| CallSetTPS (n : Z)
| CallSetAutoMode (mode : bool)
| CallSetTemplateFilename (name : string)
| CallSetVerbose (mode : bool)
| CallSetPeekingMode (mode : bool)
| CallSetSimulationDuration (d : Z)
| CallSetDropFirstMode (mode : bool)
| CallSetNumberConnections (num : Z)
| CallSetTransactionTemplateFilename (name : string)
| CallSetSimOnlyMode (mode : bool).

Definition call (rn : Runner) (c : Call) : Proc Runner :=
  match c with
  | CallSetCollection name => ret (SetCollection rn name)
  | CallSetTPS n => ret (SetTPS rn n)
  | CallSetAutoMode mode => ret (SetAutoMode rn mode)
  | CallSetTemplateFilename name => ret (SetTemplateFilename rn name)
  | CallSetVerbose mode => ret (SetVerbose rn mode)
  | CallSetPeekingMode mode => SetPeekingMode rn mode
  | CallSetSimulationDuration d => ret (SetSimulationDuration rn d)
  | CallSetDropFirstMode mode => ret (SetDropFirstMode rn mode)
  | CallSetNumberConnections num => ret (SetNumberConnections rn num)
  | CallSetTransactionTemplateFilename name => ret (SetTransactionTemplateFilename rn name)
  | CallSetSimOnlyMode mode => ret (SetSimOnlyMode rn mode)
  end.

Fixpoint calls (rn : Runner) (cs : list Call) : Proc Runner :=
  match cs with
  | [] => ret rn
  | c :: rest => rn' <- call rn c ;; calls rn' rest
  end.

(** Whether a call sets the duration. *)
Definition setsDuration (c : Call) : bool :=
  match c with
  | CallSetSimulationDuration _ => true
  | _ => false
  end.

(** ** The termination coordinator as a transition system

    [terminate] is called from three places: from the two cases of the
    [select] in the loop of [CollectAllStatus] (lines 258-268) and from the
    goroutine started by [SetPeekingMode] (lines 114-117). The goroutines
    run interleaved; a step is one statement of [terminate], one round of
    the loop, or an arrival from outside. *)

Module Coordinator.

Inductive Trigger : Type := Timer | OperatorSignal | PeekTimer.

(** The statements of [terminate] (lines 206, 207-219, 225, 228, 230). *)
Inductive TermPoint : Type := AtCleanup | AtFinalStatus | AtMarshal | AtOutput | AtExit.

Definition nextPoint (p : TermPoint) : option TermPoint :=
  match p with
  | AtCleanup => Some AtFinalStatus
  | AtFinalStatus => Some AtMarshal
  | AtMarshal => Some AtOutput
  | AtOutput => Some AtExit
  | AtExit => None
  end.

(** The goroutine in the loop of [CollectAllStatus]: at the [select], in
    the default case blocked on [<-rn.channel], in the sleep of line 267,
    or inside [terminate]. *)
Inductive MainPoint : Type :=
| AtSelect
| AtReceive
| AtSleep
| MainInTerminate (p : TermPoint).

(** The goroutine of [SetPeekingMode]: in its sleep or inside
    [terminate]. *)
Inductive PeekPoint : Type :=
| Sleeping
| PeekInTerminate (p : TermPoint).

(** The timer of line 256 fires once. *)
Inductive TimerState : Type := Armed | Fired | Drained.

Record State : Type := {
  mainAt : MainPoint;
  peekAt : option PeekPoint;
  quit : nat;
  timer : TimerState;
  exited : option Z;
  entered : list Trigger
}.

(** What may happen next: arrivals from outside and scheduling choices.
    [MainRuns pick] lets the main goroutine take a step; when both cases
    of the [select] are ready, [pick] chooses the quit case. *)
Inductive Action : Type :=
| SignalArrives
| TimerFires
| PeekTimerFires
| MessageArrives
| MainRuns (pick : bool)
| PeekRuns.

Definition enterMain (t : Trigger) (q : nat) (tm : TimerState) (s : State) : State :=
  {| mainAt := MainInTerminate AtCleanup; peekAt := peekAt s; quit := q; timer := tm;
     exited := exited s; entered := t :: entered s |}.

Definition setMain (p : MainPoint) (s : State) : State :=
  {| mainAt := p; peekAt := peekAt s; quit := quit s; timer := timer s;
     exited := exited s; entered := entered s |}.

Definition setPeek (p : PeekPoint) (s : State) : State :=
  {| mainAt := mainAt s; peekAt := Some p; quit := quit s; timer := timer s;
     exited := exited s; entered := entered s |}.

Definition setExited (c : Z) (s : State) : State :=
  {| mainAt := mainAt s; peekAt := peekAt s; quit := quit s; timer := timer s;
     exited := Some c; entered := entered s |}.

Definition step (s : State) (a : Action) : State :=
  match exited s with
  | Some _ => s
  | None =>
      match a with
      | SignalArrives =>
          if (quit s <? 2)%nat then
            {| mainAt := mainAt s; peekAt := peekAt s; quit := S (quit s);
               timer := timer s; exited := exited s; entered := entered s |}
          else s
      | TimerFires =>
          match timer s with
          | Armed =>
              {| mainAt := mainAt s; peekAt := peekAt s; quit := quit s;
                 timer := Fired; exited := exited s; entered := entered s |}
          | _ => s
          end
      | PeekTimerFires =>
          match peekAt s with
          | Some Sleeping =>
              {| mainAt := mainAt s; peekAt := Some (PeekInTerminate AtCleanup);
                 quit := quit s; timer := timer s; exited := exited s;
                 entered := PeekTimer :: entered s |}
          | _ => s
          end
      | MessageArrives =>
          match mainAt s with
          | AtReceive => setMain AtSleep s
          | _ => s
          end
      | MainRuns pick =>
          match mainAt s with
          | AtSelect =>
              match quit s, timer s with
              | S q, Fired =>
                  if pick then enterMain OperatorSignal q Fired s
                  else enterMain Timer (S q) Drained s
              | S q, _ => enterMain OperatorSignal q (timer s) s
              | O, Fired => enterMain Timer O Drained s
              | O, _ => setMain AtReceive s
              end
          | AtReceive => s
          | AtSleep => setMain AtSelect s
          | MainInTerminate p =>
              match nextPoint p with
              | Some p' => setMain (MainInTerminate p') s
              | None => setExited 0 s
              end
          end
      | PeekRuns =>
          match peekAt s with
          | Some (PeekInTerminate p) =>
              match nextPoint p with
              | Some p' => setPeek (PeekInTerminate p') s
              | None => setExited 0 s
              end
          | _ => s
          end
      end
  end.

Definition run (s : State) (acts : list Action) : State := fold_left step acts s.

(** The state when the loop of [CollectAllStatus] is reached; [peekMode]
    tells whether [SetPeekingMode(true)] started its goroutine. *)
Definition init (peekMode : bool) : State :=
  {| mainAt := AtSelect; peekAt := if peekMode then Some Sleeping else None;
     quit := O; timer := Armed; exited := None; entered := [] |}.

(** The states of the specification. *)
Inductive Phase : Type := Running | ShuttingDown | Exited.

Definition phase (s : State) : Phase :=
  match exited s, entered s with
  | Some _, _ => Exited
  | None, [] => Running
  | None, _ :: _ => ShuttingDown
  end.

(** How often [terminate] was entered from the loop, and from the peek
    goroutine. *)
Definition fromLoop (t : Trigger) : bool :=
  match t with
  | PeekTimer => false
  | _ => true
  end.

Definition loopEntries (s : State) : nat := length (List.filter fromLoop (entered s)).
Definition peekEntries (s : State) : nat :=
  length (List.filter (fun t => negb (fromLoop t)) (entered s)).

(** [terminate] is running in the main goroutine exactly if it was entered
    from the loop, and likewise for the peek goroutine: a goroutine never
    leaves [terminate]. *)
Definition consistent (s : State) : Prop :=
  loopEntries s = match mainAt s with MainInTerminate _ => 1%nat | _ => 0%nat end /\
  peekEntries s = match peekAt s with Some (PeekInTerminate _) => 1%nat | _ => 0%nat end.

End Coordinator.


(** ** A family of concrete clusters, for examples *)

Module Scenario.

Definition shardDoc (id : string) : bsonM := {[ "_id" := BStr id ]}.

Definition chunkDoc (id owner lower : string) : bsonM :=
  <[ "_id" := BStr id ]> (<[ "shard" := BStr owner ]>
    {[ "min" := BDoc {[ "email" := BStr lower ]} ]}).

(** A cluster whose configuration database holds the given primary shard,
    shard list and chunk list (already sorted as the query asks), whose
    admin commands answer [commands], and where everything else succeeds. *)
Definition cluster (kind primary : string) (shards : list string)
    (chunks : list bsonM) (commands : Command -> option error) : Env :=
  {| fileTimestamp := "2020-01-01T000000";
     newMongoClient := fun _ _ _ _ => None;
     clusterStatsSummary := fun _ => kind;
     getShards := fun _ => (map (fun id => {| shardID := id; shardHost := id +:+ "/localhost:27017" |}) shards, None);
     getAllShardURIs := fun shards _ => (map (fun sh => "mongodb://" +:+ shardHost sh) shards, None);
     findOne := fun _ _ _ _ => Ok {[ "primary" := BStr primary ]};
     runCommand := fun _ _ cmd => commands cmd;
     find := fun _ _ coll _ _ =>
               if String.eqb coll "shards" then Ok (map (fun id => Ok (shardDoc id)) shards)
               else Ok (map Ok chunks);
     dropCollection := fun _ _ _ => None;
     dropDatabase := fun _ _ => None;
     createOne := fun _ _ _ _ => None;
     readString := fun _ => String "y" (String "010"%char EmptyString);
     getTransactions := fun _ _ => {| Indexes := []; Transactions := [] |};
     populateData := fun _ => None;
     simulate := fun _ _ _ => None;
     printServerStatus := fun _ u _ => (u +:+ ".json.gz", None);
     jsonMarshal := fun _ => ([], None) |}.

Definition allSucceed : Command -> option error := fun _ => None.

(** A runner as [NewRunner] leaves it on the default database. *)
Definition runner (kind : string) : Runner :=
  {| auto := true; client := Some "mongodb://localhost/"; clusterType := kind;
     collectionName := mdb.ExamplesCollection; conns := 2;
     connString := {| Original := "mongodb://localhost/"; Database := "";
                      SSLCaFile := ""; SSLClientCertificateKeyFile := "" |};
     dbName := mdb.KeyholeDB; drop := false; duration := 3; filename := "";
     metrics := ∅; peek := false; simOnly := false; tps := 20; txFilename := "";
     uri := "mongodb://localhost/"; uriList := ["mongodb://localhost/"];
     verbose := false |}.

(** A three-shard cluster in which the second shard cannot be reached and
    marshalling fails. *)
Definition unreachableShard : Env :=
  {| fileTimestamp := "2020-01-01T000000";
     newMongoClient := fun _ u _ _ => if String.eqb u "s2" then Some "unreachable" else None;
     clusterStatsSummary := fun _ => "sharded";
     getShards := fun _ => ([], None);
     getAllShardURIs := fun _ _ => ([], None);
     findOne := fun _ _ _ _ => Err "none";
     runCommand := fun _ _ _ => None;
     find := fun _ _ _ _ _ => Err "none";
     dropCollection := fun _ _ _ => None;
     dropDatabase := fun _ _ => None;
     createOne := fun _ _ _ _ => None;
     readString := fun _ => "y";
     getTransactions := fun _ _ => {| Indexes := []; Transactions := [] |};
     populateData := fun _ => None;
     simulate := fun _ _ _ => None;
     printServerStatus := fun _ u _ => (u +:+ ".json.gz", None);
     jsonMarshal := fun _ => ([], Some "json: unsupported value") |}.

(** A run that only simulates, asked to drop first. *)
Definition simulateOnlyRunner : Runner := set_simOnly true (set_drop true (runner "replica")).

(** A populating run asked to drop first. *)
Definition dropFirstRunner : Runner := set_drop true (runner "replica").

(** The entry connection of the examples. *)
Definition entry : ConnString :=
  {| Original := "mongodb://localhost/"; Database := "";
     SSLCaFile := ""; SSLClientCertificateKeyFile := "" |}.

(** A sharded cluster of four shards on which every command succeeds. *)
Definition fourShards : Env :=
  cluster "sharded" "s0" ["s0"; "s1"; "s2"; "s3"]
    [chunkDoc "c3" "s0" "V"; chunkDoc "c2" "s0" "O"; chunkDoc "c1" "s0" "H";
     chunkDoc "c0" "s0" ""] allSucceed.

(** The same cluster, refusing every split (the boundary exists already). *)
Definition splitRefused : Env :=
  cluster "sharded" "s0" ["s0"; "s1"; "s2"; "s3"]
    [chunkDoc "c3" "s0" "V"; chunkDoc "c2" "s0" "O"; chunkDoc "c1" "s0" "H";
     chunkDoc "c0" "s0" ""]
    (fun cmd => match cmd with
                | split _ _ _ => Some "split failed: boundary exists"%string
                | _ => None
                end).

(** The same cluster, refusing every chunk move. *)
Definition moveRefused : Env :=
  cluster "sharded" "s0" ["s0"; "s1"; "s2"; "s3"]
    [chunkDoc "c3" "s0" "V"; chunkDoc "c2" "s0" "O"; chunkDoc "c1" "s0" "H";
     chunkDoc "c0" "s0" ""]
    (fun cmd => match cmd with
                | moveChunk _ _ _ => Some "move failed"%string
                | _ => None
                end).

(** A cluster with seven shards besides the primary. *)
Definition eightShards : Env :=
  cluster "sharded" "s0" ["s0"; "s1"; "s2"; "s3"; "s4"; "s5"; "s6"; "s7"]
    [chunkDoc "c0" "s0" ""] allSucceed.

(** A cluster with one shard besides the primary, whose upper chunk
    already lies on that shard when the chunks are listed. *)
Definition alreadyPlaced : Env :=
  cluster "sharded" "s0" ["s0"; "s1"]
    [chunkDoc "c1" "s1" "O"; chunkDoc "c0" "s0" ""] allSucceed.

(** A runner on three shards. *)
Definition shardedRunner : Runner :=
  set_uriList ["s1"; "s2"; "s3"] (runner "sharded").

End Scenario.

(** ** Properties of processes *)

(** The events of a process and its outcome. *)
Definition events {A : Type} (m : Proc A) (h : list Event) : list Event := fst (m h).
Definition outcome {A : Type} (m : Proc A) (h : list Event) : Outcome A := snd (m h).

(** [sat m Q]: whatever the history, the events and the outcome of [m]
    satisfy [Q]. *)
Definition sat {A : Type} (m : Proc A) (Q : list Event -> Outcome A -> Prop) : Prop :=
  forall h, Q (events m h) (outcome m h).

(** What remains to be shown of the continuation [k] once the first part
    of a sequence ended with events [es1] and outcome [o1]. *)
Definition continues {A B : Type} (k : A -> Proc B)
    (Q : list Event -> Outcome B -> Prop) (es1 : list Event) (o1 : Outcome A) : Prop :=
  match o1 with
  | Done a => sat (k a) (fun es2 o2 => Q (es1 ++ es2) o2)
  | Exit c => Q es1 (Exit c)
  | Panicked p => Q es1 (Panicked p)
  end.

(** Whether a call returned. *)
Definition returned {A : Type} (o : Outcome A) : Prop :=
  match o with
  | Done _ => True
  | _ => False
  end.

(** ** Observations on a trace *)

(** The admin commands run, with their answers. *)
Definition commandOf (ev : Event) : list (Command * option error) :=
  match ev with
  | RunCommand _ cmd r => [(cmd, r)]
  | _ => []
  end.
Definition commandsOf (es : list Event) : list (Command * option error) :=
  flat_map commandOf es.

(** The goroutines started. *)
Definition goOf (ev : Event) : list Goroutine :=
  match ev with
  | Go g => [g]
  | _ => []
  end.
Definition spawned (es : list Event) : list Goroutine := flat_map goOf es.

(** The indexes created. *)
Definition indexOf (ev : Event) : list (list (string * Z)) :=
  match ev with
  | CreateOne _ _ keys _ => [keys]
  | _ => []
  end.
Definition indexesCreated (es : list Event) : list (list (string * Z)) :=
  flat_map indexOf es.

(** The errors of the split commands that failed, and of the moveChunk
    commands that failed. *)
Definition splitError (c : Command * option error) : list error :=
  match c with
  | (split _ _ _, Some msg) => [msg]
  | _ => []
  end.
Definition failedSplits (es : list Event) : list error :=
  flat_map splitError (commandsOf es).

Definition moveError (c : Command * option error) : list error :=
  match c with
  | (moveChunk _ _ _, Some msg) => [msg]
  | _ => []
  end.
Definition failedMoves (es : list Event) : list error :=
  flat_map moveError (commandsOf es).

(** The log line that follows a failed call. *)
Definition errLog (e : option error) : list Event :=
  match e with
  | Some msg => [Log [LErr msg]]
  | None => []
  end.

(** *** The shape of the traces of [terminate] *)

(** The events of the final status of one node, given the answers to the
    connection and to the status dump. *)
Definition finalStatus (rn : Runner)
    (node : string * (option error * (string * option error))) : list Event :=
  let '(u, (e, r)) := node in
  NewMongoClient u (SSLCaFile (connString rn)) (SSLClientCertificateKeyFile (connString rn)) e ::
  match e with
  | Some msg => [Log [LErr msg]]
  | None => PrintServerStatus u (verbose rn) r :: errLog (snd r)
  end.

(** The file written for a node, if its status was collected. *)
Definition statusFile (answers : option error * (string * option error)) : list string :=
  match answers with
  | (None, (name, None)) => [name]
  | _ => []
  end.

Definition statsWritten (name : string) : Event :=
  Log [LStr "stats written to"; LStr name].

(** *** The split commands *)

(** The split command of [splitChunks] for a key, answered without
    error. *)
Definition splitAt (ns key : string) : Event :=
  RunCommand "admin" (split ns "email" key) None.

(** The key of shard [i] is in range and is [key]. *)
Definition keyOf (d i : Z) (key : string) : Prop :=
  0 <= boundary d i < len shardKeys /\ shardKeys !! Z.to_nat (boundary d i) = Some key.

(** *** The outcomes of partition planning *)

(** What a trace and an outcome tell about the planning commands: no
    goroutine is started, and either no split and no move failed and the
    process did not exit, or one split failed with [e] and [splitFailed e]
    holds of the outcome, or one move failed and the process exited with
    status 1. *)
Definition planned {A : Type} (splitFailed : error -> Outcome A -> Prop)
    (es : list Event) (o : Outcome A) : Prop :=
  spawned es = [] /\
  ((failedSplits es = [] /\ failedMoves es = [] /\ forall c, o <> Exit c)
   \/ (exists e, failedSplits es = [e] /\ failedMoves es = [] /\ splitFailed e o)
   \/ (exists e, failedSplits es = [] /\ failedMoves es = [e] /\ o = Exit 1)).

(** Every split failure of the trace was printed by [createIndexes]. *)
Definition reported (es : list Event) : Prop :=
  forall e, In e (failedSplits es) -> In (FmtPrint [LErr e]) es.

(** *** Topology resolution *)

(** Modelled from the spec: [mdb.GetAllShardURIs] is defined outside
    [sim/runner.go]; the resolver "derives one connection descriptor per
    shard", so a successful call returns as many URIs as it was given
    shards. *)
Definition onePerShard (f : list ShardDoc -> ConnString -> list string * option error) : Prop :=
  forall shards cs uris, f shards cs = (uris, None) -> length uris = length shards.

(** The error of [NewRunner] on an unknown topology: no runner, and the
    message of line 69 (the cluster type appended to it is empty). *)
Definition invalidClusterType : option Runner * option error :=
  (None, Some "invalid cluster type: ").

(** *** The goroutines of [Start] *)

(** The workers started by [n] rounds of the loop of [Start] from thread
    number [i]. *)
Fixpoint workersFrom (simTime : Z) (n : nat) (i : Z) : list Goroutine :=
  match n with
  | O => []
  | S n' => Worker i simTime :: workersFrom simTime n' (GoInt.add i 1)
  end.

(** What [Start] does about failed planning commands: a failed move ends
    the process with status 1 before any worker is started; a failed split
    is the only one, no move is tried after it, it is printed, and [Start]
    returns [nil] after starting all the workers. *)
Definition verdict (rn : Runner) (es : list Event) (o : Outcome (Runner * option error))
  : Prop :=
  (failedMoves es <> [] -> o = Exit 1 /\ spawned es = []) /\
  (failedSplits es <> [] ->
     exists e rn',
       failedSplits es = [e] /\ failedMoves es = [] /\ In (FmtPrint [LErr e]) es /\
       o = Done (rn', None) /\
       spawned es = workersFrom (GoInt.sub (duration rn) 1) (Z.to_nat (conns rn)) 0).

(** The log line of a worker whose step failed. *)
Definition threadLog (thread : Z) (e : option error) : list Event :=
  match e with
  | Some msg => [Log [LStr "Thread"; LInt thread; LStr "existing with"; LErr msg]]
  | None => []
  end.

(** What a populating run of [Start] looks like: if it returns, the
    [_search] index was created during the setup, no goroutine was started
    during the setup, and then the workers [ws] were started; if it does
    not return, no goroutine was started. *)
Definition populating (ws : list Goroutine) (es : list Event)
    (o : Outcome (Runner * option error)) : Prop :=
  (returned o ->
     exists setup, es = setup ++ map Go ws /\ spawned setup = [] /\
                   In [("_search"%string, 1)] (indexesCreated setup)) /\
  (~ returned o -> spawned es = []).

(** What a simulate-only run of [Start] looks like: it returns without
    error, no index is created, no goroutine is started during the setup,
    and then the workers [ws] are started. *)
Definition simulating (ws : list Goroutine) (es : list Event)
    (o : Outcome (Runner * option error)) : Prop :=
  exists setup rn',
    es = setup ++ map Go ws /\ o = Done (rn', None) /\
    spawned setup = [] /\ indexesCreated es = [].

(** The operator confirmed the run, or no confirmation is asked. *)
Definition confirmed (env : Env) (rn : Runner) : Prop :=
  auto rn = true \/
  forall h, removeNewlines (readString env h) = "y" \/ removeNewlines (readString env h) = "Y".

(** ** What a function may do: kinds of events *)

Inductive Kind : Type :=
| KLog | KPrint | KConnect | KProbe | KShards | KFindOne | KCommand | KFind
| KDrop | KIndex | KSleep | KRead | KInit | KTemplate | KGo | KPopulate
| KSimulate | KStatus | KMarshal | KOutput.

Definition kind (ev : Event) : Kind :=
  match ev with
  | Log _ => KLog
  | FmtPrint _ => KPrint
  | NewMongoClient _ _ _ _ => KConnect
  | GetClusterStatsSummary _ => KProbe
  | GetShards _ => KShards
  | FindOne _ _ _ _ => KFindOne
  | RunCommand _ _ _ => KCommand
  | Find _ _ _ _ _ => KFind
  | DropCollection _ _ _ => KDrop
  | DropDatabase _ _ => KDrop
  | CreateOne _ _ _ _ => KIndex
  | Sleep _ => KSleep
  | ReadString _ => KRead
  | InitSimDocs => KInit
  | GetTransactions _ _ => KTemplate
  | Go _ => KGo
  | PopulateData _ => KPopulate
  | Simulate _ _ _ => KSimulate
  | PrintServerStatus _ _ _ => KStatus
  | Marshal _ => KMarshal
  | OutputGzipped _ _ => KOutput
  end.

(** [always P m]: whatever the history and the answers, every event of [m]
    satisfies [P]. *)
Definition always {A : Type} (P : Event -> Prop) (m : Proc A) : Prop :=
  sat m (fun es _ => Forall P es).

(** Every event is of one of the kinds [ks]. *)
Definition within (ks : list Kind) (ev : Event) : Prop := In (kind ev) ks.

(** A drop is a drop of the default database or of the examples collection
    in it. *)
Definition dropsOnlyDefault (ev : Event) : Prop :=
  match ev with
  | DropDatabase db _ => db = mdb.KeyholeDB
  | DropCollection db coll _ => db = mdb.KeyholeDB /\ coll = mdb.ExamplesCollection
  | _ => True
  end.

(** The databases [Start] does not run a load test on. *)
Definition reserved (db : string) : Prop :=
  db = ""%string \/ db = "admin"%string \/ db = "config"%string \/ db = "local"%string.

(** An index is created on the collection of the runner, outside the
    reserved databases; a command is run on the admin database. *)
Definition onTarget (coll : string) (ev : Event) : Prop :=
  match ev with
  | CreateOne db c _ _ => ~ reserved db /\ c = coll
  | RunCommand db _ _ => db = "admin"%string
  | _ => True
  end.

(** The environment [env] with an operator who answers [text]. *)
Definition answering (text : string) (env : Env) : Env :=
  {| fileTimestamp := fileTimestamp env;
     newMongoClient := newMongoClient env;
     clusterStatsSummary := clusterStatsSummary env;
     getShards := getShards env;
     getAllShardURIs := getAllShardURIs env;
     findOne := findOne env;
     runCommand := runCommand env;
     find := find env;
     dropCollection := dropCollection env;
     dropDatabase := dropDatabase env;
     createOne := createOne env;
     readString := fun _ => text;
     getTransactions := getTransactions env;
     populateData := populateData env;
     simulate := simulate env;
     printServerStatus := printServerStatus env;
     jsonMarshal := jsonMarshal env |}.

(** The simulation time that [Start] hands to its workers (lines 176-180). *)
Definition simTimeOf (rn : Runner) : Z :=
  if simOnly rn then duration rn else GoInt.sub (duration rn) 1.

(** If the call returned, the goroutines started are [ws]. *)
Definition startedOnReturn {A : Type} (ws : list Goroutine) (es : list Event)
    (o : Outcome A) : Prop :=
  returned o -> spawned es = ws.

(** ** Observations of chunk placement *)

(** The shards that receive a chunk: the targets of the moveChunk
    commands, in the order they were run. *)
Definition moveTarget (c : Command * option error) : list string :=
  match fst c with
  | moveChunk _ _ to => [to]
  | _ => []
  end.

Definition movedTo (es : list Event) : list string := flat_map moveTarget (commandsOf es).

(** The [_id]s of a list of shard documents, where they are strings. *)
Definition docID (v : bsonM) : list string :=
  match v !! "_id" with
  | Some (BStr id) => [id]
  | _ => []
  end.

Definition docIDs (shards : list bsonM) : list string := flat_map docID shards.

(** An event that moves no chunk to the shard [p]. *)
Definition sparing (p : string) (ev : Event) : Prop :=
  match ev with
  | RunCommand _ (moveChunk _ _ to) _ => to <> p
  | _ => True
  end.

(** The runner's lookup of its database in [config.databases], answered
    with the document [result]. *)
Definition primaryRead (rn : Runner) (result : bsonM) : Event :=
  FindOne "config" "databases" {[ "_id" := BStr (dbName rn) ]} (Ok result).

(** ** Observations of index creation *)

(** The keys of the index that [createIndexes] builds from a document of
    the template (lines 295-310). *)
Definition templateKeys (doc : list (string * Bson)) : list (string * Z) :=
  map (fun kv => (fst kv, indexDirection (snd kv))) doc.

(** The errors of the index creations that failed. *)
Definition indexError (ev : Event) : list error :=
  match ev with
  | CreateOne _ _ _ (Some msg) => [msg]
  | _ => []
  end.

Definition indexFailures (es : list Event) : list error := flat_map indexError es.

(** What a run of index creations over the list [wanted] looks like: only
    indexes are created; either all of [wanted] were created without
    failure and the call returns [nil], or a prefix of it was tried, its
    last creation failed, and that error is returned. *)
Definition indexed (wanted : list (list (string * Z))) (es : list Event)
    (o : Outcome (option error)) : Prop :=
  Forall (within [KIndex]) es /\
  ((o = Done None /\ indexesCreated es = wanted /\ indexFailures es = []) \/
   (exists e, o = Done (Some e) /\ indexesCreated es `prefix_of` wanted /\
              indexFailures es = [e])).

(** ** Observations of the collectors *)

(** The nodes whose metrics are collected: the URIs of the
    [collectMetrics] goroutines started. *)
Definition metricsOf (g : Goroutine) : list string :=
  match g with
  | Collector u collectMetrics => [u]
  | _ => []
  end.

Definition metricsCollectors (es : list Event) : list string :=
  flat_map metricsOf (spawned es).

(** The other goroutines started. *)
Definition statusOf (g : Goroutine) : list Goroutine :=
  match g with
  | Collector _ collectMetrics => []
  | _ => [g]
  end.

Definition statusCollectors (es : list Event) : list Goroutine :=
  flat_map statusOf (spawned es).

(** The nodes that were connected to. *)
Definition connectedTo (ev : Event) : list string :=
  match ev with
  | NewMongoClient u _ _ None => [u]
  | _ => []
  end.

Definition reached (es : list Event) : list string := flat_map connectedTo es.

(** The first node of the list, if the first connection was made to it
    without error. *)
Definition firstReached (uris : list string) (es : list Event) : list string :=
  match head uris, head es with
  | Some u, Some (NewMongoClient _ _ _ None) => [u]
  | _, _ => []
  end.

(** The four status collectors of a node (lines 245-248). *)
Definition collectorsOf (rn : Runner) (u : string) : list Goroutine :=
  [Collector u (getDBStats (dbName rn)); Collector u getReplSetGetStatus;
   Collector u getServerStatus; Collector u getMongoConfig].

(** ** Observations of setter calls *)

(** Whether a call starts the deadline goroutine of [SetPeekingMode]. *)
Definition startsDeadline (c : Call) : bool :=
  match c with
  | CallSetPeekingMode true => true
  | _ => false
  end.

(** The peek flag after a sequence of calls, from the flag before. *)
Definition peekAfter (b : bool) (cs : list Call) : bool :=
  fold_left (fun b c => match c with CallSetPeekingMode mode => mode | _ => b end) cs b.

(** A [go] statement that starts a deadline goroutine. *)
Definition isDeadline (ev : Event) : Prop := exists x, ev = Go (PeekDeadline x).

(** A runner that has a database and a collection to work on. *)
Definition named (rn : Runner) : Prop :=
  dbName rn <> ""%string /\ collectionName rn <> ""%string.

(** ** Phases of a trace *)

(** A trace in two phases: first only events of [P], then only events of
    [Q]. *)
Definition phased {A : Type} (P Q : Event -> Prop) (m : Proc A) : Prop :=
  sat m (fun es _ => exists pre post, es = pre ++ post /\ Forall P pre /\ Forall Q post).

(** The kinds of events of the confirmation and cleanup phase of [Start],
    and of its setup phase. *)
Definition cleanupKinds : list Kind := [KPrint; KRead; KLog; KDrop; KSleep].

Definition setupKinds : list Kind :=
  [KInit; KTemplate; KLog; KPrint; KIndex; KFindOne; KCommand; KFind; KSleep; KGo].

(** If the call returned an error, no chunk was moved. *)
Definition unmovedOnError (es : list Event) (o : Outcome (option error)) : Prop :=
  forall e, o = Done (Some e) -> movedTo es = [].

(** * The keyhole logger ([mdb/logger.go]) *)

Module logger.

Section Logger.

(** Declared outside [mdb/logger.go]: the RFC 3339 text of an instant
    ([time.Time.Format(time.RFC3339)]; an instant is given in
    nanoseconds), and the terminal colour codes of the package. *)
Context (rfc3339 : Z -> string) (codeRed codeDefault : string).

(** The logger a [*Logger] points to. *)
Record Logger : Type := {
  Collected : Z;
  Warnings : list string;
  Logs : list string;
  Params : string;
  Version : string;
  nocolor : bool
}.

Definition quote : string := String "034"%char EmptyString.
Definition newline : string := String "010"%char EmptyString.

(** Lines 24-29; [now] is the reading of the clock. *)
Definition NewLogger (now : Z) (fullVersion params : string) : Logger :=
  {| Collected := now; Warnings := [];
     Logs := [rfc3339 now +:+ " keyhole begins"];
     Params := params; Version := fullVersion; nocolor := false |}.


(** Lines 37-40. *)
Definition Add (p : Logger) (now : Z) (message : string) : Logger :=
  let str := rfc3339 now +:+ " " +:+ message in
  {| Collected := Collected p; Warnings := Warnings p; Logs := Logs p ++ [str];
     Params := Params p; Version := Version p; nocolor := nocolor p |}.

(** Lines 43-46: the warning is kept, then printed in red. *)
Definition Warn (p : Logger) (message : string) : Proc Logger :=
  let p := {| Collected := Collected p; Warnings := Warnings p ++ [message];
              Logs := Logs p; Params := Params p; Version := Version p;
              nocolor := nocolor p |} in
  emit (FmtPrint [LStr codeRed; LStr "*"; LStr message; LStr codeDefault]) ;;
  ret p.

(** Lines 49-53: the message is kept, then logged. *)
Definition Log (p : Logger) (now : Z) (message : string) : Proc Logger :=
  let str := rfc3339 now +:+ " " +:+ message in
  let p := {| Collected := Collected p; Warnings := Warnings p; Logs := Logs p ++ [str];
              Params := Params p; Version := Version p; nocolor := nocolor p |} in
  emit (Log [LStr message]) ;;
  ret p.

(** Line 60: the first line of the report. *)
Definition header (p : Logger) : string :=
  "{ keyhole: { version: " +:+ quote +:+ Version p +:+ quote +:+ ", args: "
  +:+ quote +:+ Params p +:+ quote +:+ " } }".

(** Lines 64-70: the loop over the warnings. *)
Definition warningLines (p : Logger) (strs : list string) : list string :=
  fold_left (fun strs warning =>
               if nocolor p then strs ++ [warning]
               else strs ++ [codeRed +:+ warning +:+ codeDefault])
            (Warnings p) strs.

(** Lines 56-74; the receiver may be [nil]. *)
Definition Print (p : option Logger) : string :=
  match p with
  | None => EmptyString
  | Some p =>
      let strs := [header p] in
      let strs := strs ++ Logs p in
      let strs := if 0 <? len (Warnings p) then
                    warningLines p (strs ++ [newline +:+ "Warnings:"]) ++ [EmptyString]
                  else strs in
      String.concat newline strs
  end.

End Logger.

End logger.

(** A warning as the report shows it. *)
Definition shown (codeRed codeDefault : string) (p : logger.Logger) (warning : string)
  : string :=
  if logger.nocolor p then warning else codeRed +:+ warning +:+ codeDefault.

(** The logger without its warnings. *)
Definition withoutWarnings (p : logger.Logger) : logger.Logger :=
  {| logger.Collected := logger.Collected p; logger.Warnings := [];
     logger.Logs := logger.Logs p; logger.Params := logger.Params p;
     logger.Version := logger.Version p; logger.nocolor := logger.nocolor p |}.
(** * Proofs *)

(** ** The rules of [sat] *)

Lemma proc_eta {A : Type} (m : Proc A) h : m h = (events m h, outcome m h).
Proof. unfold events, outcome. destruct (m h); reflexivity. Qed.

Lemma sat_ret {A : Type} (a : A) (Q : list Event -> Outcome A -> Prop) :
  Q [] (Done a) -> sat (ret a) Q.
Proof. intros HQ h. exact HQ. Qed.

Lemma sat_emit (ev : Event) (Q : list Event -> Outcome unit -> Prop) :
  Q [ev] (Done tt) -> sat (emit ev) Q.
Proof. intros HQ h. exact HQ. Qed.

Lemma sat_ask {A : Type} (answer : list Event -> A) (ev : A -> Event)
    (Q : list Event -> Outcome A -> Prop) :
  (forall a, Q [ev a] (Done a)) -> sat (ask answer ev) Q.
Proof. intros HQ h. apply HQ. Qed.

Lemma sat_exit {A : Type} (c : Z) (Q : list Event -> Outcome A -> Prop) :
  Q [] (Exit c) -> sat (exit c) Q.
Proof. intros HQ h. exact HQ. Qed.

Lemma sat_panic {A : Type} (p : PanicCause) (Q : list Event -> Outcome A -> Prop) :
  Q [] (Panicked p) -> sat (panic p) Q.
Proof. intros HQ h. exact HQ. Qed.

Lemma sat_mono {A : Type} (m : Proc A) (Q Q' : list Event -> Outcome A -> Prop) :
  sat m Q -> (forall es o, Q es o -> Q' es o) -> sat m Q'.
Proof. intros Hm HQ h. apply HQ, Hm. Qed.

Lemma sat_and {A : Type} (m : Proc A) (Q Q' : list Event -> Outcome A -> Prop) :
  sat m Q -> sat m Q' -> sat m (fun es o => Q es o /\ Q' es o).
Proof. intros Hm Hm' h. split; [apply Hm | apply Hm']. Qed.

Lemma sat_bind {A B : Type} (m : Proc A) (k : A -> Proc B)
    (Q : list Event -> Outcome B -> Prop) :
  sat m (continues k Q) -> sat (bind m k) Q.
Proof.
  intros Hm h. specialize (Hm h). unfold continues, events, outcome, bind in *.
  destruct (m h) as [es1 [a | c | p]]; cbn in *; try exact Hm.
  specialize (Hm (h ++ es1)). unfold events, outcome in Hm.
  destruct (k a (h ++ es1)). exact Hm.
Qed.

Lemma sat_bind_with {A B : Type} (m : Proc A) (k : A -> Proc B)
    (R : list Event -> Outcome A -> Prop) (Q : list Event -> Outcome B -> Prop) :
  sat m R -> (forall es1 o1, R es1 o1 -> continues k Q es1 o1) -> sat (bind m k) Q.
Proof. intros Hm HR. apply sat_bind. exact (sat_mono m R _ Hm HR). Qed.

Lemma sat_bind_emit {B : Type} (ev : Event) (k : unit -> Proc B)
    (Q : list Event -> Outcome B -> Prop) :
  sat (k tt) (fun es o => Q (ev :: es) o) -> sat (bind (emit ev) k) Q.
Proof. intros Hk. apply sat_bind, sat_emit. exact Hk. Qed.

Lemma sat_bind_ask {A B : Type} (answer : list Event -> A) (ev : A -> Event)
    (k : A -> Proc B) (Q : list Event -> Outcome B -> Prop) :
  (forall a, sat (k a) (fun es o => Q (ev a :: es) o)) -> sat (bind (ask answer ev) k) Q.
Proof. intros Hk. apply sat_bind, sat_ask. intros a. apply Hk. Qed.

Lemma sat_bind_ret {A B : Type} (a : A) (k : A -> Proc B)
    (Q : list Event -> Outcome B -> Prop) :
  sat (k a) Q -> sat (bind (ret a) k) Q.
Proof. intros Hk. apply sat_bind, sat_ret. exact Hk. Qed.

Lemma sat_bind_exit {A B : Type} (c : Z) (k : A -> Proc B)
    (Q : list Event -> Outcome B -> Prop) :
  Q [] (Exit c) -> sat (bind (exit c) k) Q.
Proof. intros HQ. apply sat_bind, sat_exit. exact HQ. Qed.

Lemma sat_bind_panic {A B : Type} (p : PanicCause) (k : A -> Proc B)
    (Q : list Event -> Outcome B -> Prop) :
  Q [] (Panicked p) -> sat (bind (panic p) k) Q.
Proof. intros HQ. apply sat_bind, sat_panic. exact HQ. Qed.

Lemma sat_bind_assoc {A B C : Type} (m : Proc A) (k : A -> Proc B) (k' : B -> Proc C)
    (Q : list Event -> Outcome C -> Prop) :
  sat (bind m (fun a => bind (k a) k')) Q -> sat (bind (bind m k) k') Q.
Proof.
  intros H h. specialize (H h). unfold events, outcome, bind in *.
  destruct (m h) as [es1 [a | c | p]]; cbn in *; try exact H.
  destruct (k a (h ++ es1)) as [es2 [b | c | p]]; cbn in *; try exact H.
  rewrite <- (app_assoc h es1 es2) in H.
  destruct (k' b (h ++ es1 ++ es2)) as [es3 o3]. cbn in *.
  rewrite <- app_assoc. exact H.
Qed.

(** One step of symbolic execution under [sat]. *)
Ltac sat_step :=
  lazymatch goal with
  | |- sat (bind (bind _ _) _) _ => apply sat_bind_assoc
  | |- sat (bind (emit _) _) _ => apply sat_bind_emit
  | |- sat (bind (ask _ _) _) _ => apply sat_bind_ask; intros ?
  | |- sat (bind (ret _) _) _ => apply sat_bind_ret
  | |- sat (bind (exit _) _) _ => apply sat_bind_exit
  | |- sat (bind (panic _) _) _ => apply sat_bind_panic
  | |- sat (ret _) _ => apply sat_ret
  | |- sat (emit _) _ => apply sat_emit
  | |- sat (ask _ _) _ => apply sat_ask; intros ?
  | |- sat (exit _) _ => apply sat_exit
  | |- sat (panic _) _ => apply sat_panic
  end.

(** Symbolic execution through the branches on answers. *)
Ltac sat_branch :=
  lazymatch goal with
  | |- sat (match ?x with _ => _ end) _ => destruct x eqn:?
  | |- sat (bind (match ?x with _ => _ end) _) _ => destruct x eqn:?
  | |- sat (if ?b then _ else _) _ => destruct b eqn:?
  | |- sat (bind (if ?b then _ else _) _) _ => destruct b eqn:?
  end.

Ltac sat_run := repeat (sat_step || sat_branch).

Lemma commandsOf_app es es' : commandsOf (es ++ es') = commandsOf es ++ commandsOf es'.
Proof. apply flat_map_app. Qed.
Lemma spawned_app es es' : spawned (es ++ es') = spawned es ++ spawned es'.
Proof. apply flat_map_app. Qed.
Lemma indexesCreated_app es es' :
  indexesCreated (es ++ es') = indexesCreated es ++ indexesCreated es'.
Proof. apply flat_map_app. Qed.
Lemma failedSplits_app es es' : failedSplits (es ++ es') = failedSplits es ++ failedSplits es'.
Proof. unfold failedSplits. rewrite commandsOf_app. apply flat_map_app. Qed.
Lemma failedMoves_app es es' : failedMoves (es ++ es') = failedMoves es ++ failedMoves es'.
Proof. unfold failedMoves. rewrite commandsOf_app. apply flat_map_app. Qed.


(** ** Cleanup *)

Section CleanupFacts.

Context (env : Env).

Lemma Cleanup_default_database rn c :
  peek rn = false -> simOnly rn = false -> dbName rn = mdb.KeyholeDB ->
  client rn = Some c ->
  sat (Cleanup env rn) (fun es o =>
    exists r1 r2,
      es = (if String.eqb (collectionName rn) mdb.ExamplesCollection then
              [Log [LStr "dropping collection"; LStr mdb.KeyholeDB;
                    LStr mdb.ExamplesCollection];
               DropCollection mdb.KeyholeDB mdb.ExamplesCollection r1] ++ errLog r1
            else []) ++
           [Log [LStr "dropping temp database"; LStr mdb.KeyholeDB];
            DropDatabase mdb.KeyholeDB r2] ++ errLog r2 ++
           [Sleep Second]
      /\ o = Done r2).
Proof.
  intros Hpeek Hsim Hdb Hc.
  unfold Cleanup. rewrite Hpeek, Hsim, Hdb. cbn [negb andb].
  rewrite String.eqb_refl.
  unfold dbDropCollection, dbDropDatabase, useClient, logIfErr. rewrite Hc.
  destruct (String.eqb (collectionName rn) mdb.ExamplesCollection);
    sat_run; cbn.
  all: lazymatch goal with
       | |- exists r1 r2, _ :: DropCollection _ _ ?x :: _ = _ /\ Done ?y = _ =>
           exists x, y; split; reflexivity
       | |- exists r1 r2, _ /\ Done ?y = _ =>
           exists None, y; split; reflexivity
       end.
Qed.

End CleanupFacts.

(** C9 (as amended). When dropFirst is enabled, the run is not
    simulate-only (and not in peek mode), the runner has a client and the
    target database is the default [_KEYHOLE_88800], [Cleanup] drops the
    examples collection first (only if the collection name is the default),
    then drops the database, and sleeps one second before it returns; a
    failed drop is logged and does not stop the next step. *)
Theorem Cleanup_drops_collection_then_database (env : Env) (rn : Runner) (c : string)
    (h : list Event) :
  drop rn = true -> peek rn = false -> simOnly rn = false ->
  dbName rn = "_KEYHOLE_88800"%string -> client rn = Some c ->
  exists r1 r2,
    Cleanup env rn h
    = ((if String.eqb (collectionName rn) mdb.ExamplesCollection then
          [Log [LStr "dropping collection"; LStr "_KEYHOLE_88800"; LStr mdb.ExamplesCollection];
           DropCollection "_KEYHOLE_88800" mdb.ExamplesCollection r1] ++ errLog r1
        else []) ++
       [Log [LStr "dropping temp database"; LStr "_KEYHOLE_88800"];
        DropDatabase "_KEYHOLE_88800" r2] ++ errLog r2 ++
       [Sleep 1000000000],
       Done r2).
Proof.
  intros _ Hpeek Hsim Hdb Hc.
  destruct (Cleanup_default_database env rn c Hpeek Hsim Hdb Hc h) as (r1 & r2 & Hes & Ho).
  exists r1, r2. rewrite (proc_eta (Cleanup env rn) h), Hes, Ho. reflexivity.
Qed.

Lemma Cleanup_drops_collection_then_database_witness :
  (drop Scenario.dropFirstRunner = true /\
   peek Scenario.dropFirstRunner = false /\
   simOnly Scenario.dropFirstRunner = false /\
   dbName Scenario.dropFirstRunner = "_KEYHOLE_88800"%string /\
   client Scenario.dropFirstRunner = Some "mongodb://localhost/"%string) /\
  exists r1 r2,
    Cleanup Scenario.fourShards Scenario.dropFirstRunner []
    = ([Log [LStr "dropping collection"; LStr "_KEYHOLE_88800"; LStr "examples"];
        DropCollection "_KEYHOLE_88800" "examples" r1] ++ errLog r1 ++
       [Log [LStr "dropping temp database"; LStr "_KEYHOLE_88800"];
        DropDatabase "_KEYHOLE_88800" r2] ++ errLog r2 ++
       [Sleep 1000000000],
       Done r2).
Proof.
  split; [repeat split |].
  destruct (Cleanup_drops_collection_then_database Scenario.fourShards
              Scenario.dropFirstRunner "mongodb://localhost/" []
              eq_refl eq_refl eq_refl eq_refl eq_refl) as (r1 & r2 & Heq).
  exists r1, r2. rewrite Heq. reflexivity.
Defined.

(** C9 as stated fails: with dropFirst enabled and the default database,
    a simulate-only run drops nothing; [Cleanup] only sleeps. *)
Lemma Cleanup_simulateOnly_drops_nothing :
  drop Scenario.simulateOnlyRunner = true /\
  dbName Scenario.simulateOnlyRunner = "_KEYHOLE_88800"%string /\
  collectionName Scenario.simulateOnlyRunner = mdb.ExamplesCollection /\
  Cleanup Scenario.fourShards Scenario.simulateOnlyRunner []
  = ([Sleep 1000000000], Done None).
Proof. repeat split. Qed.

(** ** Decomposing a sequence at a given history *)

Lemma bind_returned {A B : Type} (m : Proc A) (k : A -> Proc B) h a :
  outcome m h = Done a ->
  bind m k h = (events m h ++ events (k a) (h ++ events m h),
                outcome (k a) (h ++ events m h)).
Proof.
  unfold outcome, events, bind. destruct (m h) as [es o]. cbn. intros ->.
  destruct (k a (h ++ es)); reflexivity.
Qed.

Lemma events_bind {A B : Type} (m : Proc A) (k : A -> Proc B) h a :
  outcome m h = Done a ->
  events (bind m k) h = events m h ++ events (k a) (h ++ events m h).
Proof. intros H. unfold events at 1. rewrite (bind_returned m k h a H). reflexivity. Qed.

Lemma outcome_bind {A B : Type} (m : Proc A) (k : A -> Proc B) h a :
  outcome m h = Done a ->
  outcome (bind m k) h = outcome (k a) (h ++ events m h).
Proof. intros H. unfold outcome at 1. rewrite (bind_returned m k h a H). reflexivity. Qed.

(** ** terminate *)

Section TerminateFacts.

Context (env : Env).

Lemma Cleanup_returns rn :
  client rn <> None -> sat (Cleanup env rn) (fun _ o => returned o).
Proof.
  intros Hc. unfold Cleanup, dbDropCollection, dbDropDatabase, useClient, logIfErr.
  destruct (client rn) as [c |]; [| congruence].
  sat_run; exact I.
Qed.

Lemma collectFinalStatus_spec rn uris names :
  sat (collectFinalStatus env rn uris names) (fun es o =>
    exists answers,
      length answers = length uris /\
      es = flat_map (finalStatus rn) (zip uris answers) /\
      o = Done (names ++ flat_map statusFile answers)).
Proof.
  revert names. induction uris as [| u rest IH]; intros names; cbn [collectFinalStatus].
  - sat_step. exists []. rewrite app_nil_r. auto.
  - sat_step. destruct a as [msg |].
    + sat_step. eapply sat_mono; [apply IH |]. cbn beta.
      intros es o (answers & Hlen & -> & ->).
      exists ((Some msg, (""%string, None)) :: answers). cbn. auto.
    + sat_step. destruct a as [name [msg |]].
      * sat_step. eapply sat_mono; [apply IH |]. cbn beta.
        intros es o (answers & Hlen & -> & ->).
        exists ((None, (name, Some msg)) :: answers). cbn. auto.
      * eapply sat_mono; [apply IH |]. cbn beta.
        intros es o (answers & Hlen & -> & ->).
        exists ((None, (name, None)) :: answers). cbn.
        rewrite <- app_assoc. auto.
Qed.

Lemma logFilenames_spec names :
  sat (logFilenames names) (fun es o => es = map statsWritten names /\ o = Done tt).
Proof.
  induction names as [| name rest IH]; cbn [logFilenames].
  - sat_step. auto.
  - sat_step. eapply sat_mono; [apply IH |]. cbn beta.
    intros es o [-> ->]. auto.
Qed.

(** The events of [terminate] after [Cleanup], and its outcome. *)
Lemma terminate_after_Cleanup rn (cleanupResult : option error) :
  sat (filenames <- collectFinalStatus env rn (uriList rn) [] ;;
       logFilenames filenames ;;
       r <- ask (fun _ => jsonMarshal env (metrics rn)) Marshal ;;
       (match snd r with
        | Some msg => emit (Log [LStr "marshal error:"; LErr msg])
        | None => ret tt
        end) ;;
       emit (OutputGzipped (fst r) (perfFilename env)) ;;
       emit (Log [LStr "optime written to"; LStr (perfFilename env)]) ;;
       exit 0)
      (fun es (o : Outcome Empty_set) =>
         exists answers,
           length answers = length (uriList rn) /\
           es = flat_map (finalStatus rn) (zip (uriList rn) answers)
                ++ map statsWritten (flat_map statusFile answers)
                ++ Marshal (jsonMarshal env (metrics rn))
                   :: match snd (jsonMarshal env (metrics rn)) with
                      | Some msg => [Log [LStr "marshal error:"; LErr msg]]
                      | None => []
                      end
                ++ [OutputGzipped (fst (jsonMarshal env (metrics rn)))
                      ("keyhole_perf." +:+ fileTimestamp env +:+ ".bson.gz");
                    Log [LStr "optime written to";
                         LStr ("keyhole_perf." +:+ fileTimestamp env +:+ ".bson.gz")]] /\
           o = Exit 0).
Proof.
  eapply sat_bind_with; [apply collectFinalStatus_spec |].
  intros es1 o1 (answers & Hlen & -> & ->). cbn [continues app].
  eapply sat_bind_with; [apply logFilenames_spec |].
  intros es2 o2 [-> ->]. cbn [continues].
  apply sat_bind. intros h. cbn [ask events outcome fst snd continues].
  fold (perfFilename env).
  destruct (snd (jsonMarshal env (metrics rn))) as [msg |];
    sat_run; exists answers; (split; [exact Hlen |]); split; reflexivity.
Qed.

End TerminateFacts.

(** C7. On a runner with a client, [terminate] runs [Cleanup] first, then
    visits every URI of [uriList] in order (a failed connection or a failed
    status dump is logged and the next URI is visited), logs the files
    written, marshals the metrics, writes the buffer to
    [keyhole_perf.<fileTimestamp>.bson.gz] whether or not marshalling
    failed, and ends the process with status 0. *)
Theorem terminate_sequence (env : Env) (rn : Runner) (h : list Event) :
  client rn <> None ->
  exists answers,
    length answers = length (uriList rn) /\
    terminate env rn h =
      (events (Cleanup env rn) h
       ++ flat_map (finalStatus rn) (zip (uriList rn) answers)
       ++ map statsWritten (flat_map statusFile answers)
       ++ Marshal (jsonMarshal env (metrics rn))
          :: match snd (jsonMarshal env (metrics rn)) with
             | Some msg => [Log [LStr "marshal error:"; LErr msg]]
             | None => []
             end
       ++ [OutputGzipped (fst (jsonMarshal env (metrics rn)))
             ("keyhole_perf." +:+ fileTimestamp env +:+ ".bson.gz");
           Log [LStr "optime written to";
                LStr ("keyhole_perf." +:+ fileTimestamp env +:+ ".bson.gz")]],
       Exit 0).
Proof.
  intros Hc.
  pose proof (Cleanup_returns env rn Hc h) as Hret. cbn beta in Hret.
  destruct (outcome (Cleanup env rn) h) as [e | |] eqn:Hout; try contradiction.
  destruct (terminate_after_Cleanup env rn e (h ++ events (Cleanup env rn) h))
    as (answers & Hlen & Hes & Ho).
  exists answers. split; [exact Hlen |].
  unfold terminate. rewrite (bind_returned _ _ h e Hout).
  f_equal; [f_equal; exact Hes | exact Ho].
Qed.

Lemma terminate_sequence_witness :
  client Scenario.shardedRunner <> None /\
  outcome (terminate Scenario.unreachableShard Scenario.shardedRunner) [] = Exit 0.
Proof.
  split; [discriminate |].
  destruct (terminate_sequence Scenario.unreachableShard Scenario.shardedRunner [])
    as (answers & _ & Heq).
  - discriminate.
  - unfold outcome. rewrite Heq. reflexivity.
Defined.

(** ** NewRunner *)

Lemma index_spec {A : Type} (s : list A) (i : Z) :
  sat (index s i) (fun es o => es = [] /\ ((exists a, o = Done a) \/ exists p, o = Panicked p)).
Proof.
  unfold index. destruct (decide (0 <= i < len s)); [destruct (s !! Z.to_nat i) |];
    sat_step; eauto.
Qed.

Lemma eqb_false_ne (a b : string) : String.eqb a b = false -> a <> b.
Proof. intros H. apply String.eqb_neq. exact H. Qed.

Lemma eqb_true_eq (a b : string) : String.eqb a b = true -> a = b.
Proof. intros H. apply String.eqb_eq. exact H. Qed.

(** C8. [NewRunner] returns no runner and the invalid-cluster-type error
    exactly when the cluster type probed is the empty string. When it
    returns a runner without error, the cluster type is not empty; if it
    is the sharded type, the shard list was enumerated and the connection
    list has one URI per shard (for a URI derivation that yields one URI
    per shard); otherwise the connection list is the entry connection
    alone. *)
Theorem NewRunner_resolves_topology (env : Env) (cs : ConnString) (h : list Event) :
  onePerShard (getAllShardURIs env) ->
  (outcome (NewRunner env cs) h = Done invalidClusterType
   <-> In (GetClusterStatsSummary "") (events (NewRunner env cs) h)) /\
  (forall rn,
     outcome (NewRunner env cs) h = Done (Some rn, None) ->
     clusterType rn <> ""%string /\
     In (GetClusterStatsSummary (clusterType rn)) (events (NewRunner env cs) h) /\
     (clusterType rn = mdb.Sharded ->
        exists shards,
          In (GetShards (shards, None)) (events (NewRunner env cs) h) /\
          length (uriList rn) = length shards) /\
     (clusterType rn <> mdb.Sharded -> uriList rn = [Original cs])).
Proof.
  intros Hone. revert h.
  change (sat (NewRunner env cs) (fun es o =>
    (o = Done invalidClusterType <-> In (GetClusterStatsSummary "") es) /\
    (forall rn, o = Done (Some rn, None) ->
       clusterType rn <> ""%string /\
       In (GetClusterStatsSummary (clusterType rn)) es /\
       (clusterType rn = mdb.Sharded ->
          exists shards, In (GetShards (shards, None)) es /\
                         length (uriList rn) = length shards) /\
       (clusterType rn <> mdb.Sharded -> uriList rn = [Original cs])))).
  unfold NewRunner, invalidClusterType. cbn [dbName].
  match goal with |- context [set_client _ ?r] => generalize r; intros r0 end.
  sat_step. destruct a as [msg |].
  { sat_step. cbn. split; [split; [discriminate | intros [[=] | []]] | intros rn [=]]. }
  sat_step. cbn [clusterType set_clusterType set_uriList uriList].
  destruct (String.eqb a "") eqn:Hempty.
  { apply eqb_true_eq in Hempty. subst a. sat_step. cbn.
    split; [split; auto | intros rn [=]]. }
  apply eqb_false_ne in Hempty.
  destruct (String.eqb a mdb.Sharded) eqn:Hsharded.
  - apply eqb_true_eq in Hsharded.
    sat_step. destruct a0 as [shards [msg |]].
    { sat_step. cbn. split; [| intros rn [=]].
      split; [discriminate | intros [[=] | [[=] | [[=] | []]]]]. congruence. }
    destruct (getAllShardURIs env shards cs) as [uris [msg |]] eqn:Huris.
    { sat_step. cbn. split; [| intros rn [=]].
      split; [discriminate | intros [[=] | [[=] | [[=] | []]]]]. congruence. }
    apply Hone in Huris.
    eapply sat_bind_with; [apply index_spec |].
    intros es1 o1 [-> [[last ->] | [p ->]]]; cbn [continues].
    + sat_step. cbn. split.
      { split; [discriminate | intros [[=] | [[=] | [[=] | []]]]]. congruence. }
      intros rn [= <-]. cbn. repeat split; auto.
      * intros _. exists shards. auto.
      * congruence.
    + cbn. split; [| intros rn [=]].
      split; [discriminate | intros [[=] | [[=] | [[=] | []]]]]. congruence.
  - apply eqb_false_ne in Hsharded.
    eapply sat_bind_with; [apply index_spec |].
    intros es1 o1 [-> [[last ->] | [p ->]]]; cbn [continues].
    + sat_step. cbn. split.
      { split; [discriminate | intros [[=] | [[=] | []]]]. congruence. }
      intros rn [= <-]. cbn. repeat split; auto. congruence.
    + cbn. split; [| intros rn [=]].
      split; [discriminate | intros [[=] | [[=] | []]]]. congruence.
Qed.

Lemma Scenario_onePerShard kind primary shards chunks commands :
  onePerShard (getAllShardURIs (Scenario.cluster kind primary shards chunks commands)).
Proof. intros sh cs uris [= <-]. apply length_map. Qed.

Lemma NewRunner_resolves_topology_witness :
  onePerShard (getAllShardURIs Scenario.fourShards) /\
  exists rn shards,
    outcome (NewRunner Scenario.fourShards Scenario.entry) [] = Done (Some rn, None) /\
    In (GetShards (shards, None)) (events (NewRunner Scenario.fourShards Scenario.entry) []) /\
    length (uriList rn) = length shards /\
    length shards = 4%nat.
Proof.
  split; [apply Scenario_onePerShard |].
  destruct (NewRunner_resolves_topology Scenario.fourShards Scenario.entry []
              (Scenario_onePerShard _ _ _ _ _)) as [_ Hrn].
  destruct (outcome (NewRunner Scenario.fourShards Scenario.entry) [])
    as [[[rn |] [e |]] | c | p] eqn:Hout; try (vm_compute in Hout; discriminate).
  destruct (Hrn rn eq_refl) as (_ & _ & Hsharded & _).
  assert (Hkind : clusterType rn = mdb.Sharded).
  { vm_compute in Hout. injection Hout as <-. reflexivity. }
  destruct (Hsharded Hkind) as (shards & Hin & Hlen).
  exists rn, shards. repeat split; auto.
  vm_compute in Hin.
  destruct Hin as [[=] | [[=] | [Heq | []]]].
  injection Heq as <-. reflexivity.
Defined.

(** ** The setters and the peek deadline *)

Lemma NewRunner_duration (env : Env) (cs : ConnString) :
  sat (NewRunner env cs) (fun _ o => forall rn e, o = Done (Some rn, e) -> duration rn = 0).
Proof.
  unfold NewRunner. cbn [dbName].
  match goal with |- context [set_client _ ?r] => assert (Hr : duration r = 0) by
    (destruct (String.eqb (Database cs) ""); reflexivity); revert Hr; generalize r; intros r0 Hr end.
  sat_step. destruct a as [msg |].
  { sat_step. intros rn e [= <- _]. exact Hr. }
  sat_step. cbn [clusterType set_clusterType set_uriList uriList].
  destruct (String.eqb a "").
  { sat_step. intros rn e [=]. }
  destruct (String.eqb a mdb.Sharded).
  - sat_step. destruct a0 as [shards [msg |]].
    { sat_step. intros rn e [= <- _]. exact Hr. }
    destruct (getAllShardURIs env shards cs) as [uris [msg |]].
    { sat_step. intros rn e [= <- _]. exact Hr. }
    eapply sat_bind_with; [apply index_spec |].
    intros es1 o1 [-> [[last ->] | [p ->]]]; cbn [continues].
    + sat_step. intros rn e [= <- _]. exact Hr.
    + intros rn e [=].
  - eapply sat_bind_with; [apply index_spec |].
    intros es1 o1 [-> [[last ->] | [p ->]]]; cbn [continues].
    + sat_step. intros rn e [= <- _]. exact Hr.
    + intros rn e [=].
Qed.

Lemma SetPeekingMode_eq (rn : Runner) (mode : bool) h :
  SetPeekingMode rn mode h
  = ((if mode then [Go (PeekDeadline (duration rn))] else []), Done (set_peek mode rn)).
Proof. destruct mode; reflexivity. Qed.

Lemma call_returned (rn : Runner) (c : Call) h :
  exists rn', outcome (call rn c) h = Done rn' /\
              (setsDuration c = false -> duration rn' = duration rn).
Proof.
  destruct c; cbn [call setsDuration];
    try (eexists; split; [reflexivity | intros _; reflexivity]).
  - unfold SetCollection. destruct (negb (String.eqb name ""));
      (eexists; split; [reflexivity | intros _; reflexivity]).
  - unfold outcome. rewrite SetPeekingMode_eq. eexists; split; [reflexivity | reflexivity].
  - eexists; split; [reflexivity | discriminate].
Qed.

Lemma calls_returned (cs : list Call) : forall (rn : Runner) h,
  exists rn', outcome (calls rn cs) h = Done rn' /\
              (forallb (fun c => negb (setsDuration c)) cs = true -> duration rn' = duration rn).
Proof.
  induction cs as [| c rest IH]; intros rn h; cbn [calls forallb].
  - exists rn. split; [reflexivity | reflexivity].
  - destruct (call_returned rn c h) as (rn1 & Hout & Hdur).
    destruct (IH rn1 (h ++ events (call rn c) h)) as (rn2 & Hout2 & Hdur2).
    exists rn2. unfold outcome at 1. rewrite (bind_returned _ _ h rn1 Hout).
    split; [exact Hout2 |].
    intros [Hc Hrest]%andb_prop. rewrite (Hdur2 Hrest). apply Hdur.
    destruct (setsDuration c); [discriminate | reflexivity].
Qed.

Lemma calls_app (pre post : list Call) : forall (rn rn1 : Runner) h,
  outcome (calls rn pre) h = Done rn1 ->
  events (calls rn (pre ++ post)) h
  = events (calls rn pre) h ++ events (calls rn1 post) (h ++ events (calls rn pre) h).
Proof.
  induction pre as [| c rest IH]; intros rn rn1 h Hout.
  - cbn in Hout. injection Hout as <-. cbn. rewrite app_nil_r. reflexivity.
  - cbn [calls app] in *.
    destruct (call_returned rn c h) as (rn' & Hc & _).
    rewrite (outcome_bind _ _ h rn' Hc) in Hout.
    rewrite !(events_bind _ _ h rn' Hc).
    rewrite (IH rn' rn1 _ Hout).
    rewrite <- !app_assoc. reflexivity.
Qed.

(** C10. Let [rn0] be a runner returned by [NewRunner], and let
    [SetPeekingMode(true)] be called after the calls [pre] and before the
    calls [post]. The goroutine it starts receives the value that the
    duration field has after [pre], whatever [post] sets later, and sleeps
    for that many minutes before it calls [terminate]. If [pre] does not
    set the duration, that value is 0: the goroutine sleeps for 0
    nanoseconds and terminates the process at once. *)
Theorem peek_deadline_reads_duration_at_call (env : Env) (cs : ConnString)
    (h0 : list Event) (rn0 : Runner) (e : option error) (pre post : list Call)
    (h : list Event) :
  outcome (NewRunner env cs) h0 = Done (Some rn0, e) ->
  exists rn1 later,
    outcome (calls rn0 pre) h = Done rn1 /\
    events (calls rn0 (pre ++ CallSetPeekingMode true :: post)) h
    = events (calls rn0 pre) h ++ Go (PeekDeadline (duration rn1)) :: later /\
    (forall rn h',
       events (peekDeadline env rn (duration rn1)) h'
       = Sleep (GoInt.mul (duration rn1) Minute)
         :: events (terminate env rn) (h' ++ [Sleep (GoInt.mul (duration rn1) Minute)])) /\
    (forallb (fun c => negb (setsDuration c)) pre = true ->
       duration rn1 = 0 /\ GoInt.mul (duration rn1) Minute = 0).
Proof.
  intros Hnew.
  pose proof (NewRunner_duration env cs h0 rn0 e Hnew) as Hzero.
  destruct (calls_returned pre rn0 h) as (rn1 & Hout & Hdur).
  exists rn1, (events (calls (set_peek true rn1) post)
                 ((h ++ events (calls rn0 pre) h) ++ [Go (PeekDeadline (duration rn1))])).
  split; [exact Hout |]. split; [| split].
  - rewrite (calls_app pre _ rn0 rn1 h Hout).
    f_equal. cbn [calls call].
    rewrite (events_bind _ _ _ (set_peek true rn1));
      [| unfold outcome; rewrite SetPeekingMode_eq; reflexivity].
    unfold events at 1. rewrite SetPeekingMode_eq. reflexivity.
  - intros rn h'. unfold peekDeadline.
    rewrite (events_bind _ _ h' tt) by reflexivity. reflexivity.
  - intros Hpre. rewrite (Hdur Hpre), Hzero. split; reflexivity.
Qed.

Lemma peek_deadline_reads_duration_at_call_witness :
  exists rn0,
    outcome (NewRunner Scenario.fourShards Scenario.entry) [] = Done (Some rn0, None) /\
    exists later,
      events (calls rn0 ([CallSetAutoMode true] ++ CallSetPeekingMode true
                           :: [CallSetSimulationDuration 5])) []
      = Go (PeekDeadline 0) :: later.
Proof.
  destruct (outcome (NewRunner Scenario.fourShards Scenario.entry) [])
    as [[[rn0 |] [e |]] | c | p] eqn:Hout; try (vm_compute in Hout; discriminate).
  exists rn0. split; [reflexivity |].
  destruct (peek_deadline_reads_duration_at_call Scenario.fourShards Scenario.entry []
              rn0 None [CallSetAutoMode true] [CallSetSimulationDuration 5] [] Hout)
    as (rn1 & later & _ & Hev & _ & Hz).
  exists later. rewrite Hev. destruct (Hz eq_refl) as [-> _]. reflexivity.
Defined.

(** ** The termination coordinator *)

Module CoordinatorFacts.
Import Coordinator.

Lemma init_consistent peekMode : consistent (init peekMode).
Proof. destruct peekMode; split; reflexivity. Qed.

Ltac cases :=
  cbn;
  repeat (match goal with
          | |- context [match ?x with _ => _ end] => destruct x
          | |- context [if ?b then _ else _] => destruct b
          end; cbn).

Lemma step_consistent s a : consistent s -> consistent (step s a).
Proof.
  destruct s as [m p q t x en]. unfold consistent, loopEntries, peekEntries, step.
  cbn [mainAt peekAt quit timer exited entered].
  intros [Hl Hp]. destruct x as [c |]; [auto |].
  destruct a, m, p as [[| tp] |]; cases; cbn in Hl, Hp; rewrite ?Hl, ?Hp; auto.
Qed.

Lemma run_consistent acts : forall s, consistent s -> consistent (run s acts).
Proof.
  induction acts as [| a rest IH]; intros s Hs; cbn; [exact Hs |].
  apply IH, step_consistent, Hs.
Qed.

Lemma entries_split s : length (entered s) = (loopEntries s + peekEntries s)%nat.
Proof.
  unfold loopEntries, peekEntries. induction (entered s) as [| t rest IH]; [reflexivity |].
  destruct t; cbn; rewrite IH; lia.
Qed.

Lemma step_no_peek s a : peekAt s = None -> peekAt (step s a) = None.
Proof.
  destruct s as [m p q t x en]. unfold step. cbn [mainAt peekAt quit timer exited entered].
  intros ->. destruct x as [c |]; [reflexivity |].
  destruct a, m; cases; reflexivity.
Qed.

Lemma run_no_peek acts : forall s, peekAt s = None -> peekAt (run s acts) = None.
Proof.
  induction acts as [| a rest IH]; intros s Hs; cbn; [exact Hs |].
  apply IH, step_no_peek, Hs.
Qed.

Lemma step_exit_code s a : (exited s = None \/ exited s = Some 0) ->
  exited (step s a) = None \/ exited (step s a) = Some 0.
Proof.
  destruct s as [m p q t x en]. unfold step. cbn [mainAt peekAt quit timer exited entered].
  intros Hx. destruct x as [c |]; [exact Hx |].
  destruct a, m, p as [[| tp] |]; cases; auto.
Qed.

Lemma run_exit_code acts : forall s, (exited s = None \/ exited s = Some 0) ->
  exited (run s acts) = None \/ exited (run s acts) = Some 0.
Proof.
  induction acts as [| a rest IH]; intros s Hs; cbn; [exact Hs |].
  apply IH, step_exit_code, Hs.
Qed.

End CoordinatorFacts.

(** C1 (as amended). Whatever arrives and however the goroutines are
    scheduled: the loop of [CollectAllStatus] calls [terminate] at most
    once (it acts on one of its two triggers, the timer or the signal, and
    never returns from the call), the peek goroutine calls it at most once,
    and without a peek goroutine the shutdown sequence is entered at most
    once. The process exits with status 0 if at all, and once it has exited
    every later arrival or step changes nothing. *)
Theorem shutdown_entered_once_per_goroutine (peekMode : bool)
    (acts : list Coordinator.Action) :
  let s := Coordinator.run (Coordinator.init peekMode) acts in
  (Coordinator.loopEntries s <= 1)%nat /\
  (Coordinator.peekEntries s <= 1)%nat /\
  length (Coordinator.entered s)
    = (Coordinator.loopEntries s + Coordinator.peekEntries s)%nat /\
  (peekMode = false -> (length (Coordinator.entered s) <= 1)%nat) /\
  (Coordinator.exited s = None \/ Coordinator.exited s = Some 0) /\
  (forall a, Coordinator.exited s <> None -> Coordinator.step s a = s).
Proof.
  intros s.
  pose proof (CoordinatorFacts.run_consistent acts _
                (CoordinatorFacts.init_consistent peekMode)) as [Hl Hp].
  fold s in Hl, Hp.
  assert (Hl1 : (Coordinator.loopEntries s <= 1)%nat).
  { rewrite Hl. destruct (Coordinator.mainAt s); lia. }
  assert (Hp1 : (Coordinator.peekEntries s <= 1)%nat).
  { rewrite Hp. destruct (Coordinator.peekAt s) as [[| tp] |]; lia. }
  repeat split; auto.
  - apply CoordinatorFacts.entries_split.
  - intros Hmode. rewrite CoordinatorFacts.entries_split, Hp.
    assert (Hnone : Coordinator.peekAt s = None).
    { unfold s. rewrite Hmode. apply CoordinatorFacts.run_no_peek. reflexivity. }
    rewrite Hnone. lia.
  - apply CoordinatorFacts.run_exit_code. left. reflexivity.
  - intros a Hx. unfold Coordinator.step.
    destruct (Coordinator.exited s); [reflexivity | congruence].
Qed.

Lemma shutdown_entered_once_per_goroutine_witness :
  let s := Coordinator.run (Coordinator.init false)
             [Coordinator.SignalArrives; Coordinator.TimerFires; Coordinator.MainRuns true;
              Coordinator.MainRuns true; Coordinator.MainRuns true; Coordinator.MainRuns true;
              Coordinator.MainRuns true; Coordinator.MainRuns true] in
  Coordinator.exited s <> None /\
  Coordinator.entered s = [Coordinator.OperatorSignal] /\
  Coordinator.step s Coordinator.TimerFires = s /\
  (length (Coordinator.entered s) <= 1)%nat.
Proof.
  intros s.
  destruct (shutdown_entered_once_per_goroutine false
              [Coordinator.SignalArrives; Coordinator.TimerFires; Coordinator.MainRuns true;
               Coordinator.MainRuns true; Coordinator.MainRuns true; Coordinator.MainRuns true;
               Coordinator.MainRuns true; Coordinator.MainRuns true])
    as (_ & _ & _ & Hone & _ & Hnoop).
  fold s in Hone, Hnoop.
  assert (Hx : Coordinator.exited s <> None) by (vm_compute; discriminate).
  split; [exact Hx |]. split; [reflexivity |].
  split; [exact (Hnoop Coordinator.TimerFires Hx) | exact (Hone eq_refl)].
Defined.

(** C1 as stated fails: with the peek goroutine started, the timer fires,
    the loop enters [terminate], and before the process has exited the peek
    deadline passes: [terminate] is entered a second time, so the late
    trigger is acted upon. *)
Lemma shutdown_entered_twice :
  let s := Coordinator.run (Coordinator.init true)
             [Coordinator.TimerFires; Coordinator.MainRuns true] in
  Coordinator.phase s = Coordinator.ShuttingDown /\
  Coordinator.entered s = [Coordinator.Timer] /\
  Coordinator.entered (Coordinator.step s Coordinator.PeekTimerFires)
    = [Coordinator.PeekTimer; Coordinator.Timer] /\
  Coordinator.exited (Coordinator.step s Coordinator.PeekTimerFires) = None.
Proof. repeat split. Qed.

(** ** Go integers *)

Lemma wrap_small (z : Z) : GoInt.inRange z -> GoInt.wrap z = z.
Proof.
  unfold GoInt.inRange, GoInt.minInt, GoInt.maxInt, GoInt.wrap. intros [Hlo Hhi].
  rewrite Z.mod_small; lia.
Qed.

(** ** Observations of partition planning *)

Lemma spawned_cons ev es : spawned (ev :: es) = goOf ev ++ spawned es.
Proof. reflexivity. Qed.

Lemma failedSplits_cons ev es :
  failedSplits (ev :: es) = flat_map splitError (commandOf ev) ++ failedSplits es.
Proof. unfold failedSplits, commandsOf. cbn [flat_map]. apply flat_map_app. Qed.

Lemma failedMoves_cons ev es :
  failedMoves (ev :: es) = flat_map moveError (commandOf ev) ++ failedMoves es.
Proof. unfold failedMoves, commandsOf. cbn [flat_map]. apply flat_map_app. Qed.

Lemma planned_cons {A : Type} (P : error -> Outcome A -> Prop) ev es o :
  goOf ev = [] ->
  flat_map splitError (commandOf ev) = [] ->
  flat_map moveError (commandOf ev) = [] ->
  planned P es o -> planned P (ev :: es) o.
Proof.
  intros Hg Hs Hm. unfold planned.
  rewrite spawned_cons, failedSplits_cons, failedMoves_cons, Hg, Hs, Hm. cbn [app]. auto.
Qed.

Lemma planned_app {A : Type} (P : error -> Outcome A -> Prop) es1 es2 o :
  spawned es1 = [] -> failedSplits es1 = [] -> failedMoves es1 = [] ->
  planned P es2 o -> planned P (es1 ++ es2) o.
Proof.
  intros Hg Hs Hm. unfold planned.
  rewrite spawned_app, failedSplits_app, failedMoves_app, Hg, Hs, Hm. cbn [app]. auto.
Qed.

Lemma planned_clean {A : Type} (P : error -> Outcome A -> Prop) (o : Outcome A) :
  (forall c, o <> Exit c) -> planned P [] o.
Proof. intros Ho. split; [reflexivity |]. left. auto. Qed.

Lemma planned_weaken {A B : Type} (P : error -> Outcome A -> Prop)
    (P' : error -> Outcome B -> Prop) es (o : Outcome A) (o' : Outcome B) :
  planned P es o ->
  ((forall c, o <> Exit c) -> forall c, o' <> Exit c) ->
  (forall e, P e o -> P' e o') ->
  (o = Exit 1 -> o' = Exit 1) ->
  planned P' es o'.
Proof.
  intros [Hg H] Hclean Hsplit Hmove. split; [exact Hg |].
  destruct H as [(Hs & Hm & Ho) | [(e & Hs & Hm & Ho) | (e & Hs & Hm & Ho)]].
  - left. auto.
  - right. left. exists e. auto.
  - right. right. exists e. auto.
Qed.

Lemma planned_returned_clean {A : Type} es (a : A) :
  planned (fun (_ : error) (_ : Outcome A) => False) es (Done a) ->
  spawned es = [] /\ failedSplits es = [] /\ failedMoves es = [].
Proof.
  intros [Hg [(Hs & Hm & _) | [(e & _ & _ & []) | (e & _ & _ & [=])]]]. auto.
Qed.

(** Sequencing after a block in which no split can fail. *)
Lemma sat_bind_planned {A B : Type} (m : Proc A) (k : A -> Proc B)
    (P : error -> Outcome B -> Prop) :
  sat m (planned (fun (_ : error) (_ : Outcome A) => False)) ->
  (forall a, sat (k a) (planned P)) ->
  sat (bind m k) (planned P).
Proof.
  intros Hm Hk. eapply sat_bind_with; [exact Hm |].
  intros es1 [a | c | p] H; cbn [continues].
  - destruct (planned_returned_clean es1 a H) as (Hg & Hs & Hmv).
    eapply sat_mono; [apply Hk |]. cbn beta. intros es o Hp.
    apply planned_app; assumption.
  - destruct H as [Hg [(_ & _ & Hne) | [(e & _ & _ & []) | (e & Hs & Hmv & [= ->])]]].
    + destruct (Hne c eq_refl).
    + split; [exact Hg |]. right. right. exists e. auto.
  - destruct H as [Hg [(Hs & Hmv & _) | [(e & _ & _ & []) | (e & _ & _ & [=])]]].
    split; [exact Hg |]. left. repeat split; auto.
Qed.

(** Sequencing after a block that returns the error of a failed split. *)
Lemma sat_orReturn_planned (m k : Proc (option error)) :
  sat m (planned (fun e o => o = Done (Some e))) ->
  sat k (planned (fun e o => o = Done (Some e))) ->
  sat (orReturn m k) (planned (fun e o => o = Done (Some e))).
Proof.
  intros Hm Hk. unfold orReturn. eapply sat_bind_with; [exact Hm |].
  intros es1 [[msg |] | c | p] H; cbn [continues].
  - sat_step. rewrite app_nil_r. exact H.
  - destruct H as [Hg [(Hs & Hmv & _) | [(e & _ & _ & [=]) | (e & _ & _ & [=])]]].
    eapply sat_mono; [apply Hk |]. cbn beta. intros es o Hp.
    apply planned_app; assumption.
  - exact H.
  - exact H.
Qed.

(** Discharging the side conditions of [planned_cons] on a given event. *)
Ltac planned_quiet :=
  repeat (apply planned_cons; [reflexivity | reflexivity | reflexivity |]).

Section PlanningFacts.

Context (env : Env).

Lemma splitLoop_planned rn ns d ixs :
  sat (splitLoop env rn ns d ixs) (planned (fun e o => o = Done (Some e))).
Proof.
  induction ixs as [| i rest IH]; cbn [splitLoop].
  - sat_step. apply planned_clean. discriminate.
  - unfold index, orReturn, dbRunCommand, useClient.
    destruct (decide (0 <= boundary d i < len shardKeys)) as [Hin | Hout];
      [destruct (shardKeys !! Z.to_nat (boundary d i)) as [key |] |];
      try (sat_step; apply planned_clean; discriminate).
    sat_step. destruct (client rn); [| sat_run; apply planned_clean; discriminate].
    sat_step. sat_step. sat_step. destruct a as [msg |].
    + sat_step. split; [reflexivity |]. right. left. exists msg. auto.
    + eapply sat_mono; [apply IH |]. cbn beta. intros es o H.
      apply planned_cons; auto.
Qed.

Lemma moveLoop_planned rn ns shards chunks :
  forall i, sat (moveLoop env rn ns shards chunks i)
              (planned (fun (_ : error) (_ : Outcome unit) => False)).
Proof.
  induction chunks as [| [v | msg] rest IH]; intros i; cbn [moveLoop].
  - sat_step. apply planned_clean. discriminate.
  - unfold assertString, assertDoc, index, dbRunCommand, useClient, logFatal.
    sat_run.
    all: first
      [ eapply sat_mono; [apply IH |]; cbn beta; intros; planned_quiet; assumption
      | planned_quiet; apply planned_clean; discriminate
      | split; [reflexivity |]; right; right; eexists; repeat split; reflexivity ].
  - apply IH.
Qed.

Lemma nonPrimaryShards_planned primary items :
  forall shards, sat (nonPrimaryShards primary items shards)
                   (planned (fun (_ : error) (_ : Outcome (list bsonM)) => False)).
Proof.
  induction items as [| [v | msg] rest IH]; intros shards; cbn [nonPrimaryShards].
  - sat_step. apply planned_clean; discriminate.
  - unfold assertString. sat_run.
    all: first [ apply IH | apply planned_clean; discriminate ].
  - sat_step. eapply sat_mono; [apply IH |]. cbn beta. intros es o H.
    planned_quiet; exact H.
Qed.

(** Dropping the events already passed from the goal. *)
Ltac strip :=
  lazymatch goal with
  | |- sat _ (fun es o => planned _ (_ :: es) o) =>
      eapply (sat_mono _ (planned _));
      [| cbn beta; intros ? ? ?; planned_quiet; eassumption]
  end.

Ltac planned_leaf :=
  lazymatch goal with
  | |- planned _ _ _ => planned_quiet; apply planned_clean; discriminate
  end.

Lemma splitChunks_planned rn :
  sat (splitChunks env rn) (planned (fun e o => o = Done (Some e))).
Proof.
  unfold splitChunks, dbFindOne, dbFind, dbRunCommand, useClient, assertString.
  repeat first
    [ planned_leaf
    | sat_step; try strip
    | sat_branch
    | apply sat_orReturn_planned
    | apply splitLoop_planned
    | apply sat_bind_planned;
      [ first [apply nonPrimaryShards_planned | apply moveLoop_planned] | intros ? ] ].
Qed.

Lemma createTemplateIndexes_planned rn docs :
  forall err, sat (createTemplateIndexes env rn docs err)
                (planned (fun (_ : error) (_ : Outcome (option error)) => False)).
Proof.
  induction docs as [| doc rest IH]; intros err; cbn [createTemplateIndexes].
  - sat_step. apply planned_clean; discriminate.
  - unfold orReturn, dbCreateOne. sat_run.
    + planned_leaf.
    + strip. apply IH.
Qed.

Lemma planned_no_split {A : Type} (P : error -> Outcome A -> Prop) es o :
  planned (fun (_ : error) (_ : Outcome A) => False) es o -> planned P es o.
Proof.
  intros [Hg H]. split; [exact Hg |].
  destruct H as [H | [(e & _ & _ & []) | H]]; auto.
Qed.

Lemma len_cons_nonzero {A : Type} (x : A) (l : list A) : (len (x :: l) =? 0) = false.
Proof. unfold len. cbn [length]. apply Z.eqb_neq. lia. Qed.

(** [createIndexes] returns the error of a failed split after printing
    it. *)
Lemma createIndexes_planned rn docs :
  sat (createIndexes env rn docs)
      (fun es o => planned (fun e o => o = Done (Some e)) es o /\ reported es).
Proof.
  unfold createIndexes, dbCreateOne, useClient.
  assert (Hquiet : forall es (o : Outcome (option error)),
             planned (fun (_ : error) (_ : Outcome (option error)) => False) es o ->
             planned (fun e o => o = Done (Some e)) es o /\ reported es).
  { intros es o H. split; [apply planned_no_split, H |].
    destruct H as [_ [(Hs & _) | [(e & _ & _ & []) | (e & Hs & _)]]];
      intros e' He'; rewrite Hs in He'; destruct He'. }
  destruct (client rn); [| sat_run; apply Hquiet; apply planned_clean; discriminate].
  sat_step. unfold orReturn at 1. sat_step. destruct a as [msg |].
  { sat_step. apply Hquiet. planned_leaf. }
  destruct docs as [| doc rest].
  - change (len [] =? 0) with true. cbn iota. unfold orReturn at 1.
    sat_step. destruct a as [msg |].
    { sat_step. apply Hquiet. planned_leaf. }
    cbn [createTemplateIndexes].
    destruct (String.eqb (clusterType rn) mdb.Sharded).
    + apply sat_bind_assoc.
      eapply sat_bind_with; [apply splitChunks_planned |].
      intros es1 o1 H.
      assert (Hpre : forall es' (o' : Outcome (option error)),
                 planned (fun e o => o = Done (Some e)) es' o' /\ reported es' ->
                 planned (fun e o => o = Done (Some e))
                   (CreateOne (dbName rn) (collectionName rn) [("_search"%string, 1)] None
                    :: CreateOne (dbName rn) (collectionName rn) [("email"%string, 1)] None
                    :: es') o' /\
                 reported (CreateOne (dbName rn) (collectionName rn) [("_search"%string, 1)] None
                    :: CreateOne (dbName rn) (collectionName rn) [("email"%string, 1)] None
                    :: es')).
      { intros es' o' [Hp Hr]. split; [planned_quiet; exact Hp |].
        intros e He. right. right. apply Hr.
        rewrite !failedSplits_cons in He. exact He. }
      destruct H as [Hg H].
      destruct o1 as [[msg |] | c | p]; cbn [continues].
      * sat_run. apply Hpre.
        destruct H as [(Hs & Hm & _) | [(e & Hs & Hm & [= ->]) | (e & _ & _ & [=])]].
        -- split.
           ++ split; [rewrite spawned_app, Hg; reflexivity |]. left.
              rewrite failedSplits_app, failedMoves_app, Hs, Hm. repeat split; discriminate.
           ++ intros e He. rewrite failedSplits_app, Hs in He. destruct He.
        -- split.
           ++ split; [rewrite spawned_app, Hg; reflexivity |]. right. left. exists e.
              rewrite failedSplits_app, failedMoves_app, Hs, Hm. repeat split.
           ++ intros e' He. rewrite failedSplits_app, Hs in He.
              destruct He as [<- | []]. apply in_or_app. right. left. reflexivity.
      * sat_run. apply Hpre. rewrite app_nil_r.
        destruct H as [(Hs & Hm & Ho) | [(e & _ & _ & [=]) | (e & _ & _ & [=])]].
        split.
        -- split; [exact Hg |]. left. repeat split; auto.
        -- intros e He. rewrite Hs in He. destruct He.
      * apply Hpre.
        destruct H as [(Hs & Hm & Ho) | [(e & _ & _ & [=]) | (e & Hs & Hm & Ho)]].
        -- destruct (Ho c eq_refl).
        -- split.
           ++ split; [exact Hg |]. right. right. exists e. auto.
           ++ intros e' He. rewrite Hs in He. destruct He.
      * apply Hpre.
        destruct H as [(Hs & Hm & Ho) | [(e & _ & _ & [=]) | (e & _ & _ & [=])]].
        split.
        -- split; [exact Hg |]. left. repeat split; auto.
        -- intros e He. rewrite Hs in He. destruct He.
    + sat_run. apply Hquiet. planned_leaf.
  - rewrite len_cons_nonzero.
    eapply sat_mono; [apply createTemplateIndexes_planned |]. cbn beta.
    intros es o H. apply Hquiet. planned_quiet. exact H.
Qed.

Lemma Cleanup_planned rn :
  sat (Cleanup env rn) (planned (fun (_ : error) (_ : Outcome (option error)) => False)).
Proof.
  unfold Cleanup, dbDropCollection, dbDropDatabase, useClient, logIfErr.
  sat_run; planned_leaf.
Qed.

Lemma spawnWorkers_spec simTime n :
  forall i, sat (spawnWorkers simTime n i)
              (fun es o => es = map Go (workersFrom simTime n i) /\ o = Done tt).
Proof.
  induction n as [| n IH]; intros i; cbn [spawnWorkers workersFrom map].
  - sat_step. auto.
  - sat_step. eapply sat_mono; [apply IH |]. cbn beta. intros es o [-> ->]. auto.
Qed.

Lemma spawned_Go gs : spawned (map Go gs) = gs.
Proof. induction gs as [| g rest IH]; [reflexivity |]. cbn. f_equal. exact IH. Qed.

Lemma failedSplits_Go gs : failedSplits (map Go gs) = [].
Proof. induction gs as [| g rest IH]; [reflexivity |]. exact IH. Qed.

Lemma failedMoves_Go gs : failedMoves (map Go gs) = [].
Proof. induction gs as [| g rest IH]; [reflexivity |]. exact IH. Qed.

Lemma verdict_cons rn ev es o :
  goOf ev = [] -> commandOf ev = [] -> verdict rn es o -> verdict rn (ev :: es) o.
Proof.
  intros Hg Hc. unfold verdict.
  rewrite spawned_cons, failedSplits_cons, failedMoves_cons, Hg, Hc. cbn [flat_map app].
  intros [Hm Hs]. split; [exact Hm |].
  intros Hne. destruct (Hs Hne) as (e & rn' & H1 & H2 & H3 & H4 & H5).
  exists e, rn'. repeat split; auto. right. exact H3.
Qed.

Lemma verdict_app rn es1 es2 o :
  spawned es1 = [] -> failedSplits es1 = [] -> failedMoves es1 = [] ->
  verdict rn es2 o -> verdict rn (es1 ++ es2) o.
Proof.
  intros Hg Hs Hm. unfold verdict.
  rewrite spawned_app, failedSplits_app, failedMoves_app, Hg, Hs, Hm. cbn [app].
  intros [Hmv Hsp]. split; [exact Hmv |].
  intros Hne. destruct (Hsp Hne) as (e & rn' & H1 & H2 & H3 & H4 & H5).
  exists e, rn'. repeat split; auto. apply in_or_app. right. exact H3.
Qed.

Lemma verdict_clean rn es o :
  failedSplits es = [] -> failedMoves es = [] -> verdict rn es o.
Proof. intros Hs Hm. unfold verdict. rewrite Hs, Hm. split; intros []; reflexivity. Qed.

Ltac verdict_strip :=
  lazymatch goal with
  | |- sat _ (fun es o => verdict ?rn (_ :: es) o) =>
      eapply (sat_mono _ (verdict rn));
      [| cbn beta; intros ? ? ?;
         repeat (apply verdict_cons; [reflexivity | reflexivity |]); eassumption]
  end.

Ltac verdict_leaf :=
  lazymatch goal with
  | |- verdict _ _ _ => apply verdict_clean; reflexivity
  end.

(** A planning block that did not return: the verdict holds. *)
Lemma verdict_stopped {A : Type} rn es (o : Outcome A) (o' : Outcome (Runner * option error)) :
  planned (fun e o => exists a, o = Done a) es o ->
  match o with
  | Done _ => False
  | Exit c => o' = Exit c
  | Panicked p => o' = Panicked p
  end ->
  verdict rn es o'.
Proof.
  intros [Hg H] Ho.
  destruct H as [(Hs & Hm & Hne) | [(e & Hs & Hm & [a ->]) | (e & Hs & Hm & ->)]].
  - apply verdict_clean; assumption.
  - destruct Ho.
  - subst o'. unfold verdict. rewrite Hs, Hm. split; [auto | intros []; reflexivity].
Qed.

(** Lines 176-197 of [Start]. *)
Lemma Start_tail_verdict rn rn' tdoc :
  duration rn' = duration rn -> conns rn' = conns rn ->
  sat (simTime <- schedule env rn' tdoc ;;
       spawnWorkers simTime (Z.to_nat (conns rn')) 0 ;; ret (rn', None))
      (verdict rn).
Proof.
  intros Hd Hc. unfold schedule. destruct (negb (simOnly rn')).
  - apply sat_bind_assoc.
    eapply sat_bind_with; [apply createIndexes_planned |].
    intros es1 o1 [H Hr]. destruct o1 as [x | c | p]; cbn [continues].
    + sat_step.
      eapply sat_bind_with; [apply spawnWorkers_spec |].
      intros es2 o2 [-> ->]. cbn [continues]. sat_run.
      rewrite app_nil_r. destruct H as [Hg H]. unfold verdict.
      rewrite failedMoves_app, failedSplits_app, spawned_app, failedMoves_Go,
        failedSplits_Go, spawned_Go, Hg, !app_nil_r. cbn [app].
      destruct H as [(Hs & Hm & _) | [(e & Hs & Hm & _) | (e & _ & _ & [=])]];
        rewrite Hs, Hm; (split; [intros []; reflexivity |]).
      * intros []; reflexivity.
      * intros _. exists e, rn'. repeat split.
        -- apply in_or_app. left. apply Hr. rewrite Hs. left. reflexivity.
        -- rewrite Hd, Hc. reflexivity.
    + apply (verdict_stopped rn es1 (Exit c : Outcome (option error)));
        [| reflexivity].
      eapply planned_weaken; [exact H | auto | | auto]. cbn beta. eauto.
    + apply (verdict_stopped rn es1 (Panicked p : Outcome (option error)));
        [| reflexivity].
      eapply planned_weaken; [exact H | auto | | auto]. cbn beta. eauto.
  - sat_step.
    eapply sat_bind_with; [apply spawnWorkers_spec |].
    intros es2 o2 [-> ->]. cbn [continues]. sat_run.
    rewrite app_nil_r. apply verdict_clean; [apply failedSplits_Go | apply failedMoves_Go].
Qed.

Lemma Start_verdict rn : sat (Start env rn) (verdict rn).
Proof.
  unfold Start. destruct (peek rn); [sat_step; verdict_leaf |].
  cbv zeta.
  match goal with
  | |- context [if ?c then set_dbName mdb.KeyholeDB rn else rn] =>
      set (rn' := if c then set_dbName mdb.KeyholeDB rn else rn);
      assert (Hd : duration rn' = duration rn) by (unfold rn'; destruct c; reflexivity);
      assert (Hc : conns rn' = conns rn) by (unfold rn'; destruct c; reflexivity);
      clearbody rn'
  end.
  repeat first [verdict_leaf | sat_step; try verdict_strip | sat_branch ].
  all: try (apply Start_tail_verdict; assumption).
  all: eapply sat_bind_with; [apply Cleanup_planned |];
    intros es1 o1 H; destruct o1 as [x | c | p]; cbn [continues];
    [ destruct (planned_returned_clean es1 x H) as (Hg & Hs & Hm);
      eapply (sat_mono _ (verdict rn));
      [| cbn beta; intros ? ? ?; apply verdict_app; eassumption];
      repeat first [sat_step; try verdict_strip]; apply Start_tail_verdict; assumption
    | apply (verdict_stopped rn es1 (Exit c : Outcome (option error))); [| reflexivity];
      eapply planned_weaken; [exact H | auto | intros e [] | auto]
    | apply (verdict_stopped rn es1 (Panicked p : Outcome (option error))); [| reflexivity];
      eapply planned_weaken; [exact H | auto | intros e [] | auto] ].
Qed.

End PlanningFacts.

(** C2 (as amended). A failed moveChunk command is fatal: the process
    exits with status 1 and no worker is started. A failed split command is
    not: it is the only failure of the run, no move is tried after it,
    [createIndexes] prints it, and [Start] starts all the workers and
    returns [nil]. *)
Theorem split_failure_returned_move_failure_fatal (env : Env) (rn : Runner)
    (h : list Event) :
  (failedMoves (events (Start env rn) h) <> [] ->
     outcome (Start env rn) h = Exit 1 /\ spawned (events (Start env rn) h) = []) /\
  (failedSplits (events (Start env rn) h) <> [] ->
     exists e rn',
       failedSplits (events (Start env rn) h) = [e] /\
       failedMoves (events (Start env rn) h) = [] /\
       In (FmtPrint [LErr e]) (events (Start env rn) h) /\
       outcome (Start env rn) h = Done (rn', None) /\
       spawned (events (Start env rn) h)
       = workersFrom (GoInt.sub (duration rn) 1) (Z.to_nat (conns rn)) 0).
Proof. exact (Start_verdict env rn h). Qed.

Lemma split_failure_returned_move_failure_fatal_witness :
  (failedMoves (events (Start Scenario.moveRefused (Scenario.runner "sharded")) []) <> [] /\
   outcome (Start Scenario.moveRefused (Scenario.runner "sharded")) [] = Exit 1) /\
  (failedSplits (events (Start Scenario.splitRefused (Scenario.runner "sharded")) []) <> [] /\
   exists rn',
     outcome (Start Scenario.splitRefused (Scenario.runner "sharded")) [] = Done (rn', None)).
Proof.
  split.
  - assert (H : failedMoves (events (Start Scenario.moveRefused (Scenario.runner "sharded")) [])
                <> []) by (vm_compute; discriminate).
    split; [exact H |].
    exact (proj1 (proj1 (split_failure_returned_move_failure_fatal
                           Scenario.moveRefused (Scenario.runner "sharded") []) H)).
  - assert (H : failedSplits (events (Start Scenario.splitRefused (Scenario.runner "sharded")) [])
                <> []) by (vm_compute; discriminate).
    split; [exact H |].
    destruct (proj2 (split_failure_returned_move_failure_fatal
                       Scenario.splitRefused (Scenario.runner "sharded") []) H)
      as (e & rn' & _ & _ & _ & Ho & _).
    exists rn'. exact Ho.
Defined.

(** C2 as stated fails: on a sharded cluster that refuses the split (the
    boundary exists already), the process does not exit; the error is
    printed, [Start] returns without error and both workers are
    started. *)
Lemma split_failure_is_not_fatal :
  failedSplits (events (Start Scenario.splitRefused (Scenario.runner "sharded")) [])
  = ["split failed: boundary exists"%string] /\
  outcome (Start Scenario.splitRefused (Scenario.runner "sharded")) []
  = Done (Scenario.runner "sharded", None) /\
  spawned (events (Start Scenario.splitRefused (Scenario.runner "sharded")) [])
  = [Worker 0 2; Worker 1 2].
Proof. vm_compute. repeat split. Qed.

(** ** The split boundaries *)

Lemma boundary_exact (d i : Z) :
  0 <= i < 100 -> 0 <= d <= 100 -> boundary d i = (i + 1) * d.
Proof.
  intros Hi Hd. unfold boundary, GoInt.mul, GoInt.add.
  rewrite (wrap_small (i + 1)); [apply wrap_small |];
    unfold GoInt.inRange, GoInt.minInt, GoInt.maxInt; nia.
Qed.

Lemma index_in_range {A : Type} (s : list A) (i : Z) (a : A) h :
  0 <= i < len s -> s !! Z.to_nat i = Some a -> index s i h = ([], Done a).
Proof.
  intros Hi Ha. unfold index. destruct (decide (0 <= i < len s)); [| contradiction].
  rewrite Ha. reflexivity.
Qed.

(** When every boundary is in range and no split fails, the loop issues
    one split per shard, at the key of its boundary, and returns [nil]. *)
Lemma splitLoop_all_succeed (env : Env) (rn : Runner) (c : string) (ns : string) (d : Z)
    (ixs : list Z) (keys : list string) :
  client rn = Some c ->
  Forall2 (keyOf d) ixs keys ->
  sat (splitLoop env rn ns d ixs) (fun es o =>
    failedSplits es = [] -> es = map (splitAt ns) keys /\ o = Done None).
Proof.
  intros Hc Hkeys. induction Hkeys as [| i key ixs keys [Hin Hkey] _ IH]; cbn [splitLoop map].
  - sat_step. auto.
  - apply sat_bind. intros h. unfold events, outcome.
    rewrite (index_in_range _ _ key h Hin Hkey). cbn [fst snd continues].
    unfold orReturn, dbRunCommand, useClient. rewrite Hc.
    sat_step. sat_step. sat_step. destruct a as [msg |].
    + sat_step. intros [=].
    + eapply sat_mono; [apply IH |]. cbn beta. intros es o H Hs.
      cbn [app] in *. rewrite failedSplits_cons in Hs. cbn [commandOf flat_map splitError app] in Hs.
      destruct (H Hs) as [-> ->]. auto.
Qed.

(** C5. With three shards besides the primary, the divider is
    1 + 26/4 = 7, the boundaries are the indexes 7, 14 and 21 of the key
    array, which hold the letters H, O and V, and (unless a split fails)
    the planner issues exactly the three splits at H, O and V. *)
Theorem three_shards_split_at_H_O_V (env : Env) (rn : Runner) (c : string)
    (shards : list bsonM) (ns : string) (h : list Event) :
  client rn = Some c ->
  length shards = 3%nat ->
  divider shards = 1 + 26 / 4 /\
  divider shards = 7 /\
  map (boundary (divider shards)) (indices shards) = [7; 14; 21] /\
  (shardKeys !! 7%nat = Some "H"%string /\
   shardKeys !! 14%nat = Some "O"%string /\
   shardKeys !! 21%nat = Some "V"%string) /\
  (failedSplits (events (splitLoop env rn ns (divider shards) (indices shards)) h) = [] ->
   splitLoop env rn ns (divider shards) (indices shards) h
   = ([RunCommand "admin" (split ns "email" "H") None;
       RunCommand "admin" (split ns "email" "O") None;
       RunCommand "admin" (split ns "email" "V") None],
      Done None)).
Proof.
  intros Hc Hlen.
  destruct shards as [| s1 [| s2 [| s3 [| s4 rest]]]]; try discriminate.
  repeat (split; [reflexivity |]).
  split; [repeat split |].
  intros Hs.
  assert (Hkeys : Forall2 (keyOf (divider [s1; s2; s3])) (indices [s1; s2; s3])
                    ["H"; "O"; "V"]%string).
  { repeat constructor; vm_compute; congruence. }
  destruct (splitLoop_all_succeed env rn c ns _ _ _ Hc Hkeys h Hs) as [Hes Ho].
  rewrite (proc_eta _ h), Hes, Ho. reflexivity.
Qed.

Lemma three_shards_split_at_H_O_V_witness :
  let shards := map Scenario.shardDoc ["s1"; "s2"; "s3"]%string in
  let rn := Scenario.runner "sharded" in
  (client rn = Some "mongodb://localhost/"%string /\ length shards = 3%nat /\
   failedSplits (events (splitLoop Scenario.fourShards rn (namespace rn)
                           (divider shards) (indices shards)) []) = []) /\
  splitLoop Scenario.fourShards rn (namespace rn) (divider shards) (indices shards) []
  = ([RunCommand "admin" (split "_KEYHOLE_88800.examples" "email" "H") None;
      RunCommand "admin" (split "_KEYHOLE_88800.examples" "email" "O") None;
      RunCommand "admin" (split "_KEYHOLE_88800.examples" "email" "V") None],
     Done None).
Proof.
  intros shards rn.
  assert (Hs : failedSplits (events (splitLoop Scenario.fourShards rn (namespace rn)
                                        (divider shards) (indices shards)) []) = [])
    by (vm_compute; reflexivity).
  split; [repeat split; exact Hs |].
  exact (proj2 (proj2 (proj2 (proj2
           (three_shards_split_at_H_O_V Scenario.fourShards rn "mongodb://localhost/"
              shards (namespace rn) [] eq_refl eq_refl)))) Hs).
Defined.

(** The whole of [splitChunks] on the four-shard cluster: the splits at H,
    O and V, then one chunk moved to each of the three other shards. *)
Example splitChunks_four_shards :
  commandsOf (events (splitChunks Scenario.fourShards (Scenario.runner "sharded")) [])
  = [(enableSharding "_KEYHOLE_88800", None);
     (shardCollection "_KEYHOLE_88800.examples" "email", None);
     (split "_KEYHOLE_88800.examples" "email" "H", None);
     (split "_KEYHOLE_88800.examples" "email" "O", None);
     (split "_KEYHOLE_88800.examples" "email" "V", None);
     (moveChunk "_KEYHOLE_88800.examples" {[ "email" := BStr "V" ]} "s1", None);
     (moveChunk "_KEYHOLE_88800.examples" {[ "email" := BStr "O" ]} "s2", None);
     (moveChunk "_KEYHOLE_88800.examples" {[ "email" := BStr "H" ]} "s3", None)] /\
  outcome (splitChunks Scenario.fourShards (Scenario.runner "sharded")) [] = Done None.
Proof. vm_compute. split; reflexivity. Qed.

(** C3 (as amended). With m shards besides the primary, for m from 1 to 6
    and for m = 8, the divider is 1 + 26/(m+1), the boundary of shard i is
    the index (i+1)*divider, the boundaries increase strictly and lie in
    [1, 25], and (unless a split fails) the planner issues exactly m
    splits, the i-th at the key found at the boundary of shard i. *)
Theorem split_boundaries_in_range (env : Env) (rn : Runner) (c : string)
    (shards : list bsonM) (ns : string) (h : list Event) :
  client rn = Some c ->
  1 <= len shards <= 6 \/ len shards = 8 ->
  divider shards = 1 + 26 / (len shards + 1) /\
  (forall i, 0 <= i < len shards ->
     boundary (divider shards) i = (i + 1) * divider shards /\
     1 <= boundary (divider shards) i <= 25 /\
     boundary (divider shards) i < boundary (divider shards) (i + 1)) /\
  (failedSplits (events (splitLoop env rn ns (divider shards) (indices shards)) h) = [] ->
   exists keys,
     length keys = length shards /\
     Forall2 (fun i key => shardKeys !! Z.to_nat (boundary (divider shards) i) = Some key)
       (indices shards) keys /\
     splitLoop env rn ns (divider shards) (indices shards) h
     = (map (fun key => RunCommand "admin" (split ns "email" key) None) keys, Done None)).
Proof.
  intros Hc Hm.
  assert (Hcases : exists m, length shards = m /\
            (m = 1 \/ m = 2 \/ m = 3 \/ m = 4 \/ m = 5 \/ m = 6 \/ m = 8)%nat).
  { exists (length shards). split; [reflexivity |]. unfold len in Hm. lia. }
  destruct Hcases as (m & Hlen & Hcases).
  assert (Hd : divider shards = 1 + 26 / (len shards + 1) /\ 1 <= divider shards <= 14 /\
               len shards * divider shards <= 25).
  { unfold divider, len. rewrite Hlen.
    destruct Hcases as [-> | [-> | [-> | [-> | [-> | [-> | ->]]]]]];
      vm_compute; repeat split; congruence. }
  destruct Hd as (Hd & Hd1 & Hd2).
  assert (Hb : forall i, 0 <= i <= len shards ->
                 boundary (divider shards) i = (i + 1) * divider shards).
  { intros i Hi. apply boundary_exact; unfold len in *; lia. }
  split; [exact Hd |]. split.
  - intros i Hi. rewrite !Hb by lia. nia.
  - intros Hs.
    assert (Hkeys : exists keys, Forall2 (keyOf (divider shards)) (indices shards) keys).
    { unfold indices. rewrite Hlen.
      assert (Hdv : divider shards = 1 + 26 / (Z.of_nat m + 1))
        by (rewrite Hd; unfold len; rewrite Hlen; reflexivity).
      rewrite Hdv.
      destruct Hcases as [-> | [-> | [-> | [-> | [-> | [-> | ->]]]]]];
        eexists; cbn [seq map];
        repeat (constructor; [split; [vm_compute; split; congruence | vm_compute; reflexivity] |]);
        constructor. }
    destruct Hkeys as [keys Hkeys].
    destruct (splitLoop_all_succeed env rn c ns _ _ _ Hc Hkeys h Hs) as [Hes Ho].
    exists keys. split; [| split].
    + apply Forall2_length in Hkeys. unfold indices in Hkeys.
      rewrite length_map, length_seq in Hkeys. auto.
    + eapply Forall2_impl; [exact Hkeys |]. intros i key [_ Hk]. exact Hk.
    + rewrite (proc_eta _ h), Hes, Ho. reflexivity.
Qed.

Lemma split_boundaries_in_range_witness :
  let shards := map Scenario.shardDoc ["s1"; "s2"; "s3"]%string in
  let rn := Scenario.runner "sharded" in
  (client rn = Some "mongodb://localhost/"%string /\
   (1 <= len shards <= 6 \/ len shards = 8) /\
   failedSplits (events (splitLoop Scenario.fourShards rn (namespace rn)
                           (divider shards) (indices shards)) []) = []) /\
  exists keys,
    length keys = 3%nat /\
    splitLoop Scenario.fourShards rn (namespace rn) (divider shards) (indices shards) []
    = (map (fun key => RunCommand "admin" (split (namespace rn) "email" key) None) keys,
       Done None).
Proof.
  intros shards rn.
  assert (Hm : 1 <= len shards <= 6 \/ len shards = 8) by (left; vm_compute; split; congruence).
  assert (Hs : failedSplits (events (splitLoop Scenario.fourShards rn (namespace rn)
                                        (divider shards) (indices shards)) []) = [])
    by (vm_compute; reflexivity).
  split; [split; [reflexivity | split; [exact Hm | exact Hs]] |].
  destruct (proj2 (proj2 (split_boundaries_in_range Scenario.fourShards rn
                            "mongodb://localhost/" shards (namespace rn) [] eq_refl Hm)) Hs)
    as (keys & Hlen & _ & Heq).
  exists keys. split; [exact Hlen | exact Heq].
Defined.

(** C3 as stated fails: with seven shards besides the primary the divider
    is 1 + 26/8 = 4 and the boundary of the last shard is the index 28,
    outside the 26-element key array: after six splits the planner
    panics. *)
Lemma seven_shards_boundary_out_of_range :
  let shards := map Scenario.shardDoc ["s1"; "s2"; "s3"; "s4"; "s5"; "s6"; "s7"]%string in
  len shards = 7 /\
  divider shards = 1 + 26 / (7 + 1) /\
  boundary (divider shards) 6 = (6 + 1) * divider shards /\
  boundary (divider shards) 6 = 28 /\
  ~ (1 <= boundary (divider shards) 6 <= 25) /\
  shardKeys !! Z.to_nat (boundary (divider shards) 6) = None /\
  outcome (splitChunks Scenario.eightShards (Scenario.runner "sharded")) []
  = Panicked (IndexOutOfRange 28 26).
Proof.
  vm_compute. repeat split; try reflexivity. intros [_ H]. apply H. reflexivity.
Qed.

(** C6 (the defect). One shard [s1] besides the primary, and the chunk
    list holds a chunk that already lies on [s1] followed by another
    chunk: the first chunk is confirmed and the fill pointer reaches the
    number of shards, so every shard has its chunk, but the walk does not
    stop; at the next chunk it reads [shards[1]] of a one-element list and
    panics. No chunk was moved. *)
Theorem walk_continues_after_last_shard_confirmed :
  outcome (splitChunks Scenario.alreadyPlaced (Scenario.runner "sharded")) []
  = Panicked (IndexOutOfRange 1 1) /\
  commandsOf (events (splitChunks Scenario.alreadyPlaced (Scenario.runner "sharded")) [])
  = [(enableSharding "_KEYHOLE_88800", None);
     (shardCollection "_KEYHOLE_88800.examples" "email", None);
     (split "_KEYHOLE_88800.examples" "email" "O", None)].
Proof. vm_compute. split; reflexivity. Qed.

(** ** The phase scheduler *)

Lemma sat_trivial {A : Type} (m : Proc A) (Q : list Event -> Outcome A -> Prop) :
  (forall es o, Q es o) -> sat m Q.
Proof. intros HQ h. apply HQ. Qed.

(** The answer of the environment, kept. *)
Lemma sat_bind_ask_at {A B : Type} (answer : list Event -> A) (ev : A -> Event)
    (k : A -> Proc B) (Q : list Event -> Outcome B -> Prop) :
  (forall h, sat (k (answer h)) (fun es o => Q (ev (answer h) :: es) o)) ->
  sat (bind (ask answer ev) k) Q.
Proof.
  intros Hk h. specialize (Hk h (h ++ [ev (answer h)])).
  unfold events, outcome, bind, ask in *. cbn [fst snd] in *.
  destruct (k (answer h) (h ++ [ev (answer h)])). exact Hk.
Qed.

Lemma indexesCreated_cons ev es : indexesCreated (ev :: es) = indexOf ev ++ indexesCreated es.
Proof. reflexivity. Qed.

Lemma indexesCreated_Go gs : indexesCreated (map Go gs) = [].
Proof. induction gs as [| g rest IH]; [reflexivity |]. exact IH. Qed.

Section SchedulerFacts.

Context (env : Env).

Lemma worker_populating rn simTime thread h :
  simOnly rn = false -> 0 < duration rn ->
  exists r r',
    worker env rn simTime thread h
    = (PopulateData r ::
       match r with
       | Some _ => threadLog thread r
       | None => [Sleep 10000000; Simulate simTime thread r'] ++ threadLog thread r'
       end,
       Done tt).
Proof.
  intros Hsim Hd.
  assert (H : sat (worker env rn simTime thread) (fun es o =>
            exists r r',
              es = PopulateData r ::
                   match r with
                   | Some _ => threadLog thread r
                   | None => [Sleep 10000000; Simulate simTime thread r'] ++ threadLog thread r'
                   end /\ o = Done tt)).
  { unfold worker. rewrite Hsim.
    assert (Hpos : (0 <? duration rn) = true) by (apply Z.ltb_lt; exact Hd).
    rewrite Hpos. cbn [negb andb].
    change (GoInt.mul 10 Millisecond) with 10000000.
    sat_step. destruct a as [msg |].
    - sat_step. exists (Some msg), None. auto.
    - sat_step. sat_step. destruct a as [msg |]; sat_step.
      + exists None, (Some msg). auto.
      + exists None, None. auto. }
  destruct (H h) as (r & r' & Hes & Ho). exists r, r'.
  rewrite (proc_eta _ h), Hes, Ho. reflexivity.
Qed.

Lemma worker_simulating rn simTime thread h :
  simOnly rn = true ->
  exists r',
    worker env rn simTime thread h
    = (Simulate simTime thread r' :: threadLog thread r', Done tt).
Proof.
  intros Hsim.
  assert (H : sat (worker env rn simTime thread) (fun es o =>
            exists r', es = Simulate simTime thread r' :: threadLog thread r' /\ o = Done tt)).
  { unfold worker. rewrite Hsim. cbn [negb andb].
    sat_step. destruct a as [msg |]; sat_step.
    - exists (Some msg). auto.
    - exists None. auto. }
  destruct (H h) as (r' & Hes & Ho). exists r'.
  rewrite (proc_eta _ h), Hes, Ho. reflexivity.
Qed.

Lemma createIndexes_search_index rn docs :
  sat (createIndexes env rn docs)
      (fun es o => returned o -> In [("_search"%string, 1)] (indexesCreated es)).
Proof.
  unfold createIndexes, dbCreateOne, useClient, orReturn.
  destruct (client rn); [| sat_run; intros []].
  sat_step. sat_step. apply sat_trivial. intros es o _. left. reflexivity.
Qed.

Lemma populating_cons ws ev es o :
  goOf ev = [] -> populating ws es o -> populating ws (ev :: es) o.
Proof.
  intros Hg [Hret Hstop]. split.
  - intros Ho. destruct (Hret Ho) as (setup & -> & Hs & Hi).
    exists (ev :: setup). split; [reflexivity |]. split.
    + rewrite spawned_cons, Hg. exact Hs.
    + rewrite indexesCreated_cons. apply in_or_app. right. exact Hi.
  - intros Ho. rewrite spawned_cons, Hg. exact (Hstop Ho).
Qed.

Lemma populating_app ws es1 es o :
  spawned es1 = [] -> populating ws es o -> populating ws (es1 ++ es) o.
Proof.
  intros Hg [Hret Hstop]. split.
  - intros Ho. destruct (Hret Ho) as (setup & -> & Hs & Hi).
    exists (es1 ++ setup). split; [apply app_assoc |]. split.
    + rewrite spawned_app, Hg. exact Hs.
    + rewrite indexesCreated_app. apply in_or_app. right. exact Hi.
  - intros Ho. rewrite spawned_app, Hg. exact (Hstop Ho).
Qed.

Lemma populating_stopped ws es (o : Outcome (Runner * option error)) :
  spawned es = [] -> ~ returned o -> populating ws es o.
Proof. intros Hg Ho. split; [intros H; destruct (Ho H) | intros _; exact Hg]. Qed.

Ltac populating_strip :=
  lazymatch goal with
  | |- sat _ (fun es o => populating ?ws (_ :: es) o) =>
      eapply (sat_mono _ (populating ws));
      [| cbn beta; intros ? ? ?;
         repeat (apply populating_cons; [reflexivity |]); eassumption]
  end.

Lemma Start_tail_populating rn tdoc :
  simOnly rn = false ->
  sat (simTime <- schedule env rn tdoc ;;
       spawnWorkers simTime (Z.to_nat (conns rn)) 0 ;; ret (rn, None))
      (populating (workersFrom (GoInt.sub (duration rn) 1) (Z.to_nat (conns rn)) 0)).
Proof.
  intros Hsim. unfold schedule. rewrite Hsim. cbn [negb].
  apply sat_bind_assoc.
  eapply sat_bind_with;
    [apply sat_and; [apply createIndexes_planned | apply createIndexes_search_index] |].
  intros es1 o1 [[[Hg _] _] Hidx]. destruct o1 as [x | c | p]; cbn [continues].
  - sat_step.
    eapply sat_bind_with; [apply spawnWorkers_spec |].
    intros es2 o2 [-> ->]. cbn [continues]. sat_run. rewrite app_nil_r.
    split; [| intros H; destruct (H I)].
    intros _. exists es1. repeat split; auto. apply Hidx. exact I.
  - apply populating_stopped; auto.
  - apply populating_stopped; auto.
Qed.

Lemma Start_populating rn :
  peek rn = false -> simOnly rn = false ->
  sat (Start env rn)
      (populating (workersFrom (GoInt.sub (duration rn) 1) (Z.to_nat (conns rn)) 0)).
Proof.
  intros Hpeek Hsim. unfold Start. rewrite Hpeek. cbv zeta.
  match goal with
  | |- context [if ?c then set_dbName mdb.KeyholeDB rn else rn] =>
      set (rn' := if c then set_dbName mdb.KeyholeDB rn else rn);
      assert (Hd : duration rn' = duration rn) by (unfold rn'; destruct c; reflexivity);
      assert (Hc : conns rn' = conns rn) by (unfold rn'; destruct c; reflexivity);
      assert (Hs : simOnly rn' = false) by (unfold rn'; destruct c; exact Hsim);
      clearbody rn'
  end.
  rewrite <- Hd, <- Hc.
  repeat first [sat_step; try populating_strip | sat_branch ].
  all: try (apply Start_tail_populating; assumption).
  all: try (apply populating_stopped; [reflexivity | intros []]).
  all: eapply sat_bind_with; [apply Cleanup_planned |];
    intros es1 o1 [Hg _]; destruct o1 as [x | c | p]; cbn [continues];
    [ eapply (sat_mono _ (populating _));
      [| cbn beta; intros ? ? ?; apply populating_app; eassumption];
      repeat first [sat_step; try populating_strip];
      apply Start_tail_populating; assumption
    | apply populating_stopped; auto
    | apply populating_stopped; auto ].
Qed.

Lemma simulating_cons ws ev es o :
  goOf ev = [] -> indexOf ev = [] -> simulating ws es o -> simulating ws (ev :: es) o.
Proof.
  intros Hg Hi (setup & rn' & -> & Ho & Hs & Hidx).
  exists (ev :: setup), rn'. repeat split; auto.
  - rewrite spawned_cons, Hg. exact Hs.
  - rewrite indexesCreated_cons, Hi. exact Hidx.
Qed.

Lemma simulating_app ws es1 es o :
  spawned es1 = [] -> indexesCreated es1 = [] ->
  simulating ws es o -> simulating ws (es1 ++ es) o.
Proof.
  intros Hg Hi (setup & rn' & -> & Ho & Hs & Hidx).
  exists (es1 ++ setup), rn'. repeat split; auto.
  - apply app_assoc.
  - rewrite spawned_app, Hg. exact Hs.
  - rewrite indexesCreated_app, Hi. exact Hidx.
Qed.

Ltac simulating_strip :=
  lazymatch goal with
  | |- sat _ (fun es o => simulating ?ws (_ :: es) o) =>
      eapply (sat_mono _ (simulating ws));
      [| cbn beta; intros ? ? ?;
         repeat (apply simulating_cons; [reflexivity | reflexivity |]); eassumption]
  end.

Lemma Cleanup_simOnly rn :
  simOnly rn = true ->
  sat (Cleanup env rn) (fun es o => spawned es = [] /\ indexesCreated es = [] /\ returned o).
Proof.
  intros Hsim. unfold Cleanup. rewrite Hsim. cbn [negb andb].
  sat_run; repeat split.
Qed.

Lemma Start_tail_simulating rn tdoc :
  simOnly rn = true ->
  sat (simTime <- schedule env rn tdoc ;;
       spawnWorkers simTime (Z.to_nat (conns rn)) 0 ;; ret (rn, None))
      (simulating (workersFrom (duration rn) (Z.to_nat (conns rn)) 0)).
Proof.
  intros Hsim. unfold schedule. rewrite Hsim. cbn [negb].
  sat_step.
  eapply sat_bind_with; [apply spawnWorkers_spec |].
  intros es2 o2 [-> ->]. cbn [continues]. sat_run. rewrite app_nil_r.
  exists [], rn. repeat split. apply indexesCreated_Go.
Qed.

Lemma Start_simulating rn :
  peek rn = false -> simOnly rn = true -> confirmed env rn ->
  sat (Start env rn) (simulating (workersFrom (duration rn) (Z.to_nat (conns rn)) 0)).
Proof.
  intros Hpeek Hsim Hconf. unfold Start. rewrite Hpeek. cbv zeta.
  match goal with
  | |- context [if ?c then set_dbName mdb.KeyholeDB rn else rn] =>
      set (rn' := if c then set_dbName mdb.KeyholeDB rn else rn);
      assert (Hd : duration rn' = duration rn) by (unfold rn'; destruct c; reflexivity);
      assert (Hc : conns rn' = conns rn) by (unfold rn'; destruct c; reflexivity);
      assert (Hs : simOnly rn' = true) by (unfold rn'; destruct c; exact Hsim);
      clearbody rn'
  end.
  rewrite <- Hd, <- Hc.
  assert (Hrest : sat
    (emit (Log [LStr "Duration in minute(s):"; LInt (duration rn')]);;
     (if drop rn' then Cleanup env rn';; ret () else ret ());;
     emit InitSimDocs;;
     tdoc <- ask (fun h => getTransactions env h (txFilename rn'))
                 (GetTransactions (txFilename rn'));;
     emit (Log [LStr "Total TPS: %d (%d tps/conn * %d conns), duration: %d (mins)";
                LInt (GoInt.mul (tps rn') (conns rn')); LInt (tps rn');
                LInt (conns rn'); LInt (duration rn')]);;
     simTime <- schedule env rn' tdoc;;
     spawnWorkers simTime (Z.to_nat (conns rn')) 0;; ret (rn', None))
    (simulating (workersFrom (duration rn') (Z.to_nat (conns rn')) 0))).
  { sat_step; simulating_strip.
    destruct (drop rn').
    - apply sat_bind_assoc.
      eapply sat_bind_with; [apply (Cleanup_simOnly rn' Hs) |].
      intros es1 o1 (Hg & Hi & Ho). destruct o1 as [x | c | p]; try destruct Ho.
      cbn [continues].
      eapply (sat_mono _ (simulating _));
        [| cbn beta; intros ? ? ?; apply simulating_app; eassumption].
      repeat first [sat_step; try simulating_strip].
      apply Start_tail_simulating; assumption.
    - repeat first [sat_step; try simulating_strip].
      apply Start_tail_simulating; assumption. }
  destruct (auto rn) eqn:Hauto; cbn [negb].
  - sat_step. exact Hrest.
  - destruct Hconf as [Hconf | Hconf]; [congruence |].
    apply sat_bind_assoc. sat_step. simulating_strip.
    apply sat_bind_assoc. apply sat_bind_ask_at. intros h0.
    assert (Hyes : negb (String.eqb (removeNewlines (readString env h0)) "y")
                   && negb (String.eqb (removeNewlines (readString env h0)) "Y") = false).
    { destruct (Hconf h0) as [-> | ->]; reflexivity. }
    rewrite Hyes. sat_step. simulating_strip. exact Hrest.
Qed.

End SchedulerFacts.

(** C4. On a run that is not in peek mode and that the operator confirmed,
    with a duration D of at least one minute: if simulateOnly is false, the
    simulation time is D - 1 (one minute is left to the population);
    whenever [Start] returns, the [_search] index was created during the
    setup, before any goroutine was started, and then one worker per
    connection was started with simulation time D - 1 (if [Start] does not
    return, no goroutine was started); each worker populates first and, if
    that succeeds, simulates for D - 1 minutes. If simulateOnly is true,
    [Start] returns without error, no index is created, one worker per
    connection is started with simulation time D, and each worker does
    nothing but simulate for D minutes. *)
Theorem scheduler_population_then_simulation (env : Env) (rn : Runner) (h : list Event) :
  peek rn = false -> confirmed env rn -> 1 <= duration rn <= GoInt.maxInt ->
  (simOnly rn = false ->
     GoInt.sub (duration rn) 1 = duration rn - 1 /\
     (returned (outcome (Start env rn) h) ->
        exists setup,
          events (Start env rn) h
          = setup ++ map Go (workersFrom (duration rn - 1) (Z.to_nat (conns rn)) 0) /\
          spawned setup = [] /\
          In [("_search"%string, 1)] (indexesCreated setup)) /\
     (~ returned (outcome (Start env rn) h) -> spawned (events (Start env rn) h) = []) /\
     (forall rn' thread h',
        simOnly rn' = simOnly rn -> duration rn' = duration rn ->
        exists r r',
          worker env rn' (duration rn - 1) thread h'
          = (PopulateData r ::
             match r with
             | Some _ => threadLog thread r
             | None => [Sleep 10000000; Simulate (duration rn - 1) thread r']
                       ++ threadLog thread r'
             end,
             Done tt))) /\
  (simOnly rn = true ->
     (exists setup rn',
        events (Start env rn) h
        = setup ++ map Go (workersFrom (duration rn) (Z.to_nat (conns rn)) 0) /\
        outcome (Start env rn) h = Done (rn', None) /\
        spawned setup = [] /\
        indexesCreated (events (Start env rn) h) = []) /\
     (forall rn' thread h',
        simOnly rn' = simOnly rn -> duration rn' = duration rn ->
        exists r',
          worker env rn' (duration rn) thread h'
          = (Simulate (duration rn) thread r' :: threadLog thread r', Done tt))).
Proof.
  intros Hpeek Hconf Hd.
  assert (Hsub : GoInt.sub (duration rn) 1 = duration rn - 1).
  { unfold GoInt.sub. apply wrap_small.
    unfold GoInt.inRange, GoInt.minInt, GoInt.maxInt in *. lia. }
  split; intros Hsim.
  - split; [exact Hsub |].
    pose proof (Start_populating env rn Hpeek Hsim h) as [Hret Hstop].
    rewrite Hsub in Hret.
    split; [exact Hret |]. split; [exact Hstop |].
    intros rn' thread h' Hs' Hd'. apply worker_populating; [congruence | lia].
  - split.
    + exact (Start_simulating env rn Hpeek Hsim Hconf h).
    + intros rn' thread h' Hs' Hd'. apply worker_simulating. congruence.
Qed.

Lemma scheduler_population_then_simulation_witness :
  (peek (Scenario.runner "sharded") = false /\
   confirmed Scenario.fourShards (Scenario.runner "sharded") /\
   1 <= duration (Scenario.runner "sharded") <= GoInt.maxInt /\
   simOnly (Scenario.runner "sharded") = false /\
   returned (outcome (Start Scenario.fourShards (Scenario.runner "sharded")) [])) /\
  (exists setup,
     events (Start Scenario.fourShards (Scenario.runner "sharded")) []
     = setup ++ [Go (Worker 0 2); Go (Worker 1 2)] /\
     spawned setup = [] /\
     In [("_search"%string, 1)] (indexesCreated setup)) /\
  (peek Scenario.simulateOnlyRunner = false /\
   confirmed Scenario.fourShards Scenario.simulateOnlyRunner /\
   1 <= duration Scenario.simulateOnlyRunner <= GoInt.maxInt /\
   simOnly Scenario.simulateOnlyRunner = true) /\
  (exists setup rn',
     events (Start Scenario.fourShards Scenario.simulateOnlyRunner) []
     = setup ++ [Go (Worker 0 3); Go (Worker 1 3)] /\
     outcome (Start Scenario.fourShards Scenario.simulateOnlyRunner) [] = Done (rn', None) /\
     spawned setup = [] /\
     indexesCreated (events (Start Scenario.fourShards Scenario.simulateOnlyRunner) []) = []).
Proof.
  assert (Hc1 : confirmed Scenario.fourShards (Scenario.runner "sharded")) by (left; reflexivity).
  assert (Hc2 : confirmed Scenario.fourShards Scenario.simulateOnlyRunner) by (left; reflexivity).
  assert (Hd1 : 1 <= duration (Scenario.runner "sharded") <= GoInt.maxInt)
    by (vm_compute; split; congruence).
  assert (Hd2 : 1 <= duration Scenario.simulateOnlyRunner <= GoInt.maxInt)
    by (vm_compute; split; congruence).
  assert (Hr : returned (outcome (Start Scenario.fourShards (Scenario.runner "sharded")) []))
    by (vm_compute; exact I).
  split; [repeat split; try exact Hc1; try exact Hr; apply Hd1 |].
  split.
  - destruct (proj1 (scheduler_population_then_simulation Scenario.fourShards
                       (Scenario.runner "sharded") [] eq_refl Hc1 Hd1) eq_refl)
      as (_ & Hret & _).
    exact (Hret Hr).
  - split; [repeat split; try exact Hc2; apply Hd2 |].
    destruct (proj2 (scheduler_population_then_simulation Scenario.fourShards
                       Scenario.simulateOnlyRunner [] eq_refl Hc2 Hd2) eq_refl)
      as (Hstart & _).
    exact Hstart.
Defined.

(** * Further properties of the runner *)

(** ** The rules of [always] *)

Lemma always_ret {A : Type} (P : Event -> Prop) (a : A) : always P (ret a).
Proof. intros h. constructor. Qed.

Lemma always_exit {A : Type} (P : Event -> Prop) (c : Z) : always P (exit c : Proc A).
Proof. intros h. constructor. Qed.

Lemma always_panic {A : Type} (P : Event -> Prop) (p : PanicCause) :
  always P (panic p : Proc A).
Proof. intros h. constructor. Qed.

Lemma always_emit (P : Event -> Prop) (ev : Event) : P ev -> always P (emit ev).
Proof. intros HP h. repeat constructor. exact HP. Qed.

Lemma always_ask {A : Type} (P : Event -> Prop) (answer : list Event -> A)
    (ev : A -> Event) :
  (forall a, P (ev a)) -> always P (ask answer ev).
Proof. intros HP h. repeat constructor. apply HP. Qed.

Lemma always_bind {A B : Type} (P : Event -> Prop) (m : Proc A) (k : A -> Proc B) :
  always P m -> (forall a, always P (k a)) -> always P (bind m k).
Proof.
  intros Hm Hk. apply sat_bind. eapply sat_mono; [exact Hm |]. cbn beta.
  intros es1 [a | c | p] H1; cbn [continues]; try exact H1.
  eapply sat_mono; [apply Hk |]. cbn beta. intros es2 o2 H2.
  apply Forall_app. split; assumption.
Qed.

Lemma always_impl {A : Type} (P P' : Event -> Prop) (m : Proc A) :
  (forall ev, P ev -> P' ev) -> always P m -> always P' m.
Proof.
  intros HP Hm. eapply sat_mono; [exact Hm |]. cbn beta.
  intros es o H. eapply Forall_impl; [exact H | exact HP].
Qed.

Lemma always_and {A : Type} (P P' : Event -> Prop) (m : Proc A) :
  always P m -> always P' m -> always (fun ev => P ev /\ P' ev) m.
Proof.
  intros Hm Hm' h. specialize (Hm h). specialize (Hm' h). cbn beta in *.
  rewrite Forall_forall in *. intros ev Hin. split; [apply Hm | apply Hm']; exact Hin.
Qed.

(** Walking through straight-line code under [always]; the goals left are
    the conditions on single events and the calls of other functions. *)
Ltac always_step :=
  lazymatch goal with
  | |- always _ (bind _ _) => apply always_bind; [| intros ?]
  | |- always _ (ret _) => apply always_ret
  | |- always _ (exit _) => apply always_exit
  | |- always _ (panic _) => apply always_panic
  | |- always _ (emit _) => apply always_emit
  | |- always _ (ask _ _) => apply always_ask; intros ?
  | |- always _ (match ?x with _ => _ end) => destruct x eqn:?
  | |- always _ (if ?b then _ else _) => destruct b eqn:?
  end.

Ltac always_run := repeat always_step.

Ltac in_kinds := unfold within; cbn [kind In]; tauto.

(** Using the footprint of a function that is called. *)
Ltac by_footprint lem :=
  eapply always_impl; [| apply lem];
  let ev := fresh "ev" in let H := fresh "H" in
  intros ev H; unfold within in *; cbn [In] in *; tauto.

(** ** Footprints *)

Section Footprints.

Context (env : Env).

Lemma Cleanup_within rn : always (within [KLog; KDrop; KSleep]) (Cleanup env rn).
Proof.
  unfold Cleanup, dbDropCollection, dbDropDatabase, useClient, logIfErr.
  always_run; in_kinds.
Qed.

Lemma collectFinalStatus_within rn uris :
  forall names, always (within [KConnect; KLog; KStatus]) (collectFinalStatus env rn uris names).
Proof.
  induction uris as [| u rest IH]; intros names; cbn [collectFinalStatus].
  - apply always_ret.
  - always_run; first [apply IH | in_kinds].
Qed.

Lemma logFilenames_within names : always (within [KLog]) (logFilenames names).
Proof.
  induction names as [| n rest IH]; cbn [logFilenames].
  - apply always_ret.
  - always_run; first [apply IH | in_kinds].
Qed.

Lemma terminate_within rn :
  always (within [KLog; KDrop; KSleep; KConnect; KStatus; KMarshal; KOutput])
    (terminate env rn).
Proof.
  unfold terminate.
  repeat first
    [ by_footprint Cleanup_within
    | by_footprint collectFinalStatus_within
    | by_footprint logFilenames_within
    | always_step ]; in_kinds.
Qed.

Lemma nonPrimaryShards_within primary items :
  forall shards, always (within [KLog]) (nonPrimaryShards primary items shards).
Proof.
  induction items as [| [v | msg] rest IH]; intros shards; cbn [nonPrimaryShards].
  - apply always_ret.
  - unfold assertString. always_run; first [apply IH | in_kinds].
  - always_run; first [apply IH | in_kinds].
Qed.

Lemma splitLoop_within rn ns d ixs : always (within [KCommand]) (splitLoop env rn ns d ixs).
Proof.
  induction ixs as [| i rest IH]; cbn [splitLoop].
  - apply always_ret.
  - unfold index, orReturn, dbRunCommand, useClient. always_run; first [apply IH | in_kinds].
Qed.

Lemma moveLoop_within rn ns shards chunks :
  forall i, always (within [KLog; KCommand]) (moveLoop env rn ns shards chunks i).
Proof.
  induction chunks as [| [v | msg] rest IH]; intros i; cbn [moveLoop].
  - apply always_ret.
  - unfold assertString, assertDoc, index, dbRunCommand, useClient, logFatal.
    always_run; first [apply IH | in_kinds].
  - apply IH.
Qed.

Lemma splitChunks_within rn :
  always (within [KLog; KFindOne; KCommand; KFind; KSleep]) (splitChunks env rn).
Proof.
  unfold splitChunks, dbFindOne, dbFind, dbRunCommand, useClient, assertString, orReturn.
  repeat first
    [ by_footprint nonPrimaryShards_within
    | by_footprint splitLoop_within
    | by_footprint moveLoop_within
    | always_step ]; in_kinds.
Qed.

Lemma createTemplateIndexes_within rn docs :
  forall err, always (within [KIndex]) (createTemplateIndexes env rn docs err).
Proof.
  induction docs as [| doc rest IH]; intros err; cbn [createTemplateIndexes].
  - apply always_ret.
  - unfold orReturn, dbCreateOne. always_run; first [apply IH | in_kinds].
Qed.

Lemma createIndexes_within rn docs :
  always (within [KIndex; KPrint; KLog; KFindOne; KCommand; KFind; KSleep])
    (createIndexes env rn docs).
Proof.
  unfold createIndexes, dbCreateOne, useClient, orReturn.
  repeat first
    [ by_footprint createTemplateIndexes_within
    | by_footprint splitChunks_within
    | always_step ]; in_kinds.
Qed.

Lemma spawnWorkers_within simTime n : forall i, always (within [KGo]) (spawnWorkers simTime n i).
Proof.
  induction n as [| n IH]; intros i; cbn [spawnWorkers].
  - apply always_ret.
  - always_run; first [apply IH | in_kinds].
Qed.

Lemma Start_within rn :
  always (within [KPrint; KRead; KLog; KDrop; KSleep; KInit; KTemplate; KIndex;
                  KFindOne; KCommand; KFind; KGo]) (Start env rn).
Proof.
  unfold Start, schedule. cbv zeta.
  repeat first
    [ by_footprint Cleanup_within
    | by_footprint createIndexes_within
    | by_footprint spawnWorkers_within
    | always_step ]; in_kinds.
Qed.

Lemma NewRunner_within cs : always (within [KConnect; KProbe; KShards]) (NewRunner env cs).
Proof.
  unfold NewRunner, index. always_run; in_kinds.
Qed.

Lemma worker_within rn simTime thread :
  always (within [KPopulate; KLog; KSleep; KSimulate]) (worker env rn simTime thread).
Proof. unfold worker. always_run; in_kinds. Qed.

Lemma startCollectors_within rn uris :
  forall i, always (within [KConnect; KLog; KGo]) (startCollectors env rn uris i).
Proof.
  induction uris as [| u rest IH]; intros i; cbn [startCollectors].
  - apply always_ret.
  - always_run; first [apply IH | in_kinds].
Qed.

End Footprints.

(** ** What is dropped, and where indexes and commands go *)

Lemma within_no_drop ks ev : within ks ev -> ~ In KDrop ks -> dropsOnlyDefault ev.
Proof. unfold within. intros Hin Hno. destruct ev; cbn in *; auto; contradiction. Qed.

Ltac no_drop lem :=
  eapply always_impl; [| apply lem];
  let ev := fresh "ev" in let H := fresh "H" in
  intros ev H; apply (within_no_drop _ _ H); cbn [In]; intuition discriminate.

Section Safety.

Context (env : Env).

Lemma Cleanup_drops_default rn : always dropsOnlyDefault (Cleanup env rn).
Proof.
  unfold Cleanup. destruct (peek rn); [apply always_ret |].
  destruct (negb (simOnly rn) && String.eqb (dbName rn) mdb.KeyholeDB) eqn:Hguard.
  - apply andb_prop in Hguard. destruct Hguard as [_ Hdb]. apply eqb_true_eq in Hdb.
    rewrite Hdb. unfold dbDropCollection, dbDropDatabase, useClient, logIfErr.
    always_run; cbn; auto.
  - always_run; exact I.
Qed.

Lemma terminate_drops_default rn : always dropsOnlyDefault (terminate env rn).
Proof.
  unfold terminate.
  repeat first
    [ apply Cleanup_drops_default
    | no_drop collectFinalStatus_within
    | no_drop logFilenames_within
    | always_step ]; exact I.
Qed.

Lemma Start_drops_default rn : always dropsOnlyDefault (Start env rn).
Proof.
  unfold Start, schedule. cbv zeta.
  repeat first
    [ apply Cleanup_drops_default
    | no_drop createIndexes_within
    | no_drop spawnWorkers_within
    | always_step ]; exact I.
Qed.

End Safety.

(** X1. Whatever the configuration of the runner and whatever the cluster
    answers, the only database that [Start], [Cleanup] and [terminate] ever
    drop is [_KEYHOLE_88800], and the only collection they drop is its
    examples collection. *)
Theorem only_the_default_database_is_dropped (env : Env) (rn : Runner) (h : list Event) :
  Forall dropsOnlyDefault (events (Start env rn) h) /\
  Forall dropsOnlyDefault (events (Cleanup env rn) h) /\
  Forall dropsOnlyDefault (events (terminate env rn) h).
Proof.
  split; [apply (Start_drops_default env rn h) |].
  split; [apply (Cleanup_drops_default env rn h) | apply (terminate_drops_default env rn h)].
Qed.

Lemma within_onTarget coll ks ev :
  within ks ev -> ~ In KIndex ks -> ~ In KCommand ks -> onTarget coll ev.
Proof. unfold within. intros Hin Hi Hc. destruct ev; cbn in *; auto; contradiction. Qed.

Ltac off_target lem :=
  eapply always_impl; [| apply lem];
  let ev := fresh "ev" in let H := fresh "H" in
  intros ev H; apply (within_onTarget _ _ _ H); cbn [In]; intuition discriminate.

Section Targets.

Context (env : Env).

Lemma splitLoop_onTarget coll rn ns d ixs : always (onTarget coll) (splitLoop env rn ns d ixs).
Proof.
  induction ixs as [| i rest IH]; cbn [splitLoop].
  - apply always_ret.
  - unfold index, orReturn, dbRunCommand, useClient.
    always_run; first [apply IH | reflexivity].
Qed.

Lemma moveLoop_onTarget coll rn ns shards chunks :
  forall i, always (onTarget coll) (moveLoop env rn ns shards chunks i).
Proof.
  induction chunks as [| [v | msg] rest IH]; intros i; cbn [moveLoop].
  - apply always_ret.
  - unfold assertString, assertDoc, index, dbRunCommand, useClient, logFatal.
    always_run; first [apply IH | reflexivity | exact I].
  - apply IH.
Qed.

Lemma splitChunks_onTarget coll rn : always (onTarget coll) (splitChunks env rn).
Proof.
  unfold splitChunks, dbFindOne, dbFind, dbRunCommand, useClient, assertString, orReturn.
  repeat first
    [ off_target nonPrimaryShards_within
    | apply splitLoop_onTarget
    | apply moveLoop_onTarget
    | always_step ]; first [reflexivity | exact I].
Qed.

Lemma createTemplateIndexes_onTarget rn docs :
  ~ reserved (dbName rn) ->
  forall err, always (onTarget (collectionName rn)) (createTemplateIndexes env rn docs err).
Proof.
  intros Hdb. induction docs as [| doc rest IH]; intros err; cbn [createTemplateIndexes].
  - apply always_ret.
  - unfold orReturn, dbCreateOne. always_run; first [apply IH | split; [exact Hdb | reflexivity]].
Qed.

Lemma createIndexes_onTarget rn docs :
  ~ reserved (dbName rn) ->
  always (onTarget (collectionName rn)) (createIndexes env rn docs).
Proof.
  intros Hdb. unfold createIndexes, dbCreateOne, useClient, orReturn.
  repeat first
    [ apply (createTemplateIndexes_onTarget rn docs Hdb)
    | apply splitChunks_onTarget
    | always_step ]; first [split; [exact Hdb | reflexivity] | exact I].
Qed.

(** The runner on which [Start] works after line 163. *)
Lemma normalized_not_reserved rn :
  ~ reserved (dbName (if String.eqb (dbName rn) "" || String.eqb (dbName rn) "admin"
                         || String.eqb (dbName rn) "config" || String.eqb (dbName rn) "local"
                      then set_dbName mdb.KeyholeDB rn else rn)).
Proof.
  destruct (String.eqb (dbName rn) "") eqn:H1; cbn [orb];
    [intros [H | [H | [H | H]]]; discriminate |].
  destruct (String.eqb (dbName rn) "admin") eqn:H2; cbn [orb];
    [intros [H | [H | [H | H]]]; discriminate |].
  destruct (String.eqb (dbName rn) "config") eqn:H3; cbn [orb];
    [intros [H | [H | [H | H]]]; discriminate |].
  destruct (String.eqb (dbName rn) "local") eqn:H4; cbn [orb];
    [intros [H | [H | [H | H]]]; discriminate |].
  apply eqb_false_ne in H1, H2, H3, H4. intros [H | [H | [H | H]]]; contradiction.
Qed.

Lemma Start_onTarget rn : always (onTarget (collectionName rn)) (Start env rn).
Proof.
  unfold Start, schedule. cbv zeta.
  pose proof (normalized_not_reserved rn) as Hdb.
  match goal with
  | |- context [if ?c then set_dbName mdb.KeyholeDB rn else rn] =>
      set (rn' := if c then set_dbName mdb.KeyholeDB rn else rn) in *;
      assert (Hcoll : collectionName rn' = collectionName rn)
        by (unfold rn'; destruct c; reflexivity);
      clearbody rn'
  end.
  rewrite <- Hcoll.
  repeat first
    [ off_target Cleanup_within
    | apply (createIndexes_onTarget rn' _ Hdb)
    | off_target spawnWorkers_within
    | always_step ]; exact I.
Qed.

Lemma ends_bind {A B : Type} (R : Outcome B -> Prop) (m : Proc A) (k : A -> Proc B) :
  (forall c, R (Exit c)) -> (forall p, R (Panicked p)) ->
  (forall a, sat (k a) (fun _ o => R o)) ->
  sat (bind m k) (fun _ o => R o).
Proof.
  intros Hc Hp Hk. apply sat_bind. intros h.
  destruct (outcome m h) as [a | c | p]; cbn [continues]; auto.
Qed.

Lemma Start_returns_normalized rn :
  peek rn = false ->
  sat (Start env rn) (fun _ o => forall rn' e, o = Done (rn', e) ->
                                  e = None /\ ~ reserved (dbName rn')).
Proof.
  intros Hpeek. unfold Start. rewrite Hpeek. cbv zeta.
  pose proof (normalized_not_reserved rn) as Hdb.
  match goal with
  | |- context [if ?c then set_dbName mdb.KeyholeDB rn else rn] =>
      set (rn' := if c then set_dbName mdb.KeyholeDB rn else rn) in *; clearbody rn'
  end.
  repeat (apply (ends_bind (fun o => forall rn'' e, o = Done (rn'', e) ->
                                       e = None /\ ~ reserved (dbName rn'')));
          [intros c rn'' e [=] | intros p rn'' e [=] | intros ?]).
  sat_step. intros rn'' e [= <- <-]. auto.
Qed.

End Targets.

(** X2. [Start] creates indexes only on the collection of the runner and
    never in the databases [admin], [config], [local] or in a database
    without a name; every admin command it runs goes to the [admin]
    database. When it returns (outside peek mode), it returns no error and
    the runner it leaves works on a database that is none of these. *)
Theorem load_test_stays_off_reserved_databases (env : Env) (rn : Runner) (h : list Event) :
  Forall (onTarget (collectionName rn)) (events (Start env rn) h) /\
  (peek rn = false ->
   forall rn' e, outcome (Start env rn) h = Done (rn', e) ->
                 e = None /\ ~ reserved (dbName rn')).
Proof.
  split; [apply (Start_onTarget env rn h) |].
  intros Hpeek. apply (Start_returns_normalized env rn Hpeek h).
Qed.

Lemma load_test_stays_off_reserved_databases_witness :
  peek (set_dbName "admin" (Scenario.runner "sharded")) = false /\
  exists rn',
    outcome (Start Scenario.fourShards (set_dbName "admin" (Scenario.runner "sharded"))) []
    = Done (rn', None) /\
    ~ reserved (dbName rn').
Proof.
  split; [reflexivity |].
  destruct (outcome (Start Scenario.fourShards (set_dbName "admin" (Scenario.runner "sharded"))) [])
    as [[rn' e] | c | p] eqn:Hout; try (vm_compute in Hout; discriminate).
  destruct (proj2 (load_test_stays_off_reserved_databases Scenario.fourShards
                     (set_dbName "admin" (Scenario.runner "sharded")) []) eq_refl rn' e Hout)
    as [-> Hdb].
  exists rn'. split; [reflexivity | exact Hdb].
Defined.

(** X3. In peek mode nothing is written to the cluster: [Start] and
    [Cleanup] return at once without any event, and [terminate] only
    connects to the nodes, dumps their status, logs, marshals the metrics
    and writes the metrics file; it drops nothing, does not sleep, and
    exits with status 0 even on a runner without a client. *)
Theorem peek_mode_is_read_only (env : Env) (rn : Runner) (h : list Event) :
  peek rn = true ->
  Start env rn h = ([], Done (rn, None)) /\
  Cleanup env rn h = ([], Done None) /\
  Forall (within [KConnect; KStatus; KLog; KMarshal; KOutput]) (events (terminate env rn) h) /\
  outcome (terminate env rn) h = Exit 0.
Proof.
  intros Hpeek.
  assert (Hclean : Cleanup env rn h = ([], Done None)) by (unfold Cleanup; rewrite Hpeek; reflexivity).
  split; [unfold Start; rewrite Hpeek; reflexivity |].
  split; [exact Hclean |].
  assert (Hout : outcome (Cleanup env rn) h = Done None) by (unfold outcome; rewrite Hclean; reflexivity).
  assert (Hev : events (Cleanup env rn) h = []) by (unfold events; rewrite Hclean; reflexivity).
  unfold terminate. rewrite (events_bind _ _ h None Hout), (outcome_bind _ _ h None Hout), Hev.
  cbn [app]. split.
  - match goal with
    | |- Forall _ (events ?m ?h') =>
        generalize h';
        change (always (within [KConnect; KStatus; KLog; KMarshal; KOutput]) m)
    end.
    repeat first
      [ by_footprint (collectFinalStatus_within env)
      | by_footprint logFilenames_within
      | always_step ]; in_kinds.
  - destruct (terminate_after_Cleanup env rn None (h ++ [])) as (answers & _ & _ & Ho).
    exact Ho.
Qed.

Lemma peek_mode_is_read_only_witness :
  peek (set_client None (set_peek true Scenario.shardedRunner)) = true /\
  outcome (terminate Scenario.unreachableShard
             (set_client None (set_peek true Scenario.shardedRunner))) [] = Exit 0.
Proof.
  split; [reflexivity |].
  exact (proj2 (proj2 (proj2 (peek_mode_is_read_only Scenario.unreachableShard
                                (set_client None (set_peek true Scenario.shardedRunner)) []
                                eq_refl)))).
Defined.

(** X4. Outside peek mode and without auto-confirmation, any answer other
    than [y] or [Y] (after removing line feeds) ends the process with
    status 0 right after the prompt: nothing is logged, dropped, indexed
    or started. *)
Theorem declined_run_exits_at_once (env : Env) (rn : Runner) (h : list Event) :
  peek rn = false -> auto rn = false ->
  let prompt := FmtPrint [LStr "Begin a load test [y/N]: "] in
  let text := readString env (h ++ [prompt]) in
  removeNewlines text <> "y"%string -> removeNewlines text <> "Y"%string ->
  Start env rn h = ([prompt; ReadString text], Exit 0).
Proof.
  intros Hpeek Hauto prompt text Hy HY.
  unfold Start. rewrite Hpeek, Hauto. cbn [negb].
  apply String.eqb_neq in Hy, HY.
  unfold bind at 1. unfold bind at 1. unfold bind at 1. cbn [emit ask]. fold prompt. fold text.
  rewrite Hy, HY. reflexivity.
Qed.

Lemma declined_run_exits_at_once_witness :
  let env := answering (String "n" (String "010"%char EmptyString)) Scenario.fourShards in
  let rn := set_auto false (Scenario.runner "sharded") in
  (peek rn = false /\ auto rn = false) /\
  Start env rn []
  = ([FmtPrint [LStr "Begin a load test [y/N]: "];
      ReadString (String "n" (String "010"%char EmptyString))], Exit 0).
Proof.
  intros env rn. split; [split; reflexivity |].
  apply declined_run_exits_at_once; try reflexivity; cbn; discriminate.
Defined.

(** ** The workers *)

Lemma workersFrom_seq (t : Z) (n : nat) : forall i,
  0 <= i -> i + Z.of_nat n <= GoInt.maxInt + 1 ->
  workersFrom t n i = map (fun k => Worker (i + Z.of_nat k) t) (seq 0 n).
Proof.
  induction n as [| n IH]; intros i Hi Hn; cbn [workersFrom seq map]; [reflexivity |].
  rewrite Z.add_0_r. f_equal.
  destruct n as [| n']; [reflexivity |].
  assert (Hadd : GoInt.add i 1 = i + 1).
  { unfold GoInt.add. apply wrap_small.
    unfold GoInt.inRange, GoInt.minInt, GoInt.maxInt in *. lia. }
  rewrite Hadd, IH by lia.
  rewrite <- seq_shift, map_map. apply map_ext. intros k. f_equal. lia.
Qed.

Section Workers.

Context (env : Env).

Lemma startedOnReturn_cons {A : Type} ws ev es (o : Outcome A) :
  goOf ev = [] -> startedOnReturn ws es o -> startedOnReturn ws (ev :: es) o.
Proof. intros Hg H Ho. rewrite spawned_cons, Hg. exact (H Ho). Qed.

Lemma startedOnReturn_app {A : Type} ws es1 es (o : Outcome A) :
  spawned es1 = [] -> startedOnReturn ws es o -> startedOnReturn ws (es1 ++ es) o.
Proof. intros Hg H Ho. rewrite spawned_app, Hg. exact (H Ho). Qed.

Ltac started_strip :=
  lazymatch goal with
  | |- sat _ (fun es o => startedOnReturn ?ws (_ :: es) o) =>
      eapply (sat_mono _ (startedOnReturn ws));
      [| cbn beta; intros ? ? ?;
         repeat (apply startedOnReturn_cons; [reflexivity |]); eassumption]
  end.

Lemma Start_tail_started rn tdoc :
  sat (simTime <- schedule env rn tdoc ;;
       spawnWorkers simTime (Z.to_nat (conns rn)) 0 ;; ret (rn, (None : option error)))
      (startedOnReturn (workersFrom (simTimeOf rn) (Z.to_nat (conns rn)) 0)).
Proof.
  unfold schedule, simTimeOf. destruct (simOnly rn); cbn [negb].
  - sat_step. eapply sat_bind_with; [apply spawnWorkers_spec |].
    intros es2 o2 [-> ->]. cbn [continues]. sat_run. intros _.
    rewrite app_nil_r. apply spawned_Go.
  - apply sat_bind_assoc.
    eapply sat_bind_with; [apply createIndexes_planned |].
    intros es1 o1 [[Hg _] _].
    destruct o1 as [x | c | p]; cbn [continues]; [| intros H; destruct H ..].
    sat_step. eapply sat_bind_with; [apply spawnWorkers_spec |].
    intros es2 o2 [-> ->]. cbn [continues]. sat_run. intros _.
    rewrite app_nil_r, spawned_app, Hg, spawned_Go. reflexivity.
Qed.

Lemma Start_started rn :
  peek rn = false ->
  sat (Start env rn) (startedOnReturn (workersFrom (simTimeOf rn) (Z.to_nat (conns rn)) 0)).
Proof.
  intros Hpeek. unfold Start. rewrite Hpeek. cbv zeta.
  match goal with
  | |- context [if ?c then set_dbName mdb.KeyholeDB rn else rn] =>
      set (rn' := if c then set_dbName mdb.KeyholeDB rn else rn);
      assert (Hd : simTimeOf rn' = simTimeOf rn) by (unfold rn'; destruct c; reflexivity);
      assert (Hc : conns rn' = conns rn) by (unfold rn'; destruct c; reflexivity);
      clearbody rn'
  end.
  rewrite <- Hd, <- Hc.
  repeat first [sat_step; try started_strip | sat_branch ].
  all: try (apply Start_tail_started).
  all: try (lazymatch goal with |- startedOnReturn _ _ _ => intros H; destruct H end).
  all: eapply sat_bind_with; [apply Cleanup_planned |];
    intros es1 o1 [Hg _]; destruct o1 as [x | c | p]; cbn [continues];
    [| intros H; destruct H ..];
    eapply (sat_mono _ (startedOnReturn _));
    [| cbn beta; intros ? ? ?; apply startedOnReturn_app; eassumption];
    repeat first [sat_step; try started_strip];
    apply Start_tail_started.
Qed.

End Workers.

(** X5. Outside peek mode, when [Start] returns it has started exactly one
    worker per connection, with the thread numbers 0, 1, ..., conns-1 in
    this order (none if the number of connections is zero or negative),
    each with the simulation time of the runner: the duration if
    simulateOnly is set, the duration minus one otherwise. *)
Theorem one_worker_per_connection (env : Env) (rn : Runner) (h : list Event) :
  peek rn = false -> conns rn <= GoInt.maxInt ->
  returned (outcome (Start env rn) h) ->
  spawned (events (Start env rn) h)
  = map (fun k => Worker (Z.of_nat k)
                    (if simOnly rn then duration rn else GoInt.sub (duration rn) 1))
        (seq 0 (Z.to_nat (conns rn))).
Proof.
  intros Hpeek Hconns Hret.
  rewrite (Start_started env rn Hpeek h Hret). unfold simTimeOf.
  rewrite workersFrom_seq; [reflexivity | lia |].
  unfold GoInt.maxInt in *. lia.
Qed.

Lemma one_worker_per_connection_witness :
  (peek Scenario.simulateOnlyRunner = false /\
   conns Scenario.simulateOnlyRunner <= GoInt.maxInt /\
   returned (outcome (Start Scenario.fourShards Scenario.simulateOnlyRunner) [])) /\
  spawned (events (Start Scenario.fourShards Scenario.simulateOnlyRunner) [])
  = [Worker 0 3; Worker 1 3].
Proof.
  assert (Hc : conns Scenario.simulateOnlyRunner <= GoInt.maxInt) by (vm_compute; congruence).
  assert (Hr : returned (outcome (Start Scenario.fourShards Scenario.simulateOnlyRunner) []))
    by (vm_compute; exact I).
  split; [split; [reflexivity | split; [exact Hc | exact Hr]] |].
  exact (one_worker_per_connection Scenario.fourShards Scenario.simulateOnlyRunner []
           eq_refl Hc Hr).
Defined.




(** ** The split plan beyond eight shards *)

Section SplitPlan.

Context (env : Env).

Lemma last_boundary (d a : Z) :
  1 <= d -> 0 <= a -> a * d < 26 -> 26 <= (a + 1) * d -> 25 / d = a.
Proof.
  intros Hd Ha Hlo Hhi. symmetry. apply (Z.div_unique_pos 25 d a (25 - a * d)); lia.
Qed.

(** The loop from index [a] on, when the boundaries before [a] were in
    range and the last one is not: it panics at the first boundary from 26
    on, after [25/d - a] more splits. *)
Lemma splitLoop_runs_out rn c ns d n :
  client rn = Some c ->
  1 <= d <= 26 ->
  forall a : nat,
    Z.of_nat a * d < 26 ->
    26 <= (Z.of_nat a + Z.of_nat n) * d ->
    sat (splitLoop env rn ns d (map Z.of_nat (seq a n))) (fun es o =>
      failedSplits es = [] ->
      len (commandsOf es) = 25 / d - Z.of_nat a /\
      o = Panicked (IndexOutOfRange ((25 / d + 1) * d) 26)).
Proof.
  intros Hc Hd. induction n as [| n IH]; intros a Ha Hlast; [lia |].
  cbn [seq map splitLoop].
  assert (Hb : boundary d (Z.of_nat a) = (Z.of_nat a + 1) * d).
  { apply boundary_exact; nia. }
  rewrite Hb. unfold index. change (len shardKeys) with 26.
  destruct (decide (0 <= (Z.of_nat a + 1) * d < 26)) as [Hin | Hout].
  - destruct (shardKeys !! Z.to_nat ((Z.of_nat a + 1) * d)) as [key |] eqn:Hkey.
    2: { apply lookup_ge_None in Hkey. cbn in Hkey. lia. }
    unfold orReturn, dbRunCommand, useClient. rewrite Hc.
    sat_step. sat_step. sat_step. sat_step. destruct a0 as [msg |].
    + sat_step. intros [=].
    + eapply sat_mono; [apply (IH (S a)); rewrite ?Nat2Z.inj_succ; unfold Z.succ; nia |]. cbn beta. intros es o H Hs.
      rewrite failedSplits_cons in Hs. cbn [commandOf flat_map splitError app] in Hs.
      destruct (H Hs) as [Hn ->]. split; [| reflexivity].
      change (commandsOf (?e :: es)) with (commandOf e ++ commandsOf es).
      cbn [commandOf app]. unfold len in *. cbn [length]. lia.
  - sat_step. intros _.
    assert (Hq : 25 / d = Z.of_nat a) by (apply last_boundary; lia).
    rewrite Hq. split; [unfold len, commandsOf; cbn [flat_map length]; lia | reflexivity].
Qed.

Lemma divider_exact (shards : list bsonM) :
  len shards < GoInt.maxInt -> divider shards = 1 + 26 / (len shards + 1).
Proof.
  intros Hm. unfold divider, GoInt.add, GoInt.quot. change (len shardKeys) with 26.
  assert (H0 : 0 <= len shards) by (unfold len; lia).
  rewrite (wrap_small (len shards + 1))
    by (unfold GoInt.inRange, GoInt.minInt, GoInt.maxInt in *; lia).
  rewrite Z.quot_div_nonneg by lia.
  assert (Hq : 0 <= 26 / (len shards + 1) <= 26).
  { split; [apply Z.div_pos; lia |]. apply Z.div_le_upper_bound; nia. }
  rewrite (wrap_small (26 / (len shards + 1)))
    by (unfold GoInt.inRange, GoInt.minInt, GoInt.maxInt; lia).
  apply wrap_small. unfold GoInt.inRange, GoInt.minInt, GoInt.maxInt. lia.
Qed.

End SplitPlan.

(** X7. With seven, or with nine or more, shards besides the primary the
    split loop cannot complete: unless a split command fails first, it
    issues 25/divider splits (fewer than there are shards) and then panics
    on a boundary index from 26 on, outside the 26 keys. *)
Theorem split_plan_runs_out_of_keys (env : Env) (rn : Runner) (c : string)
    (shards : list bsonM) (ns : string) (h : list Event) :
  client rn = Some c ->
  len shards = 7 \/ 9 <= len shards < GoInt.maxInt ->
  failedSplits (events (splitLoop env rn ns (divider shards) (indices shards)) h) = [] ->
  divider shards = 1 + 26 / (len shards + 1) /\
  len (commandsOf (events (splitLoop env rn ns (divider shards) (indices shards)) h))
  = 25 / divider shards /\
  25 / divider shards < len shards /\
  26 <= (25 / divider shards + 1) * divider shards /\
  outcome (splitLoop env rn ns (divider shards) (indices shards)) h
  = Panicked (IndexOutOfRange ((25 / divider shards + 1) * divider shards) 26).
Proof.
  intros Hc Hm.
  assert (Hmax : len shards < GoInt.maxInt).
  { destruct Hm as [-> | Hm]; [reflexivity | lia]. }
  pose proof (divider_exact shards Hmax) as Hd.
  assert (Hcases : (len shards = 7 /\ divider shards = 4) \/
                   (9 <= len shards <= 12 /\ divider shards = 3) \/
                   (13 <= len shards <= 25 /\ divider shards = 2) \/
                   (26 <= len shards /\ divider shards = 1)).
  { rewrite Hd.
    destruct (Z_lt_le_dec (len shards) 9) as [H9 | H9]; [left |].
    { destruct Hm as [H7 | ?]; [| lia]. rewrite H7. split; reflexivity. }
    right. destruct (Z_lt_le_dec (len shards) 13) as [H13 | H13]; [left |].
    { split; [lia |]. rewrite <- (Z.div_unique_pos 26 (len shards + 1) 2 (26 - 2 * (len shards + 1))); lia. }
    right. destruct (Z_lt_le_dec (len shards) 26) as [H26 | H26]; [left | right].
    { split; [lia |]. rewrite <- (Z.div_unique_pos 26 (len shards + 1) 1 (26 - (len shards + 1))); lia. }
    split; [lia |]. rewrite Z.div_small; lia. }
  assert (Hrun : 1 <= divider shards <= 26 /\ 26 <= len shards * divider shards /\
                 25 / divider shards < len shards /\
                 26 <= (25 / divider shards + 1) * divider shards).
  { destruct Hcases as [[Hl ->] | [[Hl ->] | [[Hl ->] | [Hl ->]]]];
      change (25 / 4) with 6; change (25 / 3) with 8; change (25 / 2) with 12;
      change (25 / 1) with 25; lia. }
  destruct Hrun as (Hrange & Hlast & Hfew & Hout).
  intros Hs.
  destruct (splitLoop_runs_out env rn c ns (divider shards) (length shards) Hc Hrange 0%nat
              ltac:(lia) ltac:(unfold len in Hlast; lia) h Hs) as [Hn Ho].
  change (map Z.of_nat (seq 0 (length shards))) with (indices shards) in Hn, Ho.
  repeat split; try assumption. rewrite Hn. change (Z.of_nat 0) with 0. lia.
Qed.

Lemma split_plan_runs_out_of_keys_witness :
  let shards := map Scenario.shardDoc
                  ["s1"; "s2"; "s3"; "s4"; "s5"; "s6"; "s7"; "s8"; "s9"]%string in
  let rn := Scenario.runner "sharded" in
  len (commandsOf (events (splitLoop Scenario.fourShards rn (namespace rn)
                             (divider shards) (indices shards)) [])) = 8 /\
  outcome (splitLoop Scenario.fourShards rn (namespace rn) (divider shards) (indices shards)) []
  = Panicked (IndexOutOfRange 27 26).
Proof.
  intros shards rn.
  destruct (split_plan_runs_out_of_keys Scenario.fourShards rn "mongodb://localhost/"
              shards (namespace rn) [] eq_refl
              ltac:(right; vm_compute; split; [intros [=] | reflexivity])
              ltac:(vm_compute; reflexivity))
    as (_ & Hn & _ & _ & Ho).
  split; [exact Hn | exact Ho].
Defined.

(** ** The walk over the chunks *)

Lemma movedTo_cons ev es : movedTo (ev :: es) = flat_map moveTarget (commandOf ev) ++ movedTo es.
Proof. unfold movedTo, commandsOf. cbn [flat_map]. apply flat_map_app. Qed.

(** At a shard that was read, the fill pointer advances without
    wrap-around, and the shard is the first of those not yet served. *)
Ltac move_next :=
  match goal with
  | Hl : ?shards !! Z.to_nat ?j = Some ?t, Hid : ?t !! "_id" = Some (BStr ?s),
    Hr : 0 <= ?j < len ?shards |- _ =>
      assert (Hnext : GoInt.add j 1 = j + 1)
        by (apply wrap_small;
            unfold GoInt.inRange, GoInt.minInt, GoInt.maxInt in *; lia);
      assert (Hdrop : docIDs (skipn (Z.to_nat j) shards)
                      = s :: docIDs (skipn (Z.to_nat (j + 1)) shards))
        by (rewrite (drop_S _ _ _ Hl); unfold docIDs at 1; cbn [flat_map];
            unfold docID at 1; rewrite Hid; cbn [app];
            replace (Z.to_nat (j + 1)) with (S (Z.to_nat j)) by lia; reflexivity);
      rewrite Hdrop, ?Hnext
  | _ => idtac
  end.

Section Moves.

Context (env : Env).

Lemma moveLoop_sublist rn ns shards chunks :
  len shards <= GoInt.maxInt ->
  forall i, 0 <= i ->
    sat (moveLoop env rn ns shards chunks i) (fun es _ =>
      sublist (movedTo es) (docIDs (skipn (Z.to_nat i) shards))).
Proof.
  intros Hmax. induction chunks as [| [v | msg] rest IH]; intros i Hi; cbn [moveLoop].
  - sat_step. apply sublist_nil_l.
  - unfold assertString, assertDoc, index, dbRunCommand, useClient, logFatal.
    sat_run.
    all: try apply sublist_nil_l.
    all: move_next.
    all: try (eapply sat_mono; [apply IH; lia |];
              cbn beta; intros es o H).
    all: rewrite ?movedTo_cons; cbn [commandOf flat_map moveTarget fst app].
    all: first [ apply sublist_cons, H
               | apply sublist_skip; first [exact H | apply sublist_nil_l] ].
  - apply IH, Hi.
Qed.

Lemma docIDs_length shards : (length (docIDs shards) <= length shards)%nat.
Proof.
  induction shards as [| v rest IH]; [reflexivity |].
  unfold docIDs in *. cbn [flat_map]. rewrite length_app. unfold docID at 1.
  destruct (v !! "_id") as [[] |]; cbn [length]; lia.
Qed.

(** Whatever the fill pointer: a chunk is only moved to one of the shards
    of the list. *)
Lemma moveLoop_targets rn ns shards chunks i :
  sat (moveLoop env rn ns shards chunks i) (fun es _ =>
    Forall (fun id => In id (docIDs shards)) (movedTo es)).
Proof.
  revert i. induction chunks as [| [v | msg] rest IH]; intros i; cbn [moveLoop].
  - sat_step. constructor.
  - unfold assertString, assertDoc, index, dbRunCommand, useClient, logFatal.
    sat_run.
    all: try (eapply sat_mono; [apply IH |]; cbn beta; intros es o H).
    all: rewrite ?movedTo_cons; cbn [commandOf flat_map moveTarget fst app].
    all: try exact H; try constructor; try exact H; try constructor.
    all: unfold docIDs; apply in_flat_map; exists g; split;
      [ apply list_elem_of_In; eapply list_elem_of_lookup_2; eassumption
      | unfold docID; rewrite Heqo1; left; reflexivity ].
  - apply IH.
Qed.

(** The shards collected are those whose [_id] differs from the primary. *)
Lemma nonPrimaryShards_spec primary items shards :
  Forall (fun id => id <> primary) (docIDs shards) ->
  sat (nonPrimaryShards primary items shards) (fun es o =>
    movedTo es = [] /\
    forall shards', o = Done shards' -> Forall (fun id => id <> primary) (docIDs shards')).
Proof.
  revert shards. induction items as [| [v | msg] rest IH]; intros shards Hs;
    cbn [nonPrimaryShards].
  - sat_step. split; [reflexivity |]. intros shards' [= <-]. exact Hs.
  - unfold assertString. sat_run.
    all: try (split; [reflexivity | discriminate]).
    + apply IH, Hs.
    + apply IH. unfold docIDs in *. rewrite flat_map_app. apply Forall_app. split; [exact Hs |].
      cbn [flat_map]. unfold docID. rewrite Heqo. cbn [app]. constructor; [| constructor].
      intros ->. rewrite String.eqb_refl in *. discriminate.
  - sat_step. eapply sat_mono; [apply (IH shards Hs) |]. cbn beta. intros es o [H1 H2].
    split; [| exact H2]. rewrite movedTo_cons. exact H1.
Qed.

Lemma splitLoop_moves_nothing rn ns d ixs :
  sat (splitLoop env rn ns d ixs) (fun es _ => movedTo es = []).
Proof.
  induction ixs as [| i rest IH]; cbn [splitLoop].
  - sat_step. reflexivity.
  - unfold index, orReturn, dbRunCommand, useClient. sat_run; try reflexivity.
    eapply sat_mono; [apply IH |]. cbn beta. intros es o H.
    rewrite movedTo_cons. exact H.
Qed.

End Moves.

(** X8. The walk over the chunks serves the shards in the order of the
    list and gives each shard at most one chunk: the targets of the
    moveChunk commands are a subsequence of the shard ids, so there are no
    more moves than shards. *)
Theorem each_shard_receives_at_most_one_chunk (env : Env) (rn : Runner) (ns : string)
    (shards : list bsonM) (chunks : list (result bsonM)) (h : list Event) :
  len shards <= GoInt.maxInt ->
  sublist (movedTo (events (moveLoop env rn ns shards chunks 0) h)) (docIDs shards) /\
  (length (movedTo (events (moveLoop env rn ns shards chunks 0) h)) <= length shards)%nat.
Proof.
  intros Hmax.
  pose proof (moveLoop_sublist env rn ns shards chunks Hmax 0 ltac:(lia) h) as H.
  cbn beta in H. change (Z.to_nat 0) with 0%nat in H. rewrite drop_0 in H.
  split; [exact H |].
  pose proof (sublist_length _ _ H) as Hl. pose proof (docIDs_length shards) as Hs. lia.
Qed.

Lemma each_shard_receives_at_most_one_chunk_witness :
  let shards := map Scenario.shardDoc ["s1"; "s2"; "s3"]%string in
  let chunks := map Ok [Scenario.chunkDoc "c3" "s0" "V"; Scenario.chunkDoc "c2" "s2" "O";
                        Scenario.chunkDoc "c1" "s0" "H"; Scenario.chunkDoc "c0" "s0" ""] in
  let rn := Scenario.runner "sharded" in
  len shards <= GoInt.maxInt /\
  sublist (movedTo (events (moveLoop Scenario.fourShards rn (namespace rn) shards chunks 0) []))
          (docIDs shards).
Proof.
  intros shards chunks rn.
  assert (Hmax : len shards <= GoInt.maxInt) by (vm_compute; intros [=]).
  split; [exact Hmax |].
  exact (proj1 (each_shard_receives_at_most_one_chunk Scenario.fourShards rn (namespace rn)
                  shards chunks [] Hmax)).
Defined.

Lemma always_bind_with {A B : Type} (P : Event -> Prop) (R : Outcome A -> Prop)
    (m : Proc A) (k : A -> Proc B) :
  sat m (fun es o => Forall P es /\ R o) ->
  (forall a, R (Done a) -> always P (k a)) ->
  always P (bind m k).
Proof.
  intros Hm Hk. apply sat_bind. eapply sat_mono; [exact Hm |]. cbn beta.
  intros es1 [a | c | p] [H1 HR]; cbn [continues]; try exact H1.
  eapply sat_mono; [apply (Hk a HR) |]. cbn beta. intros es2 o2 H2.
  apply Forall_app. split; assumption.
Qed.

Section Primary.

Context (env : Env).

Lemma docIDs_lookup (shards : list bsonM) (n : nat) (v : bsonM) (id : string) :
  shards !! n = Some v -> v !! "_id" = Some (BStr id) -> In id (docIDs shards).
Proof.
  intros Hl Hid. unfold docIDs. apply in_flat_map. exists v. split.
  - apply list_elem_of_In. eapply list_elem_of_lookup_2. exact Hl.
  - unfold docID. rewrite Hid. left. reflexivity.
Qed.

Lemma sparing_movedTo p es : Forall (sparing p) es <-> ~ In p (movedTo es).
Proof.
  induction es as [| ev es IH].
  - split; [intros _ [] | constructor].
  - rewrite Forall_cons, movedTo_cons, IH, in_app_iff.
    destruct ev as [| | | | | | db [] r | | | | | | | | | | | | | |];
      cbn [commandOf flat_map moveTarget fst app sparing In]; tauto.
Qed.

Lemma moveLoop_sparing p rn ns shards chunks i :
  Forall (fun id => id <> p) (docIDs shards) ->
  always (sparing p) (moveLoop env rn ns shards chunks i).
Proof.
  intros Hs. eapply sat_mono; [apply moveLoop_targets |]. cbn beta.
  intros es _ H. apply sparing_movedTo. intros Hin.
  rewrite Forall_forall in H, Hs. apply (Hs p); [| reflexivity].
  apply list_elem_of_In, H, list_elem_of_In, Hin.
Qed.

Lemma splitLoop_sparing p rn ns d ixs : always (sparing p) (splitLoop env rn ns d ixs).
Proof.
  induction ixs as [| i rest IH]; cbn [splitLoop].
  - apply always_ret.
  - unfold index, orReturn, dbRunCommand, useClient. always_run; first [apply IH | exact I].
Qed.

Lemma nonPrimaryShards_sparing p primary items :
  forall shards,
    Forall (fun id => id <> primary) (docIDs shards) ->
    sat (nonPrimaryShards primary items shards) (fun es o =>
      Forall (sparing p) es /\
      forall shards', o = Done shards' -> Forall (fun id => id <> primary) (docIDs shards')).
Proof.
  induction items as [| [v | msg] rest IH]; intros shards Hs; cbn [nonPrimaryShards].
  - sat_step. split; [constructor |]. intros shards' [= <-]. exact Hs.
  - unfold assertString. sat_run.
    all: try (split; [constructor | discriminate]).
    + apply IH, Hs.
    + apply IH. unfold docIDs in *. rewrite flat_map_app. apply Forall_app. split; [exact Hs |].
      cbn [flat_map]. unfold docID. rewrite Heqo. cbn [app]. constructor; [| constructor].
      intros ->. rewrite String.eqb_refl in *. discriminate.
  - sat_step. eapply sat_mono; [apply (IH shards Hs) |]. cbn beta. intros es o [H1 H2].
    split; [| exact H2]. constructor; [exact I | exact H1].
Qed.

Lemma splitChunks_sparing rn :
  sat (splitChunks env rn) (fun es _ =>
    forall result p,
      head es = Some (primaryRead rn result) ->
      result !! "primary" = Some (BStr p) ->
      Forall (sparing p) es).
Proof.
  assert (Hno : forall es : list Event,
            (forall result, head es <> Some (primaryRead rn result)) ->
            forall result p, head es = Some (primaryRead rn result) ->
              result !! "primary" = Some (BStr p) -> Forall (sparing p) es).
  { intros es Hne result p H. destruct (Hne result H). }
  unfold splitChunks, dbFindOne, useClient.
  destruct (client rn) as [c |] eqn:Hc; [| sat_run; apply Hno; intros ? [=]].
  sat_step. sat_step. sat_step.
  destruct a as [result | msg]; [| sat_step; apply Hno; intros ? [=]].
  unfold assertString at 1.
  destruct (result !! "primary") as [[primary | | | ] |] eqn:Hp;
    try (sat_step; intros result' p' [= <-] Hp'; congruence).
  sat_step.
  eapply sat_mono.
  2: { cbn beta. intros es o H result' p' [= <-] Hp'.
       assert (p' = primary) as -> by congruence.
       constructor; [exact I | exact H]. }
  lazymatch goal with |- sat ?m _ => change (always (sparing primary) m) end.
  unfold dbFind, dbRunCommand, useClient, orReturn. rewrite Hc.
  repeat lazymatch goal with
         | |- always _ (bind (nonPrimaryShards _ _ _) _) =>
             eapply always_bind_with;
             [ apply nonPrimaryShards_sparing; constructor
             | cbn beta; intros shards Hshards;
               specialize (Hshards shards eq_refl) ]
         | |- always _ (moveLoop _ _ _ _ _ _) => apply moveLoop_sparing; assumption
         | |- always _ (splitLoop _ _ _ _ _) => apply splitLoop_sparing
         | |- always _ _ => always_step
         | |- sparing _ _ => exact I
         end.
Qed.

End Primary.

(** X9. [splitChunks] never moves a chunk to the primary shard: when its
    lookup in [config.databases] names [p] as the primary of the database,
    no moveChunk command of the call has [p] as its target. *)
Theorem no_chunk_is_moved_to_the_primary (env : Env) (rn : Runner) (h : list Event)
    (result : bsonM) (p : string) :
  head (events (splitChunks env rn) h) = Some (primaryRead rn result) ->
  result !! "primary" = Some (BStr p) ->
  ~ In p (movedTo (events (splitChunks env rn) h)).
Proof.
  intros Hread Hp. apply sparing_movedTo.
  exact (splitChunks_sparing env rn h result p Hread Hp).
Qed.

Lemma no_chunk_is_moved_to_the_primary_witness :
  movedTo (events (splitChunks Scenario.fourShards (Scenario.runner "sharded")) [])
  = ["s1"; "s2"; "s3"]%string /\
  ~ In "s0"%string
       (movedTo (events (splitChunks Scenario.fourShards (Scenario.runner "sharded")) [])).
Proof.
  split; [vm_compute; reflexivity |].
  apply (no_chunk_is_moved_to_the_primary Scenario.fourShards (Scenario.runner "sharded") []
           {[ "primary" := BStr "s0" ]}); vm_compute; reflexivity.
Defined.

(** ** Index creation from a template *)

Section TemplateIndexes.

Context (env : Env).

Lemma createTemplateIndexes_indexed rn docs :
  sat (createTemplateIndexes env rn docs None) (indexed (map templateKeys docs)).
Proof.
  induction docs as [| doc rest IH]; cbn [createTemplateIndexes map].
  - sat_step. split; [constructor |]. left. repeat split.
  - unfold orReturn, dbCreateOne. sat_step. destruct a as [msg |].
    + sat_step. split; [repeat constructor; in_kinds |]. right. exists msg.
      split; [reflexivity |]. split; [| reflexivity].
      cbn. exists (map templateKeys rest). reflexivity.
    + eapply sat_mono; [apply IH |]. cbn beta.
      intros es o [Hk [(-> & Hi & Hf) | (e & -> & Hi & Hf)]].
      * split; [constructor; [in_kinds | exact Hk] |]. left.
        split; [reflexivity |]. rewrite indexesCreated_cons, Hi.
        split; [reflexivity | exact Hf].
      * split; [constructor; [in_kinds | exact Hk] |]. right. exists e.
        split; [reflexivity |]. rewrite indexesCreated_cons.
        split; [apply prefix_cons, Hi | exact Hf].
Qed.

End TemplateIndexes.

(** X10. With a template that lists indexes, [createIndexes] only creates
    indexes: the [_search] index and then one index per document of the
    template, in order, stopping at the first creation that fails and
    returning its error. It runs no admin command and reads nothing of
    the cluster configuration, also on a sharded cluster. *)
Theorem template_indexes_replace_sharding (env : Env) (rn : Runner) (c : string)
    (docs : list (list (string * Bson))) (h : list Event) :
  client rn = Some c ->
  docs <> [] ->
  indexed ([("_search"%string, 1)] :: map templateKeys docs)
    (events (createIndexes env rn docs) h) (outcome (createIndexes env rn docs) h).
Proof.
  intros Hc Hdocs. revert h.
  change (sat (createIndexes env rn docs)
            (indexed ([("_search"%string, 1)] :: map templateKeys docs))).
  unfold createIndexes, useClient, orReturn, dbCreateOne. rewrite Hc.
  assert (Hlen : (len docs =? 0) = false).
  { apply Z.eqb_neq. unfold len. destruct docs; [contradiction | cbn [length]; lia]. }
  rewrite Hlen.
  sat_step. sat_step. destruct a as [msg |].
  - sat_step. split; [repeat constructor; in_kinds |]. right. exists msg.
    split; [reflexivity |]. split; [| reflexivity].
    exists (map templateKeys docs). reflexivity.
  - eapply sat_mono; [apply createTemplateIndexes_indexed |]. cbn beta.
    intros es o [Hk [(-> & Hi & Hf) | (e & -> & Hi & Hf)]].
    + split; [constructor; [in_kinds | exact Hk] |]. left.
      split; [reflexivity |]. rewrite indexesCreated_cons, Hi.
      split; [reflexivity | exact Hf].
    + split; [constructor; [in_kinds | exact Hk] |]. right. exists e.
      split; [reflexivity |]. rewrite indexesCreated_cons.
      split; [apply prefix_cons, Hi | exact Hf].
Qed.

Lemma template_indexes_replace_sharding_witness :
  let docs := [[("name"%string, BInt 1)]; [("ts"%string, BInt (-1)); ("email"%string, BStr "x")]] in
  indexesCreated (events (createIndexes Scenario.fourShards (Scenario.runner "sharded") docs) [])
  = [[("_search"%string, 1)]; [("name"%string, 1)]; [("ts"%string, -1); ("email"%string, 1)]] /\
  commandsOf (events (createIndexes Scenario.fourShards (Scenario.runner "sharded") docs) [])
  = [].
Proof.
  intros docs.
  destruct (template_indexes_replace_sharding Scenario.fourShards (Scenario.runner "sharded")
              "mongodb://localhost/" docs [] eq_refl ltac:(discriminate))
    as [Hk [(_ & Hi & _) | (e & He & _)]]; [| vm_compute in He; discriminate He].
  split; [exact Hi | vm_compute; reflexivity].
Defined.

(** ** The collectors of [CollectAllStatus] *)

Lemma metricsCollectors_cons ev es :
  metricsCollectors (ev :: es) = flat_map metricsOf (goOf ev) ++ metricsCollectors es.
Proof. unfold metricsCollectors. rewrite spawned_cons. apply flat_map_app. Qed.

Lemma statusCollectors_cons ev es :
  statusCollectors (ev :: es) = flat_map statusOf (goOf ev) ++ statusCollectors es.
Proof. unfold statusCollectors. rewrite spawned_cons. apply flat_map_app. Qed.

Section Collectors.

Context (env : Env).

(** After the first node: four collectors per node reached, and no
    metrics collector. *)
Lemma startCollectors_rest rn uris :
  forall i, 1 <= i -> i + len uris <= GoInt.maxInt ->
    sat (startCollectors env rn uris i) (fun es o =>
      o = Done tt /\ metricsCollectors es = [] /\
      statusCollectors es = flat_map (collectorsOf rn) (reached es)).
Proof.
  induction uris as [| u rest IH]; intros i Hi Hmax; cbn [startCollectors].
  - sat_step. repeat split.
  - assert (Hnext : GoInt.add i 1 = i + 1).
    { apply wrap_small. unfold len in Hmax. cbn [length] in Hmax.
      unfold GoInt.inRange, GoInt.minInt, GoInt.maxInt in *. lia. }
    assert (Hne : (i =? 0) = false) by (apply Z.eqb_neq; lia).
    rewrite Hnext, Hne.
    assert (Hrest : sat (startCollectors env rn rest (i + 1)) (fun es o =>
              o = Done tt /\ metricsCollectors es = [] /\
              statusCollectors es = flat_map (collectorsOf rn) (reached es))).
    { apply IH; [lia |]. unfold len in *. cbn [length] in Hmax. lia. }
    sat_step. destruct a as [msg |]; sat_run.
    all: eapply sat_mono; [exact Hrest |]; cbn beta; intros es o (-> & Hm & Hs).
    all: split; [reflexivity |].
    all: rewrite ?metricsCollectors_cons, ?statusCollectors_cons.
    all: cbn [goOf flat_map metricsOf statusOf app reached connectedTo].
    all: split; [exact Hm |].
    + exact Hs.
    + fold (reached es). rewrite Hs. reflexivity.
Qed.

(** From the first node on. *)
Lemma startCollectors_first rn uris :
  len uris <= GoInt.maxInt ->
  sat (startCollectors env rn uris 0) (fun es o =>
    o = Done tt /\
    statusCollectors es = flat_map (collectorsOf rn) (reached es) /\
    metricsCollectors es = firstReached uris es).
Proof.
  intros Hmax.
  destruct uris as [| u rest]; cbn [startCollectors].
  - sat_step. repeat split.
  - assert (Hrest : sat (startCollectors env rn rest (GoInt.add 0 1)) (fun es o =>
              o = Done tt /\ metricsCollectors es = [] /\
              statusCollectors es = flat_map (collectorsOf rn) (reached es))).
    { apply startCollectors_rest; [vm_compute; discriminate |].
      change (GoInt.add 0 1) with 1. unfold len in *. cbn [length] in Hmax. lia. }
    change (0 =? 0) with true. cbv iota.
    sat_step. destruct a as [msg |]; sat_run.
    all: eapply sat_mono; [exact Hrest |]; cbn beta; intros es o (-> & Hm & Hs).
    all: split; [reflexivity |].
    all: rewrite ?metricsCollectors_cons, ?statusCollectors_cons.
    all: unfold firstReached; cbn [goOf flat_map metricsOf statusOf app reached connectedTo head].
    all: fold (reached es); rewrite Hm, Hs; split; reflexivity.
Qed.

End Collectors.

(** X11. [CollectAllStatus] connects to every node of the list; a node
    that cannot be reached is logged and skipped, and the loop always
    completes. Every node reached gets its four status collectors. The
    metrics collector is started for the first node of the list only: if
    that node cannot be reached, no metrics are collected at all. *)
Theorem metrics_come_from_the_first_node_only (env : Env) (rn : Runner)
    (uris : list string) (h : list Event) :
  len uris <= GoInt.maxInt ->
  outcome (startCollectors env rn uris 0) h = Done tt /\
  statusCollectors (events (startCollectors env rn uris 0) h)
  = flat_map (collectorsOf rn) (reached (events (startCollectors env rn uris 0) h)) /\
  metricsCollectors (events (startCollectors env rn uris 0) h)
  = firstReached uris (events (startCollectors env rn uris 0) h).
Proof.
  intros Hmax. exact (startCollectors_first env rn uris Hmax h).
Qed.

Lemma metrics_come_from_the_first_node_only_witness :
  let es := events (startCollectors Scenario.unreachableShard Scenario.shardedRunner
                      ["s2"; "s1"; "s3"]%string 0) [] in
  metricsCollectors es = [] /\ reached es = ["s1"; "s3"]%string /\ length (spawned es) = 8%nat.
Proof.
  intros es.
  destruct (metrics_come_from_the_first_node_only Scenario.unreachableShard
              Scenario.shardedRunner ["s2"; "s1"; "s3"]%string []
              ltac:(vm_compute; discriminate)) as (_ & _ & Hm).
  split; [exact Hm |]. split; vm_compute; reflexivity.
Defined.

(** ** The loop blocked on its channel *)

Module CoordinatorBlocking.

Import Coordinator.

Ltac branches :=
  cbn;
  repeat (match goal with
          | |- context [match ?x with _ => _ end] => destruct x
          | |- context [if ?b then _ else _] => destruct b
          end; cbn).

(** While the loop waits in [<-rn.channel] and no message arrives, it
    stays there, and it has not entered [terminate]. *)
Lemma step_blocked s a :
  mainAt s = AtReceive -> a <> MessageArrives ->
  mainAt (step s a) = AtReceive /\ loopEntries (step s a) = loopEntries s.
Proof.
  intros Hm Ha. destruct s as [m p q t x en]. cbn [mainAt] in Hm. subst m.
  unfold step, loopEntries. cbn [exited mainAt peekAt quit timer entered].
  destruct x as [c |]; [split; reflexivity |].
  destruct a; try contradiction; branches; split; reflexivity.
Qed.

(** Without a peek goroutine, nothing else can enter [terminate] or exit. *)
Lemma step_blocked_alone s a :
  mainAt s = AtReceive -> a <> MessageArrives ->
  peekAt s = None /\ exited s = None /\ entered s = [] ->
  peekAt (step s a) = None /\ exited (step s a) = None /\ entered (step s a) = [].
Proof.
  intros Hm Ha (Hp & Hx & He). destruct s as [m p q t x en].
  cbn [mainAt peekAt exited entered] in *. subst.
  unfold step. cbn [exited mainAt peekAt quit timer entered].
  destruct a; try contradiction; branches; repeat split; reflexivity.
Qed.

Lemma run_blocked acts :
  forall s, mainAt s = AtReceive -> Forall (fun a => a <> MessageArrives) acts ->
    mainAt (run s acts) = AtReceive /\ loopEntries (run s acts) = loopEntries s /\
    (peekAt s = None /\ exited s = None /\ entered s = [] ->
     exited (run s acts) = None /\ entered (run s acts) = []).
Proof.
  induction acts as [| a rest IH]; intros s Hm Hacts.
  { split; [exact Hm |]. split; [reflexivity |]. intros (_ & Hx & He). split; assumption. }
  inversion Hacts as [| a' rest' Ha Hrest]; subst.
  destruct (step_blocked s a Hm Ha) as [Hm' Hl'].
  destruct (IH (step s a) Hm' Hrest) as (Hm'' & Hl'' & Halone).
  unfold run in *. cbn [fold_left]. split; [exact Hm'' |].
  split; [rewrite Hl'', Hl'; reflexivity |].
  intros Hs. apply Halone. apply step_blocked_alone; assumption.
Qed.

End CoordinatorBlocking.

(** X12. The loop of [CollectAllStatus] tests its timer and its signal
    channel only between two messages: once a round of the loop has found
    neither ready, it waits in [<-rn.channel], and as long as no message
    arrives on that channel it never calls [terminate], whatever fires or
    arrives meanwhile. Without a peek goroutine the process then does not
    exit. *)
Theorem shutdown_waits_for_a_message (peekMode pick : bool)
    (acts : list Coordinator.Action) :
  Forall (fun a => a <> Coordinator.MessageArrives) acts ->
  let s := Coordinator.run (Coordinator.init peekMode) (Coordinator.MainRuns pick :: acts) in
  Coordinator.mainAt s = Coordinator.AtReceive /\
  Coordinator.loopEntries s = 0%nat /\
  (peekMode = false -> Coordinator.exited s = None /\ Coordinator.entered s = []).
Proof.
  intros Hacts s.
  assert (Hfirst : Coordinator.mainAt
                     (Coordinator.step (Coordinator.init peekMode) (Coordinator.MainRuns pick))
                   = Coordinator.AtReceive) by reflexivity.
  destruct (CoordinatorBlocking.run_blocked acts _ Hfirst Hacts) as (Hm & Hl & Halone).
  change (Coordinator.run (Coordinator.step (Coordinator.init peekMode)
                             (Coordinator.MainRuns pick)) acts) with s in Hm, Hl, Halone.
  split; [exact Hm |]. split; [rewrite Hl; reflexivity |].
  intros ->. apply Halone. repeat split.
Qed.

Lemma shutdown_waits_for_a_message_witness :
  let s := Coordinator.run (Coordinator.init false)
             [Coordinator.MainRuns true; Coordinator.TimerFires; Coordinator.SignalArrives;
              Coordinator.MainRuns true; Coordinator.MainRuns false] in
  Coordinator.timer s = Coordinator.Fired /\ Coordinator.quit s = 1%nat /\
  Coordinator.mainAt s = Coordinator.AtReceive /\ Coordinator.exited s = None.
Proof.
  intros s.
  destruct (shutdown_waits_for_a_message false true
              [Coordinator.TimerFires; Coordinator.SignalArrives;
               Coordinator.MainRuns true; Coordinator.MainRuns false]
              ltac:(repeat constructor; discriminate)) as (Hm & _ & Halone).
  split; [reflexivity |]. split; [reflexivity |]. split; [exact Hm |].
  exact (proj1 (Halone eq_refl)).
Defined.

(** ** Deadline goroutines *)

Lemma calls_deadlines (cs : list Call) :
  forall rn,
    sat (calls rn cs) (fun es o =>
      exists rn', o = Done rn' /\
        Forall isDeadline es /\
        length es = length (List.filter startsDeadline cs) /\
        peek rn' = peekAfter (peek rn) cs).
Proof.
  induction cs as [| c rest IH]; intros rn; cbn [calls].
  - sat_step. exists rn. repeat split. constructor.
  - assert (Hquiet : forall rn1,
              peek rn1 = peek rn -> startsDeadline c = false ->
              (forall b, match c with CallSetPeekingMode mode => mode | _ => b end = b) ->
              sat (calls rn1 rest) (fun es o =>
                exists rn', o = Done rn' /\ Forall isDeadline es /\
                  length es = length (List.filter startsDeadline (c :: rest)) /\
                  peek rn' = peekAfter (peek rn) (c :: rest))).
    { intros rn1 Hp Hc Hb. eapply sat_mono; [apply (IH rn1) |]. cbn beta.
      intros es o (rn' & -> & Hd & Hl & Hpk). exists rn'.
      cbn [List.filter]. rewrite Hc. unfold peekAfter in *. cbn [fold_left].
      rewrite Hb, <- Hp. repeat split; assumption. }
    destruct c; cbn [call]; unfold SetPeekingMode;
      try (sat_step; apply Hquiet; [| reflexivity | reflexivity]).
    all: try reflexivity.
    + unfold SetCollection. destruct (negb _); reflexivity.
    + destruct mode; cbn [peek set_peek].
      * sat_run. eapply sat_mono; [apply (IH (set_peek true rn)) |]. cbn beta.
        intros es o (rn' & -> & Hd & Hl & Hpk). exists rn'.
        split; [reflexivity |]. split; [constructor; [eexists; reflexivity | exact Hd] |].
        cbn [List.filter startsDeadline length]. split; [rewrite Hl; reflexivity |].
        exact Hpk.
      * sat_run. eapply sat_mono; [apply (IH (set_peek false rn)) |]. cbn beta.
        intros es o (rn' & -> & Hd & Hl & Hpk). exists rn'.
        repeat split; assumption.
Qed.

(** X13. Setter calls never fail, and the only thing they start is the
    deadline goroutine of [SetPeekingMode(true)]: one for every such
    call, also when peeking mode is already on, and none is withdrawn by
    a later [SetPeekingMode(false)], which only clears the flag. *)
Theorem every_peeking_call_starts_a_deadline (rn : Runner) (cs : list Call)
    (h : list Event) :
  exists rn',
    outcome (calls rn cs) h = Done rn' /\
    Forall isDeadline (events (calls rn cs) h) /\
    length (events (calls rn cs) h) = length (List.filter startsDeadline cs) /\
    peek rn' = peekAfter (peek rn) cs.
Proof. exact (calls_deadlines cs rn h). Qed.

(** ** The connection list of a new runner *)

(** [l[len(l)-1]] on a list that a slice can hold: the last element, or
    a panic on the index -1 of the empty list. *)
Lemma index_last {A : Type} (l : list A) :
  sat (index l (GoInt.sub (len l) 1)) (fun es o =>
    es = [] /\
    ((exists a, o = Done a) \/ (exists p, o = Panicked p)) /\
    (len l <= GoInt.maxInt ->
     (l = [] /\ o = Panicked (IndexOutOfRange (-1) 0)) \/
     (exists a, last l = Some a /\ o = Done a))).
Proof.
  destruct (decide (len l <= GoInt.maxInt)) as [Hmax | Hbig].
  2: { eapply sat_mono; [apply index_spec |]. cbn beta. intros es o [-> Hres].
       split; [reflexivity |]. split; [exact Hres |]. intros H. destruct (Hbig H). }
  assert (Hsub : GoInt.sub (len l) 1 = len l - 1).
  { apply wrap_small. unfold len in *.
    unfold GoInt.inRange, GoInt.minInt, GoInt.maxInt in *. lia. }
  rewrite Hsub. unfold index.
  destruct (decide (0 <= len l - 1 < len l)) as [Hin | Hout].
  - destruct (l !! Z.to_nat (len l - 1)) as [a |] eqn:Ha.
    + sat_step. split; [reflexivity |]. split; [left; eauto |]. intros _.
      right. exists a. split; [| reflexivity].
      rewrite last_lookup. rewrite <- Ha. f_equal. unfold len. lia.
    + apply lookup_ge_None in Ha. unfold len in *. lia.
  - sat_step. split; [reflexivity |]. split; [right; eauto |]. intros _. left.
    assert (Hnil : l = [])
      by (destruct l; [reflexivity | unfold len in Hout; cbn [length] in Hout; lia]).
    subst l. split; reflexivity.
Qed.

Section NewRunnerFacts.

Context (env : Env).

Lemma NewRunner_uri cs :
  sat (NewRunner env cs) (fun es o =>
    (forall shards, In (GetShards (shards, None)) es ->
       len (fst (getAllShardURIs env shards cs)) <= GoInt.maxInt) ->
    (forall rn, o = Done (Some rn, None) ->
       last (uriList rn) = Some (uri rn) /\ client rn = Some (Original cs)) /\
    (forall shards,
       In (GetShards (shards, None)) es ->
       getAllShardURIs env shards cs = ([], None) ->
       o = Panicked (IndexOutOfRange (-1) 0))).
Proof.
  unfold NewRunner. cbn [dbName].
  match goal with |- context [set_client _ ?r] => generalize r; intros r0 end.
  assert (Hno : forall (es : list Event) (o : Outcome (option Runner * option error)),
            (forall rn, o <> Done (Some rn, None)) ->
            (forall shards, ~ In (GetShards (shards, None)) es) ->
            (forall rn, o = Done (Some rn, None) ->
               last (uriList rn) = Some (uri rn) /\ client rn = Some (Original cs)) /\
            (forall shards, In (GetShards (shards, None)) es ->
               getAllShardURIs env shards cs = ([], None) ->
               o = Panicked (IndexOutOfRange (-1) 0))).
  { intros es o Ho Hes. split; [intros rn H; destruct (Ho rn H) |].
    intros shards H. destruct (Hes shards H). }
  sat_step. destruct a as [msg |].
  { sat_step. intros _. apply Hno; [intros rn; congruence | intros sh Hin; cbn [In app] in Hin; intuition congruence]. }
  sat_step. cbn [clusterType set_clusterType set_uriList uriList].
  destruct (String.eqb a "").
  { sat_step. intros _. apply Hno; [intros rn; congruence | intros sh Hin; cbn [In app] in Hin; intuition congruence]. }
  destruct (String.eqb a mdb.Sharded).
  - sat_step. destruct a0 as [shards [msg |]].
    { sat_step. intros _. apply Hno; [intros rn; congruence | intros sh Hin; cbn [In app] in Hin; intuition congruence]. }
    destruct (getAllShardURIs env shards cs) as [uris [msg |]] eqn:Huris.
    { sat_step. intros _. split; [intros rn; congruence |].
      intros sh Hin Hsh. cbn [In app] in Hin. intuition congruence. }
    eapply sat_bind_with; [apply (index_last uris) |].
    intros es1 o1 (-> & Hres & Hlast).
    assert (Hlen : (forall sh, In (GetShards (sh, None))
                      [NewMongoClient (Original cs) (SSLCaFile cs)
                         (SSLClientCertificateKeyFile cs) None;
                       GetClusterStatsSummary a; GetShards (shards, None)] ->
                      len (fst (getAllShardURIs env sh cs)) <= GoInt.maxInt) ->
                   (uris = [] /\ o1 = Panicked (IndexOutOfRange (-1) 0)) \/
                   (exists u, last uris = Some u /\ o1 = Done u)).
    { intros Hmax. apply Hlast. specialize (Hmax shards). rewrite Huris in Hmax.
      apply Hmax. right. right. left. reflexivity. }
    destruct Hres as [[u ->] | [p ->]]; cbn [continues].
    + sat_step. intros Hmax. destruct (Hlen Hmax) as [[_ [=]] | (u' & Hu & [= <-])].
      split.
      * intros rn [= <-]. cbn. split; [exact Hu | reflexivity].
      * intros sh Hin Hsh. cbn [In app] in Hin.
        assert (sh = shards) as -> by intuition congruence.
        rewrite Huris in Hsh. injection Hsh as ->. discriminate Hu.
    + intros Hmax. destruct (Hlen Hmax) as [[_ [= ->]] | (u' & _ & [=])].
      split; [intros rn [=] |]. intros sh _ _. reflexivity.
  - eapply sat_bind_with; [apply (index_last [Original cs]) |].
    intros es1 o1 (-> & _ & Hlast).
    destruct (Hlast ltac:(vm_compute; discriminate)) as [[[=] _] | (u & Hu & ->)];
      cbn [continues].
    sat_step. intros _. split.
    + intros rn [= <-]. cbn. split; [exact Hu | reflexivity].
    + intros sh Hin. cbn [In app] in Hin. intuition congruence.
Qed.

End NewRunnerFacts.

(** X14. A runner that [NewRunner] returns without error works on the
    last node of its connection list and holds the client of the entry
    connection. On a sharded cluster whose shard list yields no
    connection at all, [NewRunner] does not return an error: it panics on
    the index -1 of the empty list. *)
Theorem new_runner_uses_the_last_node (env : Env) (cs : ConnString) (h : list Event) :
  (forall shards,
     In (GetShards (shards, None)) (events (NewRunner env cs) h) ->
     len (fst (getAllShardURIs env shards cs)) <= GoInt.maxInt) ->
  (forall rn, outcome (NewRunner env cs) h = Done (Some rn, None) ->
     last (uriList rn) = Some (uri rn) /\ client rn = Some (Original cs)) /\
  (forall shards,
     In (GetShards (shards, None)) (events (NewRunner env cs) h) ->
     getAllShardURIs env shards cs = ([], None) ->
     outcome (NewRunner env cs) h = Panicked (IndexOutOfRange (-1) 0)).
Proof. exact (NewRunner_uri env cs h). Qed.

Lemma new_runner_uses_the_last_node_witness :
  (exists rn,
     outcome (NewRunner Scenario.fourShards Scenario.entry) [] = Done (Some rn, None) /\
     last (uriList rn) = Some (uri rn) /\
     uri rn = "mongodb://s3/localhost:27017"%string) /\
  outcome (NewRunner Scenario.unreachableShard Scenario.entry) []
  = Panicked (IndexOutOfRange (-1) 0).
Proof.
  split.
  - destruct (outcome (NewRunner Scenario.fourShards Scenario.entry) [])
      as [[[rn |] [e |]] | c | p] eqn:Hout; try (vm_compute in Hout; discriminate Hout).
    exists rn. split; [reflexivity |].
    assert (Hmax : forall shards,
              In (GetShards (shards, None))
                 (events (NewRunner Scenario.fourShards Scenario.entry) []) ->
              len (fst (getAllShardURIs Scenario.fourShards shards Scenario.entry))
              <= GoInt.maxInt).
    { intros shards Hin. vm_compute in Hin.
      destruct Hin as [[=] | [[=] | [[= <-] | []]]]. vm_compute. discriminate. }
    destruct (proj1 (new_runner_uses_the_last_node Scenario.fourShards Scenario.entry []
                       Hmax) rn Hout) as [Hlast _].
    split; [exact Hlast |].
    vm_compute in Hout. injection Hout as <-. reflexivity.
  - apply (proj2 (new_runner_uses_the_last_node Scenario.unreachableShard Scenario.entry []
                    ltac:(intros shards _; vm_compute; discriminate)) []).
    + vm_compute. right. right. left. reflexivity.
    + reflexivity.
Defined.

(** ** The names a runner works on *)

Lemma NewRunner_named (env : Env) (cs : ConnString) :
  sat (NewRunner env cs) (fun _ o =>
    forall rn e, o = Done (Some rn, e) ->
      named rn /\
      dbName rn = (if String.eqb (Database cs) "" then mdb.KeyholeDB else Database cs) /\
      collectionName rn = mdb.ExamplesCollection).
Proof.
  unfold NewRunner. cbn [dbName].
  match goal with
  | |- context [set_client _ ?r] =>
      assert (Hr : named r /\
                   dbName r = (if String.eqb (Database cs) "" then mdb.KeyholeDB
                               else Database cs) /\
                   collectionName r = mdb.ExamplesCollection)
        by (unfold named; destruct (String.eqb (Database cs) "") eqn:Hdb;
            cbn; repeat split; try discriminate;
            apply eqb_false_ne; exact Hdb);
      revert Hr; generalize r; intros r0 Hr
  end.
  sat_step. destruct a as [msg |].
  { sat_step. intros rn e [= <- _]. exact Hr. }
  sat_step. cbn [clusterType set_clusterType set_uriList uriList].
  destruct (String.eqb a "").
  { sat_step. intros rn e [=]. }
  destruct (String.eqb a mdb.Sharded).
  - sat_step. destruct a0 as [shards [msg |]].
    { sat_step. intros rn e [= <- _]. exact Hr. }
    destruct (getAllShardURIs env shards cs) as [uris [msg |]].
    { sat_step. intros rn e [= <- _]. exact Hr. }
    eapply sat_bind_with; [apply index_spec |].
    intros es1 o1 [-> [[last ->] | [p ->]]]; cbn [continues].
    + sat_step. intros rn e [= <- _]. exact Hr.
    + intros rn e [=].
  - eapply sat_bind_with; [apply index_spec |].
    intros es1 o1 [-> [[last ->] | [p ->]]]; cbn [continues].
    + sat_step. intros rn e [= <- _]. exact Hr.
    + intros rn e [=].
Qed.

Lemma call_named (rn : Runner) (c : Call) :
  named rn ->
  sat (call rn c) (fun _ o =>
    exists rn1, o = Done rn1 /\ named rn1 /\ dbName rn1 = dbName rn).
Proof.
  intros [Hd Hc]. unfold named.
  destruct c; cbn [call]; unfold SetPeekingMode; sat_run;
    try (eexists; split; [reflexivity |]; cbn; repeat split; assumption).
  unfold SetCollection. destruct (String.eqb name "") eqn:Hname; cbn [negb];
    (eexists; split; [reflexivity |]; cbn; repeat split;
     first [assumption | discriminate | apply eqb_false_ne; exact Hname]).
Qed.

Lemma calls_named (cs : list Call) :
  forall rn,
    named rn ->
    sat (calls rn cs) (fun _ o =>
      exists rn', o = Done rn' /\ named rn' /\ dbName rn' = dbName rn).
Proof.
  induction cs as [| c rest IH]; intros rn Hn; cbn [calls].
  - sat_step. exists rn. repeat split; try reflexivity; apply Hn.
  - eapply sat_bind_with; [apply (call_named rn c Hn) |].
    intros es1 o1 (rn1 & -> & Hn1 & Hd1). cbn [continues].
    eapply sat_mono; [apply (IH rn1 Hn1) |]. cbn beta.
    intros es o (rn' & -> & Hn' & Hd'). exists rn'.
    split; [reflexivity |]. split; [exact Hn' | congruence].
Qed.

(** X15. A runner always has a database and a collection to work on:
    [NewRunner] falls back to the default database when the connection
    string names none and starts on the default collection, also when it
    returns the runner together with an error; no setter changes the
    database, and [SetCollection] with the empty name restores the default
    collection. *)
Theorem runner_names_are_never_empty (env : Env) (cs : ConnString) (h0 : list Event)
    (rn0 : Runner) (e : option error) (setters : list Call) (h : list Event) :
  outcome (NewRunner env cs) h0 = Done (Some rn0, e) ->
  exists rn,
    outcome (calls rn0 setters) h = Done rn /\
    dbName rn = (if String.eqb (Database cs) "" then mdb.KeyholeDB else Database cs) /\
    dbName rn <> ""%string /\
    collectionName rn <> ""%string.
Proof.
  intros Hnew.
  destruct (NewRunner_named env cs h0 rn0 e Hnew) as (Hn0 & Hdb & _).
  destruct (calls_named setters rn0 Hn0 h) as (rn & Hout & [Hd Hc] & Hsame).
  exists rn. split; [exact Hout |]. split; [congruence |]. split; assumption.
Qed.

Lemma runner_names_are_never_empty_witness :
  exists rn0 e rn,
    outcome (NewRunner Scenario.fourShards Scenario.entry) [] = Done (Some rn0, e) /\
    outcome (calls rn0 [CallSetCollection "orders"; CallSetCollection ""]) [] = Done rn /\
    dbName rn = mdb.KeyholeDB /\
    collectionName rn <> ""%string.
Proof.
  destruct (outcome (NewRunner Scenario.fourShards Scenario.entry) [])
    as [[[rn0 |] e] | c | p] eqn:Hnew; try (vm_compute in Hnew; discriminate Hnew).
  destruct (runner_names_are_never_empty Scenario.fourShards Scenario.entry [] rn0 e
              [CallSetCollection "orders"; CallSetCollection ""] [] Hnew)
    as (rn & Hout & Hdb & _ & Hc).
  exists rn0, e, rn. split; [reflexivity |]. split; [exact Hout |].
  split; [exact Hdb | exact Hc].
Defined.

(** ** The two phases of [Start] *)

Lemma phased_pre {A B : Type} (P Q : Event -> Prop) (m : Proc A) (k : A -> Proc B) :
  always P m -> (forall a, phased P Q (k a)) -> phased P Q (bind m k).
Proof.
  intros Hm Hk. apply sat_bind. eapply sat_mono; [exact Hm |]. cbn beta.
  intros es1 [a | c | p] H1; cbn [continues].
  - eapply sat_mono; [apply Hk |]. cbn beta. intros es2 o2 (pre & post & -> & Hpre & Hpost).
    exists (es1 ++ pre), post. rewrite app_assoc. split; [reflexivity |].
    split; [apply Forall_app; split; assumption | exact Hpost].
  - exists es1, []. rewrite app_nil_r. repeat split; [exact H1 | constructor].
  - exists es1, []. rewrite app_nil_r. repeat split; [exact H1 | constructor].
Qed.

Lemma phased_post {A : Type} (P Q : Event -> Prop) (m : Proc A) :
  always Q m -> phased P Q m.
Proof.
  intros Hm. eapply sat_mono; [exact Hm |]. cbn beta. intros es o H.
  exists [], es. repeat split; [constructor | exact H].
Qed.

(** A function whose footprint has no drop. *)
Ltac keeps lem :=
  eapply always_impl; [| apply lem];
  let ev := fresh "ev" in let H := fresh "H" in let Hk := fresh "Hk" in
  intros ev H Hk; unfold within in H; rewrite Hk in H; cbn [In] in H;
  intuition discriminate.

Section Phases.

Context (env : Env).

Lemma Start_phased rn : phased (within cleanupKinds) (within setupKinds) (Start env rn).
Proof.
  unfold Start, cleanupKinds, setupKinds. destruct (peek rn); [apply phased_post, always_ret |].
  cbv zeta.
  apply phased_pre; [always_run; in_kinds | intros _].
  apply phased_pre; [always_run; in_kinds | intros _].
  apply phased_pre.
  { repeat first [by_footprint Cleanup_within | always_step]; in_kinds. }
  intros _. apply phased_post. unfold schedule.
  repeat first
    [ by_footprint createIndexes_within
    | by_footprint spawnWorkers_within
    | always_step ]; in_kinds.
Qed.

Lemma Start_keeps rn :
  drop rn = false -> always (fun ev => kind ev <> KDrop) (Start env rn).
Proof.
  intros Hdrop. unfold Start. cbv zeta.
  match goal with
  | |- context [if ?c then set_dbName mdb.KeyholeDB rn else rn] =>
      set (rn' := if c then set_dbName mdb.KeyholeDB rn else rn);
      assert (Hd : drop rn' = false) by (unfold rn'; destruct c; exact Hdrop);
      clearbody rn'
  end.
  rewrite Hd. unfold schedule.
  repeat first
    [ keeps createIndexes_within
    | keeps spawnWorkers_within
    | always_step ]; cbn [kind]; discriminate.
Qed.

End Phases.

(** X19. [Start] drops only before it sets anything up: its trace is a
    confirmation and cleanup phase, in which nothing is created, followed
    by a setup phase (documents, template, indexes, sharding, workers) in
    which nothing is dropped. Without drop-first mode it drops nothing at
    all. *)
Theorem nothing_is_dropped_once_setup_began (env : Env) (rn : Runner) (h : list Event) :
  (exists pre post,
     events (Start env rn) h = pre ++ post /\
     Forall (within cleanupKinds) pre /\
     Forall (within setupKinds) post) /\
  (drop rn = false -> Forall (fun ev => kind ev <> KDrop) (events (Start env rn) h)).
Proof.
  split; [exact (Start_phased env rn h) |].
  intros Hdrop. exact (Start_keeps env rn Hdrop h).
Qed.

Lemma nothing_is_dropped_once_setup_began_witness :
  drop (Scenario.runner "sharded") = false /\
  Forall (fun ev => kind ev <> KDrop)
    (events (Start Scenario.fourShards (Scenario.runner "sharded")) []).
Proof.
  split; [reflexivity |].
  exact (proj2 (nothing_is_dropped_once_setup_began Scenario.fourShards
                  (Scenario.runner "sharded") []) eq_refl).
Defined.

(** ** Errors of [splitChunks] *)

Lemma movedTo_app es es' : movedTo (es ++ es') = movedTo es ++ movedTo es'.
Proof. unfold movedTo. rewrite commandsOf_app. apply flat_map_app. Qed.

Lemma unmovedOnError_cons ev es o :
  flat_map moveTarget (commandOf ev) = [] -> unmovedOnError es o -> unmovedOnError (ev :: es) o.
Proof. intros Hev H e He. rewrite movedTo_cons, Hev. exact (H e He). Qed.

Lemma unmovedOnError_app es1 es2 o :
  movedTo es1 = [] -> unmovedOnError es2 o -> unmovedOnError (es1 ++ es2) o.
Proof. intros H1 H e He. rewrite movedTo_app, H1. exact (H e He). Qed.

Ltac unmoved_strip :=
  lazymatch goal with
  | |- sat _ (fun es o => unmovedOnError (_ :: es) o) =>
      eapply (sat_mono _ unmovedOnError);
      [| cbn beta; intros ? ? ?;
         repeat (apply unmovedOnError_cons; [reflexivity |]); eassumption]
  end.

Ltac unmoved_leaf :=
  lazymatch goal with
  | |- unmovedOnError _ _ => intros ? ?; first [discriminate | reflexivity]
  end.

Section SplitErrors.

Context (env : Env).

Lemma splitChunks_unmovedOnError rn : sat (splitChunks env rn) unmovedOnError.
Proof.
  unfold splitChunks, dbFindOne, dbFind, dbRunCommand, useClient, assertString, orReturn.
  repeat first
    [ unmoved_leaf
    | lazymatch goal with
      | |- sat (bind (nonPrimaryShards _ _ _) _) _ =>
          eapply sat_bind_with; [apply nonPrimaryShards_spec; constructor |];
          intros ? o1 [? _]; destruct o1; cbn [continues];
          [ eapply (sat_mono _ unmovedOnError);
            [| cbn beta; intros ? ? ?; apply unmovedOnError_app; eassumption]
          | intros ? ?; discriminate
          | intros ? ?; discriminate ]
      | |- sat (bind (splitLoop _ _ _ _ _) _) _ =>
          eapply sat_bind_with; [apply splitLoop_moves_nothing |];
          intros ? o1 ?; destruct o1; cbn [continues];
          [ eapply (sat_mono _ unmovedOnError);
            [| cbn beta; intros ? ? ?; apply unmovedOnError_app; eassumption]
          | intros ? ?; discriminate
          | intros ? ?; discriminate ]
      | |- sat (bind (moveLoop _ _ _ _ _ _) _) _ =>
          eapply sat_bind_with; [apply (sat_trivial _ (fun _ _ => True)); auto |];
          intros ? o1 _; destruct o1; cbn [continues];
          [ sat_run; intros ? ?; discriminate
          | intros ? ?; discriminate
          | intros ? ?; discriminate ]
      end
    | sat_step; try unmoved_strip
    | sat_branch ].
Qed.

End SplitErrors.

(** X20. An error returned by [splitChunks] means that no chunk has been
    moved: every error it returns (the lookup of the primary, the two
    sharding commands, the shard list, a split, the chunk list) comes
    before the first moveChunk command, and a failed move is not returned
    but ends the process. *)
Theorem no_chunk_is_moved_when_splitChunks_fails (env : Env) (rn : Runner) (h : list Event)
    (e : error) :
  outcome (splitChunks env rn) h = Done (Some e) ->
  movedTo (events (splitChunks env rn) h) = [].
Proof. intros He. exact (splitChunks_unmovedOnError env rn h e He). Qed.

Lemma no_chunk_is_moved_when_splitChunks_fails_witness :
  outcome (splitChunks Scenario.splitRefused (Scenario.runner "sharded")) []
  = Done (Some "split failed: boundary exists"%string) /\
  movedTo (events (splitChunks Scenario.splitRefused (Scenario.runner "sharded")) []) = [].
Proof.
  assert (He : outcome (splitChunks Scenario.splitRefused (Scenario.runner "sharded")) []
               = Done (Some "split failed: boundary exists"%string))
    by (vm_compute; reflexivity).
  split; [exact He |].
  exact (no_chunk_is_moved_when_splitChunks_fails Scenario.splitRefused
           (Scenario.runner "sharded") [] _ He).
Defined.

(** * Properties of the logger *)

Lemma string_app_cons (ch : ascii) (a b : string) : String ch a +:+ b = String ch (a +:+ b).
Proof. reflexivity. Qed.

Lemma string_app_assoc (a b c : string) : (a +:+ b) +:+ c = a +:+ b +:+ c.
Proof.
  induction a as [| ch a IH]; [reflexivity |].
  rewrite !string_app_cons, IH. reflexivity.
Qed.

Lemma string_app_empty_r (a : string) : a +:+ EmptyString = a.
Proof.
  induction a as [| ch a IH]; [reflexivity |].
  rewrite string_app_cons, IH. reflexivity.
Qed.


(** [strings.Join] of a list and one more element. *)
Lemma join_snoc (sep : string) (l : list string) (x : string) :
  l <> [] -> String.concat sep (l ++ [x]) = String.concat sep l +:+ sep +:+ x.
Proof.
  induction l as [| a rest IH]; intros Hne; [contradiction |].
  destruct rest as [| b rest]; [reflexivity |].
  change (String.concat sep ((a :: b :: rest) ++ [x]))
    with (a +:+ sep +:+ String.concat sep ((b :: rest) ++ [x])).
  rewrite IH by discriminate.
  change (String.concat sep (a :: b :: rest))
    with (a +:+ sep +:+ String.concat sep (b :: rest)).
  rewrite !string_app_assoc. reflexivity.
Qed.

Lemma join_app (sep : string) (l l' : list string) :
  l <> [] -> l' <> [] ->
  String.concat sep (l ++ l') = String.concat sep l +:+ sep +:+ String.concat sep l'.
Proof.
  intros Hl Hl'. revert l Hl. induction l' as [| x rest IH] using rev_ind; [contradiction |].
  intros l Hl. destruct rest as [| y rest'].
  - apply join_snoc, Hl.
  - rewrite app_assoc, !join_snoc.
    + rewrite IH by (discriminate || assumption). rewrite !string_app_assoc. reflexivity.
    + discriminate.
    + destruct l; [contradiction | discriminate].
Qed.


Section LoggerFacts.

Context (rfc3339 : Z -> string) (codeRed codeDefault : string).

(** The loop over the warnings appends one line per warning. *)
Lemma warningLines_map (p : logger.Logger) (strs : list string) :
  logger.warningLines codeRed codeDefault p strs
  = strs ++ map (shown codeRed codeDefault p) (logger.Warnings p).
Proof.
  unfold logger.warningLines. revert strs.
  induction (logger.Warnings p) as [| w rest IH]; intros strs; cbn [fold_left map].
  - rewrite app_nil_r. reflexivity.
  - unfold shown at 1. destruct (logger.nocolor p); rewrite IH, <- app_assoc; reflexivity.
Qed.

Lemma Print_plain (p : logger.Logger) :
  logger.Warnings p = [] ->
  logger.Print codeRed codeDefault (Some p)
  = String.concat logger.newline (logger.header p :: logger.Logs p).
Proof. intros Hw. unfold logger.Print. rewrite Hw. reflexivity. Qed.

End LoggerFacts.

(** X16. Without warnings, the report is the header line followed by the
    log lines, and every message added is one more line at its end,
    stamped with the time of the call: after [NewLogger] the report has
    the header and the line that keyhole begins, and [Add] (or [Log],
    which keeps the same logger and also logs the message) appends a
    newline, the time, a space and the message. *)
Theorem every_message_is_one_more_line (rfc3339 : Z -> string) (codeRed codeDefault : string)
    (p : logger.Logger) (now : Z) (message : string) (h : list Event) :
  logger.Warnings p = [] ->
  logger.Print codeRed codeDefault (Some (logger.Add rfc3339 p now message))
  = logger.Print codeRed codeDefault (Some p)
    +:+ logger.newline +:+ rfc3339 now +:+ " " +:+ message /\
  logger.Log rfc3339 p now message h
  = ([Log [LStr message]], Done (logger.Add rfc3339 p now message)) /\
  forall start fullVersion params,
    logger.Print codeRed codeDefault (Some (logger.NewLogger rfc3339 start fullVersion params))
    = logger.header (logger.NewLogger rfc3339 start fullVersion params)
      +:+ logger.newline +:+ rfc3339 start +:+ " keyhole begins".
Proof.
  intros Hw. split; [| split; [reflexivity | reflexivity]].
  rewrite !Print_plain by exact Hw.
  change (logger.header (logger.Add rfc3339 p now message)) with (logger.header p).
  change (logger.Logs (logger.Add rfc3339 p now message))
    with (logger.Logs p ++ [rfc3339 now +:+ " " +:+ message]).
  rewrite app_comm_cons. apply join_snoc. discriminate.
Qed.

Lemma every_message_is_one_more_line_witness :
  let stamp := fun _ : Z => "2020-01-01T00:00:00Z"%string in
  let p := logger.NewLogger stamp 0 "v1" "--info" in
  logger.Print "<" ">" (Some (logger.Add stamp p 1 "done"))
  = logger.Print "<" ">" (Some p)
    +:+ logger.newline +:+ "2020-01-01T00:00:00Z done".
Proof.
  intros stamp p.
  exact (proj1 (every_message_is_one_more_line stamp "<" ">" p 1 "done" [] eq_refl)).
Defined.

(** X17. Warnings are reported after all the log lines, whenever they
    were raised: the report of a logger with warnings is its report
    without them, then an empty line, the line [Warnings:], one line per
    warning in the order raised (in red unless colours are off), and a
    final newline. *)
Theorem warnings_follow_the_log_lines (codeRed codeDefault : string) (p : logger.Logger) :
  logger.Warnings p <> [] ->
  logger.Print codeRed codeDefault (Some p)
  = logger.Print codeRed codeDefault (Some (withoutWarnings p))
    +:+ logger.newline +:+ logger.newline +:+ "Warnings:" +:+ logger.newline
    +:+ String.concat logger.newline (map (shown codeRed codeDefault p) (logger.Warnings p))
    +:+ logger.newline.
Proof.
  intros Hw.
  rewrite (Print_plain codeRed codeDefault (withoutWarnings p)) by reflexivity.
  change (logger.header (withoutWarnings p)) with (logger.header p).
  change (logger.Logs (withoutWarnings p)) with (logger.Logs p).
  unfold logger.Print.
  assert (Hlen : (0 <? len (logger.Warnings p)) = true).
  { apply Z.ltb_lt. unfold len. destruct (logger.Warnings p); [contradiction | cbn [length]; lia]. }
  rewrite Hlen, warningLines_map.
  set (A := [logger.header p] ++ logger.Logs p).
  set (M := map (shown codeRed codeDefault p) (logger.Warnings p)).
  assert (HM : M <> []).
  { unfold M. destruct (logger.Warnings p); [contradiction | discriminate]. }
  rewrite join_snoc.
  2: { destruct A; discriminate. }
  rewrite <- app_assoc, join_app; [| discriminate | discriminate].
  change ([logger.newline +:+ "Warnings:"] ++ M) with ((logger.newline +:+ "Warnings:") :: M).
  destruct M as [| m M']; [contradiction |].
  change (String.concat logger.newline ((logger.newline +:+ "Warnings:") :: m :: M'))
    with ((logger.newline +:+ "Warnings:") +:+ logger.newline
          +:+ String.concat logger.newline (m :: M')).
  rewrite string_app_empty_r, !string_app_assoc. reflexivity.
Qed.

Lemma warnings_follow_the_log_lines_witness :
  exists p a b,
    logger.Warn "<" ">" (logger.NewLogger (fun _ => "T"%string) 0 "v1" "--info") "slow" []
    = (a, Done b) /\
    p = logger.Add (fun _ => "T"%string) b 1 "done" /\
    logger.Print "<" ">" (Some p)
    = logger.Print "<" ">" (Some (withoutWarnings p))
      +:+ logger.newline +:+ logger.newline +:+ "Warnings:" +:+ logger.newline
      +:+ "<slow>" +:+ logger.newline.
Proof.
  eexists. eexists. eexists. split; [reflexivity |]. split; [reflexivity |].
  match goal with
  | |- logger.Print _ _ (Some ?p) = _ =>
      exact (warnings_follow_the_log_lines "<" ">" p ltac:(discriminate))
  end.
Defined.


